(** * m3fs, package [task]: the resumable progress model and the task runner

    A shallow embedding of [pkg/task/progress.go] (the progress model and its
    rendering) and of the runner that shares its package ([Runtime], [Runner],
    [Runner.Run]) and of the check of the command line in [main.go],
    followed by the properties the specification states about them and by
    further properties read off the code.

    Conventions of the embedding:
    - a Go [string] is a sequence of bytes: Rocq's [string], one [ascii] per
      byte;
    - a Go [int] is a 64-bit two's-complement integer: a [Z] kept in range by
      [wrap64];
    - a [float64] is an IEEE-754 binary64 value: [spec_float] with the
      Standard Library's specification of the operations at precision 53;
    - a Go map is a [gmap], wrapped in [option] where the code can meet the
      nil map;
    - a function that can panic returns a [Result];
    - side effects (the file system, the clock, the log, the tasks' effects
      on the shared store) are threaded through an explicit [World]. *)

From Stdlib Require Import ZArith Lia List String Ascii DecimalString.
From Stdlib Require Import Floats.SpecFloat.
From stdpp Require Import gmap strings list fin_maps sorting.

Local Open Scope string_scope.
Local Open Scope list_scope.
Local Open Scope Z_scope.

(** ** Go primitives *)

Module Go.

(** *** Machine integers *)

Definition wrap64 (z : Z) : Z := (z + 2 ^ 63) mod 2 ^ 64 - 2 ^ 63.

Definition int_add (a b : Z) : Z := wrap64 (a + b).

(** Go's [%] truncates towards zero: the sign follows the dividend. *)
Definition int_rem (a b : Z) : Z := Z.rem a b.

Definition int_quo (a b : Z) : Z := wrap64 (Z.quot a b).

Definition MinInt64 : Z := - 2 ^ 63.
Definition MaxInt64 : Z := 2 ^ 63 - 1.

(** *** Panics *)

Inductive panic : Type :=
| TypeAssertionError (dynamic asserted : string)
    (* interface conversion: interface {} is [dynamic], not [asserted] *)
| NilMapAssignment
    (* assignment to entry in nil map *)
| NilPointerDereference.
    (* invalid memory address or nil pointer dereference *)

Inductive Result (A : Type) : Type :=
| Returns (a : A)
| Panics (p : panic).
Arguments Returns {A} a.
Arguments Panics {A} p.

(** *** Strings *)

(** [fmt]'s [%d]. *)
Definition itoa (z : Z) : string := NilZero.string_of_int (Z.to_int z).

(** [strings.Join]. *)
Definition Join (parts : list string) (sep : string) : string :=
  String.concat sep parts.

Definition lower_byte (c : ascii) : ascii :=
  let n := N_of_ascii c in
  if ((65 <=? n) && (n <=? 90))%N then ascii_of_N (n + 32) else c.

(** [strings.ToLower] on the ASCII letters (the bytes of a multi-byte rune
    are left as they are). *)
Fixpoint ToLower (s : string) : string :=
  match s with
  | EmptyString => EmptyString
  | String c r => String (lower_byte c) (ToLower r)
  end.

Fixpoint repeat_string (n : nat) (s : string) : string :=
  match n with
  | O => EmptyString
  | S k => s +:+ repeat_string k s
  end.

(** *** float64

    IEEE-754 binary64, round to nearest even, as specified by the Standard
    Library's [SpecFloat] at [prec = 53] and [emax = 1024]. *)

Definition float64 : Type := spec_float.

Definition prec : Z := 53.
Definition emax : Z := 1024.

(** The conversion [float64(n)] of an integer. *)
Definition float64_of_int (n : Z) : float64 := binary_normalize prec emax n 0 false.

Definition fadd : float64 -> float64 -> float64 := SFadd prec emax.
Definition fmul : float64 -> float64 -> float64 := SFmul prec emax.
Definition fdiv : float64 -> float64 -> float64 := SFdiv prec emax.

(** The integer part of a finite value, towards zero. *)
Definition truncate (x : float64) : option Z :=
  match x with
  | S754_zero _ => Some 0
  | S754_finite s m e =>
      let a := if 0 <=? e then Z.pos m * 2 ^ e else Z.pos m / 2 ^ (- e) in
      Some (if s then - a else a)
  | S754_infinity _ | S754_nan => None
  end.

(** The conversion [int(x)]: truncation towards zero. Where the value does
    not fit an [int] the language leaves the result to the implementation;
    amd64's conversion instruction yields the smallest [int]. *)
Definition int_of_float64 (x : float64) : Z :=
  match truncate x with
  | Some z => if (MinInt64 <=? z) && (z <=? MaxInt64) then z else MinInt64
  | None => MinInt64
  end.

(** [x * 10] rounded to the nearest integer, ties to even, for a finite
    positive mantissa [m] and exponent [e]. *)
Definition tenths (m : positive) (e : Z) : Z :=
  if 0 <=? e then Z.pos m * 2 ^ e * 10
  else
    let num := Z.pos m * 10 in
    let den := 2 ^ (- e) in
    let q := num / den in
    let r := num mod den in
    match 2 * r ?= den with
    | Lt => q
    | Gt => q + 1
    | Eq => if Z.even q then q else q + 1
    end.

(** [fmt]'s [%.1f]. *)
Definition ftoa1 (x : float64) : string :=
  match x with
  | S754_nan => "NaN"
  | S754_infinity s => if s then "-Inf" else "+Inf"
  | S754_zero s => if s then "-0.0" else "0.0"
  | S754_finite s m e =>
      let t := tenths m e in
      (if s then "-" else "") +:+ itoa (t / 10) +:+ "." +:+ itoa (t mod 10)
  end.

(** *** Interface values

    The dynamic types the typed accessors of the store ask for, the nil
    interface, and [AnyOther] for a value of any other dynamic type. *)

Inductive any : Type :=
| AnyNil
| AnyString (s : string)
| AnyBool (b : bool)
| AnyInt (n : Z)
| AnyOther (type_name : string) (repr : string).

Definition type_name_of (v : any) : string :=
  match v with
  | AnyNil => "nil"
  | AnyString _ => "string"
  | AnyBool _ => "bool"
  | AnyInt _ => "int"
  | AnyOther t _ => t
  end.

#[export] Instance any_eq_dec : EqDecision any.
Proof. solve_decision. Defined.

Definition any_encode (v : any) : unit + string + bool + Z + string * string :=
  match v with
  | AnyNil => inl (inl (inl (inl tt)))
  | AnyString s => inl (inl (inl (inr s)))
  | AnyBool b => inl (inl (inr b))
  | AnyInt n => inl (inr n)
  | AnyOther t r => inr (t, r)
  end.

Definition any_decode (x : unit + string + bool + Z + string * string) : any :=
  match x with
  | inl (inl (inl (inl _))) => AnyNil
  | inl (inl (inl (inr s))) => AnyString s
  | inl (inl (inr b)) => AnyBool b
  | inl (inr n) => AnyInt n
  | inr (t, r) => AnyOther t r
  end.

#[export] Instance any_countable : Countable any.
Proof.
  apply (inj_countable' any_encode any_decode).
  intros []; reflexivity.
Defined.

(** The type assertions [v.(string)], [v.(bool)] and [v.(int)] in their
    one-result form: a mismatch panics. *)

Definition assert_string (v : any) : Result string :=
  match v with
  | AnyString s => Returns s
  | _ => Panics (TypeAssertionError (type_name_of v) "string")
  end.

Definition assert_bool (v : any) : Result bool :=
  match v with
  | AnyBool b => Returns b
  | _ => Panics (TypeAssertionError (type_name_of v) "bool")
  end.

Definition assert_int (v : any) : Result Z :=
  match v with
  | AnyInt n => Returns n
  | _ => Panics (TypeAssertionError (type_name_of v) "int")
  end.

End Go.

Import Go.


(** ** The [time] package: [time.Time] and [time.Duration] *)

Module Clock.

(** A [time.Duration] is an [int] count of nanoseconds. *)
Definition Duration : Type := Z.

Definition Nanosecond : Duration := 1.
Definition Second : Duration := 1000000000.
Definition Minute : Duration := 60 * Second.
Definition Hour : Duration := 60 * Minute.

Definition minDuration : Duration := MinInt64.
Definition maxDuration : Duration := MaxInt64.

(** [Duration.Hours], [Duration.Minutes] and [Duration.Seconds]: the whole
    units and the remainder are converted to [float64] separately and added. *)
Definition Hours (d : Duration) : float64 :=
  fadd (float64_of_int (int_quo d Hour))
       (fdiv (float64_of_int (int_rem d Hour)) (float64_of_int (60 * 60 * 1000000000))).

Definition Minutes (d : Duration) : float64 :=
  fadd (float64_of_int (int_quo d Minute))
       (fdiv (float64_of_int (int_rem d Minute)) (float64_of_int (60 * 1000000000))).

Definition Seconds (d : Duration) : float64 :=
  fadd (float64_of_int (int_quo d Second))
       (fdiv (float64_of_int (int_rem d Second)) (float64_of_int 1000000000)).

(** A [time.Time] is modelled by what it displays: the calendar date and the
    clock reading in its own zone, the zone's offset from UTC in minutes, and
    the monotonic clock reading that [time.Now] attaches (in nanoseconds;
    [None] for a time that was parsed or zero). *)
Record Time : Type := mkTime {
  year : Z;
  month : Z;
  day : Z;
  hour : Z;
  minute : Z;
  second : Z;
  nanosecond : Z;
  offset : Z;
  mono : option Z
}.

(** The zero [Time]: January 1, year 1, 00:00:00 UTC. *)
Definition zeroTime : Time := mkTime 1 1 1 0 0 0 0 0 None.

Definition isLeap (y : Z) : bool :=
  ((y mod 4 =? 0) && negb (y mod 100 =? 0)) || (y mod 400 =? 0).

Definition daysIn (m y : Z) : Z :=
  if m =? 2 then (if isLeap y then 29 else 28)
  else if (m =? 4) || (m =? 6) || (m =? 9) || (m =? 11) then 30
  else 31.

(** The days of the year before the first of month [m]. *)
Definition daysBefore (m y : Z) : Z :=
  nth (Z.to_nat (m - 1)) [0; 31; 59; 90; 120; 151; 181; 212; 243; 273; 304; 334] 0
  + (if isLeap y && (2 <? m) then 1 else 0).

(** The days from January 1 of year 1 to the given date of the proleptic
    Gregorian calendar. *)
Definition daysSinceEpoch (y m d : Z) : Z :=
  365 * (y - 1) + (y - 1) / 4 - (y - 1) / 100 + (y - 1) / 400
  + daysBefore m y + (d - 1).

(** The seconds from the zero time to the instant the [Time] denotes. *)
Definition sec (t : Time) : Z :=
  daysSinceEpoch (year t) (month t) (day t) * 86400
  + hour t * 3600 + minute t * 60 + second t - offset t * 60.

Definition wellFormed (t : Time) : Prop :=
  1 <= month t <= 12 /\ 1 <= day t <= daysIn (month t) (year t) /\
  0 <= hour t < 24 /\ 0 <= minute t < 60 /\ 0 <= second t < 60 /\
  0 <= nanosecond t < 1000000000.

(** [Time.IsZero]. *)
Definition IsZero (t : Time) : bool := (sec t =? 0) && (nanosecond t =? 0).

Definition saturate (d : Z) : Duration :=
  if d <? minDuration then minDuration
  else if maxDuration <? d then maxDuration
  else d.

(** [Time.Sub]: the difference of the monotonic readings when both times
    carry one, of the wall clock readings otherwise; the extreme durations
    when the difference does not fit. *)
Definition Sub (t u : Time) : Duration :=
  match mono t, mono u with
  | Some a, Some b => saturate (a - b)
  | _, _ => saturate ((sec t - sec u) * Second + (nanosecond t - nanosecond u))
  end.

(** [Time.Round(0)]: the same time without its monotonic clock reading. *)
Definition stripMono (t : Time) : Time :=
  mkTime (year t) (month t) (day t) (hour t) (minute t) (second t)
         (nanosecond t) (offset t) None.

End Clock.

Import Clock.

(** ** progress.go: rendering *)

(** *** [formatDuration] *)

Definition formatDuration (d : Duration) : string :=
  let hours := int_of_float64 (Hours d) in
  let minutes := int_rem (int_of_float64 (Minutes d)) 60 in
  let seconds := int_rem (int_of_float64 (Seconds d)) 60 in
  let parts : list string := [] in
  let parts := if 0 <? hours then parts ++ [itoa hours +:+ " hours"] else parts in
  let parts := if 0 <? minutes then parts ++ [itoa minutes +:+ " minutes"] else parts in
  let parts :=
    if (0 <? seconds) || (length parts =? 0)%nat
    then parts ++ [itoa seconds +:+ " seconds"] else parts in
  Join parts " ".

(** *** The log

    [logrus] output is modelled as the list of entries written so far. An
    entry keeps the [color] attributes its text was highlighted with (none
    for a plain text) rather than the escape sequences they expand to. *)

Inductive Level : Type := InfoLevel | WarnLevel.

Record LogEntry : Type := mkLogEntry {
  entry_level : Level;
  entry_attrs : list Z;
  entry_text : string
}.

Definition Log : Type := list LogEntry.

Definition logInfo (attrs : list Z) (text : string) (log : Log) : Log :=
  log ++ [mkLogEntry InfoLevel attrs text].

Definition logWarn (text : string) (log : Log) : Log :=
  log ++ [mkLogEntry WarnLevel [] text].

(** [color.Attribute] values of [github.com/fatih/color]. *)
Definition Bold : Z := 1.
Definition FgHiRed : Z := 91.
Definition FgHiGreen : Z := 92.
Definition FgHiYellow : Z := 93.
Definition FgHiBlue : Z := 94.
Definition FgHiMagenta : Z := 95.
Definition FgHiCyan : Z := 96.
Definition FgHiWhite : Z := 97.

(** *** The progress model *)

Record ProgressInfo : Type := mkProgressInfo {
  TaskID : string;
  Name : string;
  Completed : bool;
  TotalSteps : Z;
  CompletedSteps : Z;
  pi_StartTime : Time;
  pi_EndTime : Time
}.

(** [TaskProgress] is [None] for the nil map, which reads as empty and
    panics when assigned to. *)
Record DeploymentProgress : Type := mkDeploymentProgress {
  StartTime : Time;
  EndTime : Time;
  TotalTasks : Z;
  CompletedTasks : Z;
  CurrentTask : string;
  TaskProgress : option (gmap string ProgressInfo)
}.

(** [NewDeploymentProgress], given the reading [now] of the clock. *)
Definition NewDeploymentProgress (now : Time) : DeploymentProgress :=
  {| StartTime := now;
     EndTime := zeroTime;
     TotalTasks := 0;
     CompletedTasks := 0;
     CurrentTask := EmptyString;
     TaskProgress := Some ∅ |}.

(** *** [DisplayProgress] *)

(** The [percentage] of [DisplayProgress]. *)
Definition percentage (dp : DeploymentProgress) (taskIndex : Z) : float64 :=
  if 0 <? TotalTasks dp
  then fmul (fdiv (float64_of_int taskIndex) (float64_of_int (TotalTasks dp)))
            (float64_of_int 100)
  else S754_zero false.

Definition width : Z := 30.

Definition completedWidthOf (pct : float64) : Z :=
  int_of_float64 (fdiv (fmul (float64_of_int width) pct) (float64_of_int 100)).

(** One cell of the bar: the body of the loop over [i]. *)
Definition barCell (completedWidth i : Z) : string :=
  if i <? completedWidth then "="
  else if (i =? completedWidth) && (completedWidth <? width) then ">"
  else " ".

(** The bar: the builder after the loop [for i := 0; i < width; i++]. *)
Definition progressBar (completedWidth : Z) : string :=
  fold_left (fun bar i => bar +:+ barCell completedWidth (Z.of_nat i))
            (seq 0 (Z.to_nat width)) "["
  +:+ "]".

(** The message [DisplayProgress] builds, before it is highlighted. *)
Definition progressMessage (dp : DeploymentProgress) (taskIndex : Z)
    (taskName progressStyle : string) : string :=
  let percentage := percentage dp taskIndex in
  if String.eqb progressStyle "bar" then
    let completedWidth := completedWidthOf percentage in
    progressBar completedWidth +:+ " " +:+ ftoa1 percentage +:+ "% ("
      +:+ itoa (int_add taskIndex 1) +:+ "/" +:+ itoa (TotalTasks dp)
      +:+ ") Current: " +:+ taskName
  else if String.eqb progressStyle "percentage" then
    "Deployment progress: " +:+ ftoa1 percentage +:+ "% ("
      +:+ itoa (int_add taskIndex 1) +:+ "/" +:+ itoa (TotalTasks dp)
      +:+ ") - Running task: " +:+ taskName
  else
    "Running task " +:+ taskName +:+ " ("
      +:+ itoa (int_add taskIndex 1) +:+ "/" +:+ itoa (TotalTasks dp) +:+ ")".

Definition DisplayProgress (dp : DeploymentProgress) (taskIndex : Z)
    (taskName progressStyle : string) (colorAttr : Z) (log : Log) : Log :=
  let useColor := 0 <=? colorAttr in
  let message := progressMessage dp taskIndex taskName progressStyle in
  logInfo (if useColor then [colorAttr] else []) message log.

(** *** [DisplayDeploymentComplete] *)

Definition DisplayDeploymentComplete (dp : DeploymentProgress) (colorAttr : Z)
    (log : Log) : Log :=
  let useColor := 0 <=? colorAttr in
  let message := "Deployment completed successfully!" in
  let log := logInfo (if useColor then [colorAttr; Bold] else []) message log in
  if negb (IsZero (EndTime dp)) then
    let duration := Sub (EndTime dp) (StartTime dp) in
    logInfo [] ("Total deployment time: " +:+ formatDuration duration) log
  else log.

(** ** The encoding of the progress file *)

(** *** UTF-8, as [unicode/utf8] reads it *)

Module Utf8.

(** The class of a first byte: a one-byte rune, a byte that starts no rune,
    or the lead of a rune of [size] bytes whose second byte must lie in
    [lo..hi] (the table [first] with its accept ranges). *)
Inductive lead : Type :=
| Single
| Invalid
| Lead (size : nat) (lo hi : N).

Definition first (b : N) : lead :=
  (if b <? 128 then Single
   else if b <? 194 then Invalid
   else if b <? 224 then Lead 2 128 191
   else if b =? 224 then Lead 3 160 191
   else if b <? 237 then Lead 3 128 191
   else if b =? 237 then Lead 3 128 159
   else if b <? 240 then Lead 3 128 191
   else if b =? 240 then Lead 4 144 191
   else if b <? 244 then Lead 4 128 191
   else if b =? 244 then Lead 4 128 143
   else Invalid)%N.

Definition accepts (lo hi : N) (c : ascii) : bool :=
  ((lo <=? N_of_ascii c) && (N_of_ascii c <=? hi))%N.

(** A continuation byte, [0x80..0xBF]. *)
Definition continues (c : ascii) : bool := accepts 128 191 c.

(** The encoding of U+FFFD, the replacement character. *)
Definition replacement : string :=
  String (ascii_of_N 239) (String (ascii_of_N 191) (String (ascii_of_N 189) EmptyString)).

(** [utf8.ValidString]. *)
Fixpoint ValidString (s : string) : bool :=
  match s with
  | EmptyString => true
  | String b0 r =>
      match first (N_of_ascii b0) with
      | Single => ValidString r
      | Invalid => false
      | Lead size lo hi =>
          match r with
          | String b1 r1 =>
              if negb (accepts lo hi b1) then false
              else if (size <=? 2)%nat then ValidString r1
              else
                match r1 with
                | String b2 r2 =>
                    if negb (continues b2) then false
                    else if (size <=? 3)%nat then ValidString r2
                    else
                      match r2 with
                      | String b3 r3 =>
                          if negb (continues b3) then false else ValidString r3
                      | EmptyString => false
                      end
                | EmptyString => false
                end
          | EmptyString => false
          end
      end
  end.

(** What a reader of the JSON text gets back for a string the encoder wrote:
    the encoder walks the string rune by rune with [utf8.DecodeRuneInString]
    and writes the replacement character for every byte that starts no valid
    rune; every other byte comes back as it was (escaped or not). *)
Fixpoint coerce (s : string) : string :=
  match s with
  | EmptyString => EmptyString
  | String b0 r =>
      let bad := replacement +:+ coerce r in
      match first (N_of_ascii b0) with
      | Single => String b0 (coerce r)
      | Invalid => bad
      | Lead size lo hi =>
          match r with
          | String b1 r1 =>
              if negb (accepts lo hi b1) then bad
              else if (size <=? 2)%nat then String b0 (String b1 (coerce r1))
              else
                match r1 with
                | String b2 r2 =>
                    if negb (continues b2) then bad
                    else if (size <=? 3)%nat
                    then String b0 (String b1 (String b2 (coerce r2)))
                    else
                      match r2 with
                      | String b3 r3 =>
                          if negb (continues b3) then bad
                          else String b0 (String b1 (String b2 (String b3 (coerce r3))))
                      | EmptyString => bad
                      end
                | EmptyString => bad
                end
          | EmptyString => bad
          end
      end
  end.

End Utf8.

(** *** RFC 3339 timestamps, as [time.Time] marshals and unmarshals them *)

Module Rfc3339.

Definition digitChar (d : Z) : ascii := ascii_of_N (48 + Z.to_N d).

Definition digitVal (c : ascii) : option Z :=
  let n := N_of_ascii c in
  if ((48 <=? n) && (n <=? 57))%N then Some (Z.of_N n - 48) else None.

(** The [w] low decimal digits of [n], most significant first. *)
Fixpoint fixedDigits (w : nat) (n : Z) : list ascii :=
  match w with
  | O => []
  | S k => fixedDigits k (n / 10) ++ [digitChar (n mod 10)]
  end.

(** [appendInt]: the decimal digits of [x], padded with zeros to [w] digits,
    after a minus sign when [x] is negative. *)
Definition appendInt (x : Z) (w : nat) : list ascii :=
  let u := Z.abs x in
  (if x <? 0 then ["-"%char] else [])
  ++ (if u <? 10 ^ Z.of_nat w then fixedDigits w u
      else list_ascii_of_string (itoa u)).

Fixpoint trimZeros (rev_digits : list ascii) : list ascii :=
  match rev_digits with
  | c :: r => if Ascii.eqb c "0" then trimZeros r else rev_digits
  | [] => []
  end.

(** [appendNano] with the layout [.999999999]: nothing for zero, else the
    nine digits without their trailing zeros. *)
Definition appendNano (nanosec : Z) : list ascii :=
  if nanosec =? 0 then []
  else
    match rev (trimZeros (rev ("."%char :: appendInt nanosec 9))) with
    | ["."%char] => []
    | l => l
    end.

Definition appendZone (offset : Z) : list ascii :=
  if offset =? 0 then ["Z"%char]
  else
    let zone := Z.abs offset in
    (if offset <? 0 then "-"%char else "+"%char)
    :: appendInt (Z.quot zone 60) 2 ++ [":"%char] ++ appendInt (Z.rem zone 60) 2.

(** [Time.MarshalJSON]: the text between the quotes, or [None] for the two
    errors it reports (a year outside [0,9999], a zone hour outside [0,23]). *)
Definition format (t : Time) : option string :=
  if (year t <? 0) || (9999 <? year t) then None
  else if 24 <=? Z.quot (Z.abs (offset t)) 60 then None
  else
    Some (string_of_list_ascii
      (appendInt (year t) 4 ++ ["-"%char] ++ appendInt (month t) 2 ++ ["-"%char]
       ++ appendInt (day t) 2 ++ ["T"%char] ++ appendInt (hour t) 2 ++ [":"%char]
       ++ appendInt (minute t) 2 ++ [":"%char] ++ appendInt (second t) 2
       ++ appendNano (nanosecond t) ++ appendZone (offset t))).

(** The number a run of digits writes; [None] when a byte is no digit. *)
Definition digitsValue (s : list ascii) : option Z :=
  fold_left
    (fun acc c =>
       match acc, digitVal c with
       | Some x, Some d => Some (x * 10 + d)
       | _, _ => None
       end) s (Some 0).

(** [parseUint]: the digits as a number, checked against a range. *)
Definition parseUint (s : list ascii) (min max : Z) : option Z :=
  match digitsValue s with
  | Some x => if (x <? min) || (max <? x) then None else Some x
  | None => None
  end.

Definition isDigit (c : ascii) : bool :=
  match digitVal c with Some _ => true | None => false end.

Fixpoint spanDigits (s : list ascii) : list ascii * list ascii :=
  match s with
  | c :: r =>
      if isDigit c then let '(ds, rest) := spanDigits r in (c :: ds, rest)
      else ([], s)
  | [] => ([], [])
  end.

(** [parseNanoseconds] on the digits after the separator: at most nine are
    read, and scaled to nanoseconds. *)
Definition parseNanoseconds (digits : list ascii) : Z :=
  let ds := firstn 9 digits in
  match parseUint ds 0 999999999 with
  | Some ns => ns * 10 ^ Z.of_nat (9 - length ds)
  | None => 0
  end.

Definition parseZone (s : list ascii) : option Z :=
  match s with
  | ["Z"%char] => Some 0
  | [sign; h1; h2; colon; m1; m2] =>
      match parseUint [h1; h2] 0 23, parseUint [m1; m2] 0 59 with
      | Some hr, Some mm =>
          if (Ascii.eqb sign "-" || Ascii.eqb sign "+") && Ascii.eqb colon ":"
          then Some (if Ascii.eqb sign "-" then - (hr * 60 + mm) else hr * 60 + mm)
          else None
      | _, _ => None
      end
  | _ => None
  end.

(** [Time.UnmarshalJSON] on the text between the quotes, by the parser for
    the RFC 3339 layout ([parseRFC3339]); a text only the lenient general
    parser would accept counts as malformed. *)
Definition parse (text : string) : option Time :=
  match list_ascii_of_string text with
  | y1 :: y2 :: y3 :: y4 :: sep1 :: mo1 :: mo2 :: sep2 :: d1 :: d2 :: sepT
      :: h1 :: h2 :: sep3 :: mi1 :: mi2 :: sep4 :: s1 :: s2 :: rest =>
      match parseUint [y1; y2; y3; y4] 0 9999, parseUint [mo1; mo2] 1 12 with
      | Some year, Some month =>
          match parseUint [d1; d2] 1 (daysIn month year),
                parseUint [h1; h2] 0 23, parseUint [mi1; mi2] 0 59,
                parseUint [s1; s2] 0 59 with
          | Some day, Some hour, Some min, Some sec =>
              if Ascii.eqb sep1 "-" && Ascii.eqb sep2 "-" && Ascii.eqb sepT "T"
                 && Ascii.eqb sep3 ":" && Ascii.eqb sep4 ":"
              then
                let '(nsec, rest) :=
                  match rest with
                  | dot :: c :: r =>
                      if Ascii.eqb dot "." && isDigit c
                      then let '(ds, rest') := spanDigits (c :: r) in
                           (parseNanoseconds ds, rest')
                      else (0, rest)
                  | _ => (0, rest)
                  end in
                match parseZone rest with
                | Some zoneOffset =>
                    Some (mkTime year month day hour min sec nsec zoneOffset None)
                | None => None
                end
              else None
          | _, _, _, _ => None
          end
      | _, _ => None
      end
  | _ => None
  end.

End Rfc3339.

(** *** JSON documents, as [encoding/json] writes and reads them

    A JSON text is modelled by the document it denotes: what is abstracted is
    its layout (the indentation of [MarshalIndent], the escape sequences
    inside strings). A [JString] holds the bytes a reader gets back. *)

Module Json.

#[local] Unset Elimination Schemes.
Inductive JSON : Type :=
| JNull
| JBool (b : bool)
| JInt (n : Z)                         (* a number written as an integer *)
| JNumber (text : string)              (* any other number *)
| JString (s : string)
| JArray (items : list JSON)
| JObject (members : list (string * JSON)).
#[local] Set Elimination Schemes.

Definition keyLe {A : Type} (x y : string * A) : Prop :=
  Is_true (String.leb (fst x) (fst y)).

#[export] Instance keyLe_dec {A : Type} (x y : string * A) : Decision (keyLe x y).
Proof. unfold keyLe. apply _. Defined.

(** **** Marshalling *)

Definition marshalTime (t : Time) : option JSON :=
  match Rfc3339.format t with
  | Some text => Some (JString text)
  | None => None
  end.

Definition marshalProgressInfo (info : ProgressInfo) : option JSON :=
  match marshalTime (pi_StartTime info), marshalTime (pi_EndTime info) with
  | Some st, Some et =>
      Some (JObject
        [("taskId", JString (Utf8.coerce (TaskID info)));
         ("name", JString (Utf8.coerce (Name info)));
         ("completed", JBool (Completed info));
         ("totalSteps", JInt (TotalSteps info));
         ("completedSteps", JInt (CompletedSteps info));
         ("startTime", st);
         ("endTime", et)])
  | _, _ => None
  end.

(** The members of a marshalled map, in the order of the entries given. *)
Fixpoint marshalEntries (entries : list (string * ProgressInfo))
    : option (list (string * JSON)) :=
  match entries with
  | [] => Some []
  | (k, info) :: rest =>
      match marshalProgressInfo info, marshalEntries rest with
      | Some j, Some js => Some ((Utf8.coerce k, j) :: js)
      | _, _ => None
      end
  end.

(** A map is written with its keys sorted; the nil map is written [null]. *)
Definition marshalTaskProgress (m : option (gmap string ProgressInfo)) : option JSON :=
  match m with
  | None => Some JNull
  | Some m =>
      match marshalEntries (merge_sort keyLe (map_to_list m)) with
      | Some members => Some (JObject members)
      | None => None
      end
  end.

(** [json.Marshal] of a [*DeploymentProgress]; [None] when a timestamp cannot
    be marshalled. The [omitempty] option of the two [endTime] fields never
    applies: a struct value is never empty. *)
Definition Marshal (dp : DeploymentProgress) : option JSON :=
  match marshalTime (StartTime dp), marshalTime (EndTime dp),
        marshalTaskProgress (TaskProgress dp) with
  | Some st, Some et, Some tp =>
      Some (JObject
        [("startTime", st);
         ("endTime", et);
         ("totalTasks", JInt (TotalTasks dp));
         ("completedTasks", JInt (CompletedTasks dp));
         ("currentTask", JString (Utf8.coerce (CurrentTask dp)));
         ("taskProgress", tp)])
  | _, _, _ => None
  end.

(** **** Unmarshalling

    A [null] leaves a field as it is (and makes a map nil); a value of the
    wrong kind is an error; an unknown member is skipped; a later member
    overrides an earlier one; member names match field names exactly or up
    to the case of their ASCII letters. *)

Definition unmarshalTime (old : Time) (j : JSON) : option Time :=
  match j with
  | JNull => Some old
  | JString text => Rfc3339.parse text
  | _ => None
  end.

Definition unmarshalString (old : string) (j : JSON) : option string :=
  match j with
  | JNull => Some old
  | JString s => Some s
  | _ => None
  end.

Definition unmarshalBool (old : bool) (j : JSON) : option bool :=
  match j with
  | JNull => Some old
  | JBool b => Some b
  | _ => None
  end.

Definition unmarshalInt (old : Z) (j : JSON) : option Z :=
  match j with
  | JNull => Some old
  | JInt n => if (MinInt64 <=? n) && (n <=? MaxInt64) then Some n else None
  | _ => None
  end.

Definition zeroProgressInfo : ProgressInfo :=
  mkProgressInfo EmptyString EmptyString false 0 0 zeroTime zeroTime.

Definition zeroDeploymentProgress : DeploymentProgress :=
  mkDeploymentProgress zeroTime zeroTime 0 0 EmptyString None.

Definition setInfoMember (info : ProgressInfo) (member : string * JSON)
    : option ProgressInfo :=
  let '(k, v) := member in
  let '(mkProgressInfo id name completed total steps st et) := info in
  let f := ToLower k in
  if String.eqb f "taskid" then
    option_map (fun x => mkProgressInfo x name completed total steps st et)
               (unmarshalString id v)
  else if String.eqb f "name" then
    option_map (fun x => mkProgressInfo id x completed total steps st et)
               (unmarshalString name v)
  else if String.eqb f "completed" then
    option_map (fun x => mkProgressInfo id name x total steps st et)
               (unmarshalBool completed v)
  else if String.eqb f "totalsteps" then
    option_map (fun x => mkProgressInfo id name completed x steps st et)
               (unmarshalInt total v)
  else if String.eqb f "completedsteps" then
    option_map (fun x => mkProgressInfo id name completed total x st et)
               (unmarshalInt steps v)
  else if String.eqb f "starttime" then
    option_map (fun x => mkProgressInfo id name completed total steps x et)
               (unmarshalTime st v)
  else if String.eqb f "endtime" then
    option_map (fun x => mkProgressInfo id name completed total steps st x)
               (unmarshalTime et v)
  else Some info.

(** Members are taken in order; the first error ends the decoding. *)
Definition foldMembers {S M : Type} (step : S -> M -> option S)
    (members : list M) (init : S) : option S :=
  fold_left (fun acc m => match acc with Some s => step s m | None => None end)
            members (Some init).

Definition unmarshalProgressInfo (old : ProgressInfo) (j : JSON) : option ProgressInfo :=
  match j with
  | JNull => Some old
  | JObject members => foldMembers setInfoMember members old
  | _ => None
  end.

(** Each element of a map is decoded into a fresh zero value and stored
    under its key. *)
Definition setEntry (m : gmap string ProgressInfo) (member : string * JSON)
    : option (gmap string ProgressInfo) :=
  let '(k, v) := member in
  option_map (fun info => <[k := info]> m) (unmarshalProgressInfo zeroProgressInfo v).

Definition unmarshalTaskProgress (old : option (gmap string ProgressInfo)) (j : JSON)
    : option (option (gmap string ProgressInfo)) :=
  match j with
  | JNull => Some None
  | JObject members =>
      option_map Some (foldMembers setEntry members (default ∅ old))
  | _ => None
  end.

Definition setMember (dp : DeploymentProgress) (member : string * JSON)
    : option DeploymentProgress :=
  let '(k, v) := member in
  let '(mkDeploymentProgress st et total completed current tp) := dp in
  let f := ToLower k in
  if String.eqb f "starttime" then
    option_map (fun x => mkDeploymentProgress x et total completed current tp)
               (unmarshalTime st v)
  else if String.eqb f "endtime" then
    option_map (fun x => mkDeploymentProgress st x total completed current tp)
               (unmarshalTime et v)
  else if String.eqb f "totaltasks" then
    option_map (fun x => mkDeploymentProgress st et x completed current tp)
               (unmarshalInt total v)
  else if String.eqb f "completedtasks" then
    option_map (fun x => mkDeploymentProgress st et total x current tp)
               (unmarshalInt completed v)
  else if String.eqb f "currenttask" then
    option_map (fun x => mkDeploymentProgress st et total completed x tp)
               (unmarshalString current v)
  else if String.eqb f "taskprogress" then
    option_map (fun x => mkDeploymentProgress st et total completed current x)
               (unmarshalTaskProgress tp v)
  else Some dp.

(** [json.Unmarshal] into a zero [DeploymentProgress]. *)
Definition Unmarshal (j : JSON) : option DeploymentProgress :=
  match j with
  | JNull => Some zeroDeploymentProgress
  | JObject members => foldMembers setMember members zeroDeploymentProgress
  | _ => None
  end.

End Json.

(** ** Errors

    Modelled from the spec: the repository's package [errors] ([pkg/errors])
    is not among the sources. The specification asks of it that an annotated
    error identifies what failed and wraps the underlying cause; [Trace]
    records the place an error passed through and keeps its cause. Errors of
    the standard library ([os], [encoding/json]) are [errNew] values. *)

Inductive error : Type :=
| errNew (msg : string)
| errTrace (cause : error)
| errAnnotate (cause : error) (msg : string).

(** The text of an error: an annotation comes before the text of its cause. *)
Fixpoint errorText (e : error) : string :=
  match e with
  | errNew msg => msg
  | errTrace cause => errorText cause
  | errAnnotate cause msg => msg +:+ ": " +:+ errorText cause
  end.

(** The error at the bottom of the chain of wrappers. *)
Fixpoint Cause (e : error) : error :=
  match e with
  | errNew msg => errNew msg
  | errTrace cause => Cause cause
  | errAnnotate cause _ => Cause cause
  end.

(** ** The file system

    Paths are opaque names. A path either names nothing, a directory, or a
    file; a file holds a JSON document or bytes that are no JSON text. The
    paths in [denied] are the ones every operation fails on (no permission,
    a read-only medium). *)

Module Fs.

Inductive Contents : Type :=
| Document (j : Json.JSON)
| Malformed (bytes : string).

Inductive Node : Type :=
| File (c : Contents)
| Directory.

Record FileSystem : Type := mkFileSystem {
  nodes : gmap string Node;
  denied : gset string
}.

(** [os.IsNotExist] of the error of [os.Stat]. *)
Definition notExist (fs : FileSystem) (path : string) : bool :=
  if decide (path ∈ denied fs) then false
  else match nodes fs !! path with
       | Some _ => false
       | None => true
       end.

(** [os.ReadFile]. *)
Definition ReadFile (fs : FileSystem) (path : string) : error + Contents :=
  if decide (path ∈ denied fs) then inl (errNew ("open " +:+ path +:+ ": permission denied"))
  else match nodes fs !! path with
       | None => inl (errNew ("open " +:+ path +:+ ": no such file or directory"))
       | Some Directory => inl (errNew ("read " +:+ path +:+ ": is a directory"))
       | Some (File c) => inr c
       end.

(** [os.MkdirAll]. *)
Definition MkdirAll (fs : FileSystem) (dir : string) : FileSystem * option error :=
  if decide (dir ∈ denied fs)
  then (fs, Some (errNew ("mkdir " +:+ dir +:+ ": permission denied")))
  else match nodes fs !! dir with
       | Some (File _) => (fs, Some (errNew ("mkdir " +:+ dir +:+ ": not a directory")))
       | _ => (mkFileSystem (<[dir := Directory]> (nodes fs)) (denied fs), None)
       end.

(** [os.WriteFile]. *)
Definition WriteFile (fs : FileSystem) (path : string) (data : Contents)
    : FileSystem * option error :=
  if decide (path ∈ denied fs)
  then (fs, Some (errNew ("open " +:+ path +:+ ": permission denied")))
  else match nodes fs !! path with
       | Some Directory => (fs, Some (errNew ("open " +:+ path +:+ ": is a directory")))
       | _ => (mkFileSystem (<[path := File data]> (nodes fs)) (denied fs), None)
       end.

End Fs.

Import Fs.

(** ** The world outside the runner

    The file system, the clock (the readings [time.Now] will return, and how
    many were taken) and the log. *)

Record World : Type := mkWorld {
  fs : FileSystem;
  clock : nat -> Time;
  ticks : nat;
  log : Log
}.

(** [time.Now]. *)
Definition Now (w : World) : Time * World :=
  (clock w (ticks w), mkWorld (fs w) (clock w) (S (ticks w)) (log w)).

Definition withFs (w : World) (fs' : FileSystem) : World :=
  mkWorld fs' (clock w) (ticks w) (log w).

Definition withLog (w : World) (log' : Log) : World :=
  mkWorld (fs w) (clock w) (ticks w) log'.

(** ** Configuration

    Modelled from the spec: the repository's package [config] is not among
    the sources; these are the configuration inputs the runner consumes
    ([cfg.WorkDir], [cfg.Deployment.ProgressFilePath],
    [cfg.Deployment.ResumeEnabled], [cfg.UI.TaskInfoColor],
    [cfg.UI.ShowProgress], [cfg.UI.ProgressStyle]). *)

Record Config : Type := mkConfig {
  WorkDir : string;
  ProgressFilePath : string;
  ResumeEnabled : bool;
  TaskInfoColor : string;
  ShowProgress : bool;
  ProgressStyle : string
}.

(** ** Tasks

    Modelled from the spec: the interface [Interface] of the package is not
    among the sources. A task has a name, which does not change, and a run
    operation, which receives the cancellation handle and may fail; its
    effects reach the shared store and the world outside, not the progress
    model, which only the runner mutates. *)

Record Context : Type := mkContext { cancelled : bool }.

Record Task : Type := mkTask {
  task_Name : string;
  task_Run : Context -> gmap any any -> World -> gmap any any * World * option error
}.

(** ** The runner's view of a run

    [Event]s instrument the model: the trace lists, in order, the statements
    of [Run] that touch the progress model or a task. The source has no such
    list; it is what the properties about "never" and "at every persistence
    point" speak about. *)

Inductive Event : Type :=
| EvSkip (index : nat) (name : string)
    (* the task was found completed and skipped *)
| EvCurrentTask (name : string)
    (* [Progress.CurrentTask = name] *)
| EvRecord (taskID : string) (info : ProgressInfo)
    (* [Progress.TaskProgress[taskID] = info] *)
| EvIncrement
    (* [Progress.CompletedTasks++] *)
| EvSave (dp : DeploymentProgress)
    (* [SaveProgressToFile] was called on this value *)
| EvRun (index : nat) (name : string).
    (* the task's run operation was invoked *)

Record Runtime : Type := mkRuntime {
  sync_Map : gmap any any;
  Cfg : Config;
  rt_WorkDir : string;
  Progress : option DeploymentProgress      (* a pointer: [None] is nil *)
}.

Record Runner : Type := mkRunner {
  runtime : option Runtime;                 (* a pointer: [None] is nil *)
  tasks : list Task;
  cfg : Config;
  init : bool;
  progressFile : string
}.

(** The state [Run] threads through its loop: the progress model and the
    store behind [r.Runtime], the world, and the trace. *)
Record RunState : Type := mkRunState {
  rs_progress : DeploymentProgress;
  rs_store : gmap any any;
  rs_world : World;
  rs_trace : list Event
}.

Inductive LoopOutcome : Type :=
| Continue (s : RunState)
| Return (s : RunState) (err : error)
| Panic (s : RunState) (p : panic).

(** What [Run] leaves behind and what it returns. *)
Record RunOutcome : Type := mkRunOutcome {
  out_runner : Runner;
  out_world : World;
  out_trace : list Event;
  out_result : Result (option error)
}.

Definition setCurrentTask (dp : DeploymentProgress) (name : string) : DeploymentProgress :=
  mkDeploymentProgress (StartTime dp) (EndTime dp) (TotalTasks dp) (CompletedTasks dp)
                       name (TaskProgress dp).

Definition setTaskProgress (dp : DeploymentProgress) (m : gmap string ProgressInfo)
    : DeploymentProgress :=
  mkDeploymentProgress (StartTime dp) (EndTime dp) (TotalTasks dp) (CompletedTasks dp)
                       (CurrentTask dp) (Some m).

Definition setCompletedTasks (dp : DeploymentProgress) (n : Z) : DeploymentProgress :=
  mkDeploymentProgress (StartTime dp) (EndTime dp) (TotalTasks dp) n
                       (CurrentTask dp) (TaskProgress dp).

Definition setTotalTasks (dp : DeploymentProgress) (n : Z) : DeploymentProgress :=
  mkDeploymentProgress (StartTime dp) (EndTime dp) n (CompletedTasks dp)
                       (CurrentTask dp) (TaskProgress dp).

Definition setEndTime (dp : DeploymentProgress) (t : Time) : DeploymentProgress :=
  mkDeploymentProgress (StartTime dp) t (TotalTasks dp) (CompletedTasks dp)
                       (CurrentTask dp) (TaskProgress dp).

(** [m[key]] on a map that may be nil: the element and whether it exists. *)
Definition mapLookup (m : option (gmap string ProgressInfo)) (key : string)
    : option ProgressInfo :=
  match m with
  | Some m => m !! key
  | None => None
  end.

(** [getColorAttribute]. *)
Definition getColorAttribute (colorName : string) : Z :=
  if String.eqb (ToLower colorName) "none" then -1
  else
    let colorMap : gmap string Z :=
      <["green" := FgHiGreen]> (<["cyan" := FgHiCyan]> (<["yellow" := FgHiYellow]>
      (<["blue" := FgHiBlue]> (<["magenta" := FgHiMagenta]> (<["red" := FgHiRed]>
      (<["white" := FgHiWhite]> ∅)))))) in
    match colorMap !! ToLower colorName with
    | Some attr => attr
    | None => -1
    end.

(** [Runtime.LoadString], [Runtime.LoadBool], [Runtime.LoadInt]. *)
Definition LoadString (r : Runtime) (key : any) : Result (string * bool) :=
  match sync_Map r !! key with
  | None => Returns (EmptyString, false)
  | Some valI =>
      match assert_string valI with
      | Returns v => Returns (v, true)
      | Panics p => Panics p
      end
  end.

Definition LoadBool (r : Runtime) (key : any) : Result (bool * bool) :=
  match sync_Map r !! key with
  | None => Returns (false, false)
  | Some valI =>
      match assert_bool valI with
      | Returns v => Returns (v, true)
      | Panics p => Panics p
      end
  end.

Definition LoadInt (r : Runtime) (key : any) : Result (Z * bool) :=
  match sync_Map r !! key with
  | None => Returns (0, false)
  | Some valI =>
      match assert_int valI with
      | Returns v => Returns (v, true)
      | Panics p => Panics p
      end
  end.

(** ** main.go: the placement of the global flags *)

Module Cli.

(** What a function that may call [os.Exit] leaves: it returned, or the
    process exited with a status after it printed lines on standard output. *)
Inductive Outcome : Type :=
| Returned
| Exited (code : Z) (stdout : list string).

(** A [map[string]bool] written as a literal whose values are all [true]. *)
Definition flagMapOf (names : list string) : gmap string bool :=
  list_to_map ((fun name => (name, true)) <$> names).

(** [m[key]] on a [map[string]bool]: [false] for a key that is absent. *)
Definition index (m : gmap string bool) (key : string) : bool :=
  default false (m !! key).

Definition globalFlags : gmap string bool :=
  flagMapOf ["--debug"; "--help"; "-h"; "--version"; "-v"].

Definition subcommands : gmap string bool :=
  flagMapOf ["artifact"; "a"; "cluster"; "c"; "config"; "cfg"; "os"; "tmpl"].

(** [strings.SplitN(s, "=", 2)]: [s] cut at its first [=], or [s] alone. *)
Fixpoint SplitN2 (s : string) : list string :=
  match s with
  | EmptyString => [EmptyString]
  | String c rest =>
      if Ascii.eqb c "=" then [EmptyString; rest]
      else match SplitN2 rest with
           | first :: others => String c first :: others
           | [] => [String c EmptyString]
           end
  end.

(** [isGlobalFlag]. *)
Definition isGlobalFlag (arg : string) (flagMap : gmap string bool) : bool :=
  if index flagMap arg then true
  else if String.prefix "--" arg then
    let parts := SplitN2 arg in
    index flagMap (nth 0 parts EmptyString)
  else false.

(** [isSubSubcommand]. *)
Definition isSubSubcommand (cmd : string) : bool :=
  let subSubcmds :=
    flagMapOf ["create"; "delete"; "destroy"; "prepare"; "export"; "download";
               "d"; "e"; "init"] in
  index subSubcmds cmd.

(** The first loop of [checkGlobalFlagsPlacement], from index [i] over
    [args[i:]]: the index of the first subcommand, or [-1]. *)
Fixpoint findCommand (i : Z) (rest : list string) : Z :=
  match rest with
  | [] => -1
  | arg :: rest => if index subcommands arg then i else findCommand (i + 1) rest
  end.

(** The body of the second loop at index [i]. *)
Definition place (commandIndex i : Z) (arg : string)
    (acc : list string * list string) : list string * list string :=
  let '(invalidFlags, validArgs) := acc in
  if (i =? commandIndex + 1) && isSubSubcommand arg then
    (invalidFlags, validArgs ++ [arg])
  else if (commandIndex <? i) && isGlobalFlag arg globalFlags then
    (invalidFlags ++ [arg], validArgs)
  else
    (invalidFlags, validArgs ++ [arg]).

(** The second loop, from index [i] over [args[i:]]. *)
Fixpoint placeAll (commandIndex i : Z) (rest : list string)
    (acc : list string * list string) : list string * list string :=
  match rest with
  | [] => acc
  | arg :: rest => placeAll commandIndex (i + 1) rest (place commandIndex i arg acc)
  end.

(** The command [checkGlobalFlagsPlacement] suggests from the misplaced
    flags and the other arguments. *)
Definition suggestionOf (args invalidFlags validArgs : list string) : list string :=
  [nth 0 args EmptyString] ++ invalidFlags ++ skipn 1 validArgs.

(** [checkGlobalFlagsPlacement]. *)
Definition checkGlobalFlagsPlacement (args : list string) : Outcome :=
  if (length args <=? 2)%nat then Returned
  else
    let commandIndex := findCommand 1 (skipn 1 args) in
    if commandIndex =? -1 then Returned
    else
      let '(invalidFlags, validArgs) :=
        placeAll commandIndex 1 (skipn 1 args) ([], [nth 0 args EmptyString]) in
      if (0 <? length invalidFlags)%nat then
        Exited 1
          ["Error: Global flags must be placed before subcommands";
           "Correct usage: m3fs [global options] command [command options] [arguments...]";
           "Suggested command: "
             +:+ Join (suggestionOf args invalidFlags validArgs) " "]
      else Returned.


End Cli.

Section Runner.

(** [filepath.Dir] and [filepath.Join]: the embedding holds for any two
    functions on paths. *)
Variable filepath_Dir : string -> string.
Variable filepath_Join : string -> string -> string.

Set Default Proof Using "Type".

(** *** progress.go: persistence *)

(** [SaveProgressToFile]. *)
Definition SaveProgressToFile (dp : DeploymentProgress) (filePath : string)
    (fs : FileSystem) : FileSystem * option error :=
  let dir := filepath_Dir filePath in
  match MkdirAll fs dir with
  | (fs, Some err) => (fs, Some (errTrace err))
  | (fs, None) =>
      match Json.Marshal dp with
      | None =>
          (fs, Some (errTrace (errNew "json: error calling MarshalJSON for type time.Time")))
      | Some data => WriteFile fs filePath (Document data)
      end
  end.

(** [LoadProgressFromFile]. *)
Definition LoadProgressFromFile (filePath : string) (w : World)
    : World * (error + DeploymentProgress) :=
  if notExist (fs w) filePath then
    let '(now, w) := Now w in (w, inr (NewDeploymentProgress now))
  else
    match ReadFile (fs w) filePath with
    | inl err => (w, inl (errTrace err))
    | inr (Malformed _) =>
        (w, inl (errTrace (errNew "invalid character looking for beginning of value")))
    | inr (Document j) =>
        match Json.Unmarshal j with
        | None => (w, inl (errTrace (errNew "json: cannot unmarshal value")))
        | Some progress => (w, inr progress)
        end
    end.

(** *** The runner *)

(** [Runner.Store]. *)
Definition Store (r : Runner) (key value : any) : Runner * option error :=
  match runtime r with
  | None => (r, Some (errNew "Runtime hasn't been initialized"))
  | Some rt =>
      (mkRunner (Some (mkRuntime (<[key := value]> (sync_Map rt)) (Cfg rt)
                                 (rt_WorkDir rt) (Progress rt)))
                (tasks r) (cfg r) (init r) (progressFile r), None)
  end.

(** [Runner.Register]. *)
Definition Register (r : Runner) (task : list Task) : Runner * option error :=
  if init r then (r, Some (errNew "runner has been initialized"))
  else (mkRunner (runtime r) (tasks r ++ task) (cfg r) (init r) (progressFile r), None).

(** [Runner.initProgressTracking]: the progress file it settles on and the
    progress model it attaches to the runtime. *)
Definition initProgressTracking (r : Runner) (w : World)
    : string * DeploymentProgress * World :=
  let progressFile :=
    if negb (String.eqb (ProgressFilePath (cfg r)) EmptyString)
    then ProgressFilePath (cfg r)
    else filepath_Join (WorkDir (cfg r)) "deployment_progress.json" in
  let '(progress, w) :=
    if ResumeEnabled (cfg r) then
      match LoadProgressFromFile progressFile w with
      | (w, inl err) =>
          let w := withLog w (logWarn ("Failed to load progress file: " +:+ errorText err
                                       +:+ ", starting fresh deployment") (log w)) in
          let '(now, w) := Now w in
          (NewDeploymentProgress now, w)
      | (w, inr progress) =>
          (progress,
           withLog w (logInfo [] ("Resuming deployment with "
                                  +:+ itoa (CompletedTasks progress) +:+ "/"
                                  +:+ itoa (TotalTasks progress) +:+ " completed tasks")
                              (log w)))
      end
    else
      let '(now, w) := Now w in
      (NewDeploymentProgress now, w) in
  (progressFile, setTotalTasks progress (Z.of_nat (length (tasks r))), w).

(** [Runner.Init], without the hooks of the tasks (they receive the runtime
    and a logger, and return nothing). *)
Definition Init (r : Runner) (w : World) : Runner * World :=
  let '(progressFile, progress, w) := initProgressTracking r w in
  (mkRunner (Some (mkRuntime ∅ (cfg r) (WorkDir (cfg r)) (Some progress)))
            (tasks r) (cfg r) true progressFile, w).

(** [Runner.saveProgress], on the state of a run. *)
Definition saveProgress (c : Config) (file : string) (s : RunState)
    : RunState * option error :=
  if negb (ResumeEnabled c) then (s, None)
  else
    let '(fs', err) := SaveProgressToFile (rs_progress s) file (fs (rs_world s)) in
    (mkRunState (rs_progress s) (rs_store s) (withFs (rs_world s) fs')
                (rs_trace s ++ [EvSave (rs_progress s)]), err).

(** [saveProgress] followed by the warning [Run] logs when it fails. *)
Definition saveOrWarn (c : Config) (file : string) (what : string) (s : RunState)
    : RunState :=
  match saveProgress c file s with
  | (s, Some err) =>
      mkRunState (rs_progress s) (rs_store s)
                 (withLog (rs_world s)
                    (logWarn ("Failed to save " +:+ what +:+ ": " +:+ errorText err)
                             (log (rs_world s))))
                 (rs_trace s)
  | (s, None) => s
  end.

Definition emit (s : RunState) (e : Event) : RunState :=
  mkRunState (rs_progress s) (rs_store s) (rs_world s) (rs_trace s ++ [e]).

Definition withProgress (s : RunState) (dp : DeploymentProgress) : RunState :=
  mkRunState dp (rs_store s) (rs_world s) (rs_trace s).

Definition withWorld (s : RunState) (w : World) : RunState :=
  mkRunState (rs_progress s) (rs_store s) w (rs_trace s).

(** Whether the loop skips the task: resume is enabled and the record under
    the task's ID exists and is completed. *)
Definition skips (c : Config) (task : Task) (dp : DeploymentProgress) : bool :=
  let taskID := task_Name task in
  if ResumeEnabled c then
    match mapLookup (TaskProgress dp) taskID with
    | Some info => Completed info
    | None => false
    end
  else false.

(** The body of the loop from [CurrentTask = task.Name()] to the first
    [saveProgress]: the task is announced, its record created and saved. *)
Definition beginTask (c : Config) (file : string)
    (useColor : bool) (highlightColor : Z) (i : nat) (task : Task) (s : RunState)
    : LoopOutcome :=
  let taskID := task_Name task in
  let s := emit (withProgress s (setCurrentTask (rs_progress s) (task_Name task)))
                (EvCurrentTask (task_Name task)) in
  let log' :=
    if ShowProgress c then
      DisplayProgress (rs_progress s) (Z.of_nat i) (task_Name task)
                      (ProgressStyle c) highlightColor (log (rs_world s))
    else
      logInfo (if useColor then [highlightColor; Bold] else [])
              ("Running task " +:+ task_Name task) (log (rs_world s)) in
  let s := withWorld s (withLog (rs_world s) log') in
  let '(now, w) := Now (rs_world s) in
  let s := withWorld s w in
  let info := mkProgressInfo taskID (task_Name task) false 0 0 now zeroTime in
  match TaskProgress (rs_progress s) with
  | None => Panic s NilMapAssignment
  | Some m =>
      let s := emit (withProgress s (setTaskProgress (rs_progress s) (<[taskID := info]> m)))
                    (EvRecord taskID info) in
      Continue (saveOrWarn c file "progress" s)
  end.

(** The body of the loop after the task returned without error: its record
    is completed, the counter incremented, the progress saved. *)
Definition completeTask (c : Config) (file : string) (task : Task) (s : RunState)
    : LoopOutcome :=
  let taskID := task_Name task in
  let info := default Json.zeroProgressInfo
                      (mapLookup (TaskProgress (rs_progress s)) taskID) in
  let '(now, w) := Now (rs_world s) in
  let s := withWorld s w in
  let info := mkProgressInfo (TaskID info) (Name info) true (TotalSteps info)
                             (CompletedSteps info) (pi_StartTime info) now in
  match TaskProgress (rs_progress s) with
  | None => Panic s NilMapAssignment
  | Some m =>
      let s := emit (withProgress s (setTaskProgress (rs_progress s) (<[taskID := info]> m)))
                    (EvRecord taskID info) in
      let s := emit (withProgress s
                       (setCompletedTasks (rs_progress s)
                          (int_add (CompletedTasks (rs_progress s)) 1)))
                    EvIncrement in
      Continue (saveOrWarn c file "progress" s)
  end.

(** [task.Run(ctx)] on the state of the run. *)
Definition invoke (ctx : Context) (i : nat) (task : Task) (s : RunState)
    : RunState * option error :=
  let s := emit s (EvRun i (task_Name task)) in
  let '(store, w, result) := task_Run task ctx (rs_store s) (rs_world s) in
  (mkRunState (rs_progress s) store w (rs_trace s), result).

(** The body of the loop of [Run] for the task at index [i]. *)
Definition runTask (c : Config) (file : string) (ctx : Context)
    (useColor : bool) (highlightColor : Z) (i : nat) (task : Task) (s : RunState)
    : LoopOutcome :=
  if skips c task (rs_progress s) then
    let w := withLog (rs_world s)
               (logInfo [] ("Skipping completed task " +:+ task_Name task +:+ " ("
                            +:+ itoa (int_add (Z.of_nat i) 1) +:+ "/"
                            +:+ itoa (TotalTasks (rs_progress s)) +:+ ")")
                        (log (rs_world s))) in
    Continue (emit (withWorld s w) (EvSkip i (task_Name task)))
  else
    match beginTask c file useColor highlightColor i task s with
    | Continue s =>
        match invoke ctx i task s with
        | (s, Some err) => Return s (errAnnotate err ("run task " +:+ task_Name task))
        | (s, None) => completeTask c file task s
        end
    | stop => stop
    end.

(** The loop [for i, task := range r.tasks], from index [i] on. *)
Fixpoint runLoop (c : Config) (file : string) (ctx : Context)
    (useColor : bool) (highlightColor : Z) (i : nat) (ts : list Task) (s : RunState)
    : LoopOutcome :=
  match ts with
  | [] => Continue s
  | task :: rest =>
      match runTask c file ctx useColor highlightColor i task s with
      | Continue s => runLoop c file ctx useColor highlightColor (S i) rest s
      | stop => stop
      end
  end.

(** What follows the loop when every task was skipped or succeeded. *)
Definition finish (c : Config) (file : string) (highlightColor : Z) (s : RunState)
    : RunState :=
  let '(now, w) := Now (rs_world s) in
  let s := withWorld (withProgress s (setEndTime (rs_progress s) now)) w in
  let s :=
    if ShowProgress c then
      withWorld s (withLog (rs_world s)
                     (DisplayDeploymentComplete (rs_progress s) highlightColor
                                                (log (rs_world s))))
    else s in
  saveOrWarn c file "final progress" s.

Definition highlightColorOf (c : Config) : Z :=
  if negb (String.eqb (TaskInfoColor c) EmptyString)
  then getColorAttribute (TaskInfoColor c) else 0.

Definition useColorOf (c : Config) : bool :=
  if negb (String.eqb (TaskInfoColor c) EmptyString)
  then 0 <=? getColorAttribute (TaskInfoColor c) else false.

(** The runner after a run: the store and the progress model it points to
    are the ones the run left. *)
Definition runnerAfter (r : Runner) (rt : Runtime) (s : RunState) : Runner :=
  mkRunner (Some (mkRuntime (rs_store s) (Cfg rt) (rt_WorkDir rt) (Some (rs_progress s))))
           (tasks r) (cfg r) (init r) (progressFile r).

(** [Runner.Run]. *)
Definition Run (r : Runner) (ctx : Context) (w : World) : RunOutcome :=
  let highlightColor := highlightColorOf (cfg r) in
  let useColor := useColorOf (cfg r) in
  match runtime r with
  | None => mkRunOutcome r w [] (Panics NilPointerDereference)
  | Some rt =>
      match Progress rt with
      | None => mkRunOutcome r w [] (Panics NilPointerDereference)
      | Some dp =>
          let s := mkRunState dp (sync_Map rt) w [] in
          match runLoop (cfg r) (progressFile r) ctx useColor highlightColor 0 (tasks r) s with
          | Continue s =>
              let s := finish (cfg r) (progressFile r) highlightColor s in
              mkRunOutcome (runnerAfter r rt s) (rs_world s) (rs_trace s) (Returns None)
          | Return s err =>
              mkRunOutcome (runnerAfter r rt s) (rs_world s) (rs_trace s) (Returns (Some err))
          | Panic s p =>
              mkRunOutcome (runnerAfter r rt s) (rs_world s) (rs_trace s) (Panics p)
          end
      end
  end.

(** ** Vocabulary of the properties *)

(** The duration string as the specification words it: zero-valued units
    are left out only while they lead, and seconds are always there. *)
Definition formatDuration_spec (d : Duration) : string :=
  let hours := int_of_float64 (Hours d) in
  let minutes := int_rem (int_of_float64 (Minutes d)) 60 in
  let seconds := int_rem (int_of_float64 (Seconds d)) 60 in
  Join (if 0 <? hours
        then [itoa hours +:+ " hours"; itoa minutes +:+ " minutes"; itoa seconds +:+ " seconds"]
        else if 0 <? minutes
        then [itoa minutes +:+ " minutes"; itoa seconds +:+ " seconds"]
        else [itoa seconds +:+ " seconds"]) " ".

(** The number of entries of the task map whose record is completed. *)
Definition completedCount (m : option (gmap string ProgressInfo)) : nat :=
  match m with
  | Some m => size (filter (fun kv : string * ProgressInfo => Completed (snd kv) = true) m)
  | None => O
  end.
Arguments completedCount : simpl never.

(** The invariant of the data model: the counter equals the number of
    completed records. *)
Definition counts (dp : DeploymentProgress) : Prop :=
  CompletedTasks dp = Z.of_nat (completedCount (TaskProgress dp)).

(** The values handed to [SaveProgressToFile], in order. *)
Definition saved (trace : list Event) : list DeploymentProgress :=
  omap (fun e => match e with EvSave dp => Some dp | _ => None end) trace.

(** The event runs the task named [T], makes it the current task, or writes
    the record under [T]. *)
Definition touches (T : string) (e : Event) : bool :=
  match e with
  | EvRun _ name => String.eqb name T
  | EvCurrentTask name => String.eqb name T
  | EvRecord taskID _ => String.eqb taskID T
  | _ => false
  end.

(** The indices at which a task named [T] was run. *)
Definition runsOf (T : string) (trace : list Event) : list nat :=
  omap (fun e => match e with
                 | EvRun i name => if String.eqb name T then Some i else None
                 | _ => None
                 end) trace.

(** The indices of the tasks that were run, whatever their name. *)
Definition runs (trace : list Event) : list nat :=
  omap (fun e => match e with EvRun i _ => Some i | _ => None end) trace.

Definition stateOf (o : LoopOutcome) : RunState :=
  match o with
  | Continue s => s
  | Return s _ => s
  | Panic s _ => s
  end.

(** The progress model a runner points to after a run. *)
Definition progressOf (r : Runner) : option DeploymentProgress :=
  match runtime r with
  | Some rt => Progress rt
  | None => None
  end.

(** A runner as [Init] leaves it: the runtime and the progress model are
    there. *)
Definition initialised (r : Runner) (rt : Runtime) (dp : DeploymentProgress) : Prop :=
  runtime r = Some rt /\ Progress rt = Some dp.

(** The three units [formatDuration] computes. *)
Definition durationHours (d : Duration) : Z := int_of_float64 (Hours d).
Definition durationMinutes (d : Duration) : Z := int_rem (int_of_float64 (Minutes d)) 60.
Definition durationSeconds (d : Duration) : Z := int_rem (int_of_float64 (Seconds d)) 60.

(** The progress file [initProgressTracking] settles on. *)
Definition progressFileOf (c : Config) : string :=
  if negb (String.eqb (ProgressFilePath c) EmptyString)
  then ProgressFilePath c
  else filepath_Join (WorkDir c) "deployment_progress.json".

(** The event a call of [saveProgress] leaves in the trace: none when
    resume is disabled, since nothing is saved then. *)
Definition saveEvents (c : Config) (dp : DeploymentProgress) : list Event :=
  if ResumeEnabled c then [EvSave dp] else [].

(** The record [Run] creates when the task starts, and the one it leaves
    when the task has succeeded. *)
Definition startedRecord (name : string) (now : Time) : ProgressInfo :=
  mkProgressInfo name name false 0 0 now zeroTime.

Definition completedRecord (old : ProgressInfo) (now : Time) : ProgressInfo :=
  mkProgressInfo (TaskID old) (Name old) true (TotalSteps old) (CompletedSteps old)
                 (pi_StartTime old) now.

(** The event belongs to the iteration of the loop for the task [name] at
    index [i]. *)
Definition ownedBy (i : nat) (name : string) (e : Event) : Prop :=
  match e with
  | EvSkip j n => j = i /\ n = name
  | EvCurrentTask n => n = name
  | EvRecord taskID _ => taskID = name
  | EvIncrement => True
  | EvSave _ => True
  | EvRun j n => j = i /\ n = name
  end.

(** What the progress file can hold of a progress model: strings that are
    valid UTF-8, timestamps [Time.MarshalJSON] accepts (a year within
    [0,9999], a zone offset under 24 hours), and integers that are [int]s. *)
Definition isInt (n : Z) : Prop := MinInt64 <= n <= MaxInt64.

Definition encodableTime (t : Time) : Prop :=
  wellFormed t /\ 0 <= year t <= 9999 /\ -1440 < offset t < 1440.

Definition encodableInfo (info : ProgressInfo) : Prop :=
  Utf8.ValidString (TaskID info) = true /\ Utf8.ValidString (Name info) = true
  /\ isInt (TotalSteps info) /\ isInt (CompletedSteps info)
  /\ encodableTime (pi_StartTime info) /\ encodableTime (pi_EndTime info).

Definition encodable (dp : DeploymentProgress) : Prop :=
  encodableTime (StartTime dp) /\ encodableTime (EndTime dp)
  /\ isInt (TotalTasks dp) /\ isInt (CompletedTasks dp)
  /\ Utf8.ValidString (CurrentTask dp) = true
  /\ forall m k info, TaskProgress dp = Some m -> m !! k = Some info ->
        Utf8.ValidString k = true /\ encodableInfo info.

(** The same progress model with every timestamp as [Time.Round(0)] leaves
    it: the same date, clock reading and zone, without the monotonic clock
    reading, which is not persisted. *)
Definition stripInfo (info : ProgressInfo) : ProgressInfo :=
  mkProgressInfo (TaskID info) (Name info) (Completed info) (TotalSteps info)
                 (CompletedSteps info) (stripMono (pi_StartTime info))
                 (stripMono (pi_EndTime info)).

Definition stripProgress (dp : DeploymentProgress) : DeploymentProgress :=
  mkDeploymentProgress (stripMono (StartTime dp)) (stripMono (EndTime dp))
                       (TotalTasks dp) (CompletedTasks dp) (CurrentTask dp)
                       (fmap (M := option) (fmap (M := gmap string) stripInfo)
                             (TaskProgress dp)).

(** The bar as the specification draws it: [filled] cells [=], then, if
    room remains, one [>] and spaces to the width. *)
Definition barOf (filled : Z) : string :=
  "[" +:+ repeat_string (Z.to_nat filled) "="
      +:+ (if filled <? width
           then ">" +:+ repeat_string (Z.to_nat (width - 1 - filled)) " "
           else EmptyString)
      +:+ "]".

(** The filled width of the bar: the computed width, kept within the bar. *)
Definition clampWidth (completedWidth : Z) : Z := Z.min (Z.max completedWidth 0) width.

(** The value of a float is [2 ^ B] at most: it is [+0], or finite and
    positive with mantissa [m] and exponent [e] such that [m * 2 ^ e <= 2 ^ B]. *)
Definition atMost (B : Z) (x : float64) : Prop :=
  match x with
  | S754_zero false => True
  | S754_finite false m e => Z.pos m <= 2 ^ (B - e)
  | _ => False
  end.

(** The value of a float is [2 ^ A] at least: it is finite and positive with
    mantissa [m] and exponent [e <= A] such that [2 ^ A <= m * 2 ^ e]. *)
Definition atLeast (A : Z) (x : float64) : Prop :=
  match x with
  | S754_finite false m e => e <= A /\ 2 ^ (A - e) <= Z.pos m
  | _ => False
  end.

(** The floor of a finite float: the largest integer that is not above it. *)
Definition floorOf (x : float64) : option Z :=
  match x with
  | S754_zero _ => Some 0
  | S754_finite s m e =>
      let v := if s then Z.neg m else Z.pos m in
      Some (if 0 <=? e then v * 2 ^ e else v / 2 ^ (- e))
  | S754_infinity _ | S754_nan => None
  end.

(** The string holds ASCII bytes only. *)
Definition isASCII (s : string) : bool :=
  forallb (fun c => (nat_of_ascii c <? 128)%nat) (list_ascii_of_string s).

(** A JSON document that gives the progress model no task map: the document
    [null], or an object whose member [taskProgress], if it has one, is
    [null]. *)
Definition withoutTaskMap (j : Json.JSON) : Prop :=
  match j with
  | Json.JNull => True
  | Json.JObject members =>
      Forall (fun kv : string * Json.JSON =>
                isASCII (fst kv) = true
                /\ (ToLower (fst kv) = "taskprogress" -> snd kv = Json.JNull))
             members
  | _ => False
  end.

(** The colour names [getColorAttribute] knows, with their attributes. *)
Definition colorNames : list (string * Z) :=
  [("green", FgHiGreen); ("cyan", FgHiCyan); ("yellow", FgHiYellow); ("blue", FgHiBlue);
   ("magenta", FgHiMagenta); ("red", FgHiRed); ("white", FgHiWhite)].

(** The task leaves the file system as it found it. *)
Definition keepsFiles (t : Task) : Prop :=
  forall ctx store w, fs (snd (fst (task_Run t ctx store w))) = fs w.

(** The task never returns an error. *)
Definition neverFails (t : Task) : Prop :=
  forall ctx store w, snd (task_Run t ctx store w) = None.

(** The indices of the tasks the loop came to, run or skipped, in order. *)
Definition visited (trace : list Event) : list nat :=
  omap (fun e => match e with
                 | EvRun i _ => Some i
                 | EvSkip i _ => Some i
                 | _ => None
                 end) trace.



(** A runner as [NewRunner] returns it: the tasks and the configuration,
    no runtime yet. *)
Definition newRunner (c : Config) (ts : list Task) : Runner :=
  mkRunner None ts c false EmptyString.

(** The progress file can be written: neither the file nor its directory is
    denied, the directory is not the file, no file stands where the
    directory goes and no directory where the file goes. *)
Definition writable (f : FileSystem) (file : string) : Prop :=
  let dir := filepath_Dir file in
  (dir ∉ denied f) /\ (file ∉ denied f) /\ dir <> file
  /\ (forall c, nodes f !! dir <> Some (File c))
  /\ nodes f !! file <> Some Directory.

(** The file holds the document of the progress model. *)
Definition holds (f : FileSystem) (file : string) (dp : DeploymentProgress) : Prop :=
  exists j, nodes f !! file = Some (File (Document j)) /\ Json.Marshal dp = Some j.

(** The task leaves the file system and the clock as it found them (time
    may pass). *)
Definition keepsWorld (t : Task) : Prop :=
  forall ctx store w,
    fs (snd (fst (task_Run t ctx store w))) = fs w
    /\ clock (snd (fst (task_Run t ctx store w))) = clock w.

(** What a run with resume enabled relies on to save its progress: a task
    map that is not nil, a progress model and clock readings the file can
    hold, and a progress file that can be written. *)
Definition savable (file : string) (s : RunState) : Prop :=
  (exists m, TaskProgress (rs_progress s) = Some m)
  /\ encodable (rs_progress s)
  /\ (forall n, encodableTime (clock (rs_world s) n))
  /\ writable (fs (rs_world s)) file.

(** The value of a float lies between [l * 2 ^ g] and [u * 2 ^ g]: it is
    [+0], with [l <= 0], or finite and positive with an exponent [e <= g]
    and a mantissa between [l * 2 ^ (g - e)] and [u * 2 ^ (g - e)]. *)
Definition inRange (l u g : Z) (x : float64) : Prop :=
  match x with
  | S754_zero false => l <= 0
  | S754_finite false m e => e <= g /\ l * 2 ^ (g - e) <= Z.pos m <= u * 2 ^ (g - e)
  | _ => False
  end.

(* END-OF-DEFINITIONS *)

(** * Properties *)

(** ** The typed accessors of the execution context *)

(** C9. When the value stored under a key is not of the type an accessor
    asks for, [LoadString], [LoadBool] and [LoadInt] panic with the type
    error of the failed assertion, and return no value; under an absent key
    they return the zero value and [false], with no error. *)
Theorem typed_load_fails_on_mismatch (rt : Runtime) (key : any) :
  (forall v, sync_Map rt !! key = Some v ->
     ((forall s, v <> AnyString s) ->
        LoadString rt key = Panics (TypeAssertionError (type_name_of v) "string"))
     /\ ((forall b, v <> AnyBool b) ->
        LoadBool rt key = Panics (TypeAssertionError (type_name_of v) "bool"))
     /\ ((forall n, v <> AnyInt n) ->
        LoadInt rt key = Panics (TypeAssertionError (type_name_of v) "int")))
  /\ (sync_Map rt !! key = None ->
        LoadString rt key = Returns (EmptyString, false)
        /\ LoadBool rt key = Returns (false, false)
        /\ LoadInt rt key = Returns (0, false)).
Proof.
  split.
  - intros v Hv. unfold LoadString, LoadBool, LoadInt. rewrite Hv.
    repeat split; intros Hne; destruct v; simpl; try reflexivity;
      exfalso; eapply Hne; reflexivity.
  - intros Hnone. unfold LoadString, LoadBool, LoadInt. rewrite Hnone. auto.
Qed.

(** A value of the requested type comes back with [true]. *)
Lemma typed_load_hit (rt : Runtime) (key : any) :
  (forall s, sync_Map rt !! key = Some (AnyString s) -> LoadString rt key = Returns (s, true))
  /\ (forall b, sync_Map rt !! key = Some (AnyBool b) -> LoadBool rt key = Returns (b, true))
  /\ (forall n, sync_Map rt !! key = Some (AnyInt n) -> LoadInt rt key = Returns (n, true)).
Proof.
  unfold LoadString, LoadBool, LoadInt.
  repeat split; intros x Hx; rewrite Hx; reflexivity.
Qed.

(** ** The duration string *)

(** C8, as amended. [formatDuration] shows a unit exactly when its value is
    positive, wherever the unit stands, except that the seconds are also
    shown when neither the hours nor the minutes are. *)
Theorem formatDuration_shows_positive_units (d : Duration) :
  formatDuration d =
    Join ((if 0 <? durationHours d then [itoa (durationHours d) +:+ " hours"] else [])
          ++ (if 0 <? durationMinutes d then [itoa (durationMinutes d) +:+ " minutes"] else [])
          ++ (if (0 <? durationSeconds d)
                 || (negb (0 <? durationHours d) && negb (0 <? durationMinutes d))
              then [itoa (durationSeconds d) +:+ " seconds"] else [])) " ".
Proof.
  unfold formatDuration, durationHours, durationMinutes, durationSeconds.
  destruct (0 <? int_of_float64 (Hours d));
    destruct (0 <? int_rem (int_of_float64 (Minutes d)) 60);
    destruct (0 <? int_rem (int_of_float64 (Seconds d)) 60); reflexivity.
Qed.

(** For one hour and thirty seconds the minutes, which are zero and do not
    lead, are left out. *)
Lemma formatDuration_one_hour_thirty_seconds :
  formatDuration (Hour + 30 * Second) = "1 hours 30 seconds".
Proof. vm_compute. reflexivity. Qed.

(** ** Restoring and initialising the progress model *)

(** C6. On a path that [os.Stat] reports as not existing,
    [LoadProgressFromFile] returns no error and the progress model
    [NewDeploymentProgress] creates: no tasks, none completed, an empty task
    map, and the current reading of the clock as start time. *)
Theorem restore_of_missing_path_is_fresh (filePath : string) (w : World) :
  notExist (fs w) filePath = true ->
  exists dp,
    LoadProgressFromFile filePath w = (snd (Now w), inr dp)
    /\ dp = NewDeploymentProgress (fst (Now w))
    /\ TotalTasks dp = 0
    /\ CompletedTasks dp = 0
    /\ TaskProgress dp = Some ∅
    /\ StartTime dp = clock w (ticks w).
Proof.
  intros Hmissing. eexists. unfold LoadProgressFromFile. rewrite Hmissing.
  simpl. repeat split; reflexivity.
Qed.

(** A path that names nothing and is not denied does not exist. *)
Lemma notExist_absent (f : FileSystem) (path : string) :
  nodes f !! path = None -> path ∉ denied f -> notExist f path = true.
Proof.
  intros Hnone Hok. unfold notExist.
  destruct (decide (path ∈ denied f)); [contradiction |]. rewrite Hnone. reflexivity.
Qed.

(** C5. [initProgressTracking] always returns. With resume enabled and a
    restore that fails, it logs a warning and attaches a fresh progress
    model; with resume disabled it attaches a fresh progress model and
    neither reads nor changes the file system; in every case [TotalTasks]
    ends as the number of registered tasks. *)
Theorem initProgressTracking_never_fails (r : Runner) (w : World) :
  let n := Z.of_nat (length (tasks r)) in
  let file := progressFileOf (cfg r) in
  exists dp w',
    initProgressTracking r w = (file, dp, w')
    /\ TotalTasks dp = n
    /\ (ResumeEnabled (cfg r) = false ->
          dp = setTotalTasks (NewDeploymentProgress (clock w (ticks w))) n
          /\ fs w' = fs w /\ log w' = log w)
    /\ (ResumeEnabled (cfg r) = true ->
          forall w1 err, LoadProgressFromFile file w = (w1, inl err) ->
            dp = setTotalTasks (NewDeploymentProgress (clock w1 (ticks w1))) n
            /\ fs w' = fs w
            /\ log w' = log w1 ++ [mkLogEntry WarnLevel []
                          ("Failed to load progress file: " +:+ errorText err
                           +:+ ", starting fresh deployment")]).
Proof.
  intros n file. unfold initProgressTracking. fold (progressFileOf (cfg r)). fold file.
  destruct (ResumeEnabled (cfg r)) eqn:Hres.
  - destruct (LoadProgressFromFile file w) as [w1 [err | progress]] eqn:Hload.
    + simpl. eexists _, _. split; [reflexivity |]. split; [reflexivity |].
      split; [discriminate |]. intros _ w2 err2 Heq. injection Heq as <- <-.
      split; [reflexivity |]. split; [| reflexivity]. simpl.
      unfold LoadProgressFromFile in Hload.
      destruct (notExist (fs w) file); [discriminate |].
      destruct (ReadFile (fs w) file) as [e | [j | bytes]].
      * injection Hload as <- _. reflexivity.
      * destruct (Json.Unmarshal j); injection Hload as <- _; reflexivity.
      * injection Hload as <- _. reflexivity.
    + eexists _, _. split; [reflexivity |]. split; [reflexivity |].
      split; [discriminate |]. intros _ w2 err2 Heq. discriminate.
  - simpl. eexists _, _. split; [reflexivity |]. split; [reflexivity |].
    split; [| discriminate]. intros _. repeat split; reflexivity.
Qed.

(** ** The loop of [Run], phase by phase *)

Lemma saveOrWarn_spec (c : Config) (file what : string) (s : RunState) :
  rs_progress (saveOrWarn c file what s) = rs_progress s
  /\ rs_store (saveOrWarn c file what s) = rs_store s
  /\ rs_trace (saveOrWarn c file what s) = rs_trace s ++ saveEvents c (rs_progress s)
  /\ clock (rs_world (saveOrWarn c file what s)) = clock (rs_world s)
  /\ ticks (rs_world (saveOrWarn c file what s)) = ticks (rs_world s).
Proof.
  unfold saveOrWarn, saveProgress, saveEvents.
  destruct (ResumeEnabled c); simpl.
  - destruct (SaveProgressToFile (rs_progress s) file (fs (rs_world s))) as [fs' [err |]];
      simpl; repeat split; reflexivity.
  - rewrite app_nil_r. repeat split; reflexivity.
Qed.

(** [beginTask] on a nil task map panics after it has set the current task;
    otherwise it leaves the task current, with a fresh record that is not
    completed, and has saved that state. *)
Lemma beginTask_spec (c : Config) (file : string) (useColor : bool) (hl : Z)
    (i : nat) (task : Task) (s : RunState) :
  let name := task_Name task in
  let now := clock (rs_world s) (ticks (rs_world s)) in
  match TaskProgress (rs_progress s) with
  | None =>
      exists s', beginTask c file useColor hl i task s = Panic s' NilMapAssignment
        /\ rs_progress s' = setCurrentTask (rs_progress s) name
        /\ rs_trace s' = rs_trace s ++ [EvCurrentTask name]
  | Some m =>
      let dp' := setTaskProgress (setCurrentTask (rs_progress s) name)
                                 (<[name := startedRecord name now]> m) in
      exists s', beginTask c file useColor hl i task s = Continue s'
        /\ rs_progress s' = dp'
        /\ rs_store s' = rs_store s
        /\ rs_trace s' = rs_trace s ++ [EvCurrentTask name;
                                        EvRecord name (startedRecord name now)]
                                    ++ saveEvents c dp'
        /\ clock (rs_world s') = clock (rs_world s)
        /\ ticks (rs_world s') = S (ticks (rs_world s))
  end.
Proof.
  intros name now. unfold beginTask.
  cbn [rs_progress rs_world rs_trace rs_store emit withProgress withWorld withLog
       Now fst snd TaskProgress setCurrentTask ticks clock log fs].
  destruct (TaskProgress (rs_progress s)) as [m |] eqn:Hm.
  - eexists. split; [reflexivity |].
    match goal with |- context [saveOrWarn ?c ?f ?wh ?st] =>
      destruct (saveOrWarn_spec c f wh st) as (Hp & Hs & Ht & Hc & Hk) end.
    rewrite Hp, Hs, Ht, Hc, Hk.
    cbn [rs_progress rs_world rs_trace rs_store emit withProgress withWorld withLog
         Now fst snd TaskProgress setCurrentTask ticks clock log fs setTaskProgress].
    repeat split; try reflexivity. rewrite <- !app_assoc. reflexivity.
  - eexists. repeat split; reflexivity.
Qed.

Lemma invoke_spec (ctx : Context) (i : nat) (task : Task) (s : RunState) :
  rs_progress (fst (invoke ctx i task s)) = rs_progress s
  /\ rs_trace (fst (invoke ctx i task s)) = rs_trace s ++ [EvRun i (task_Name task)]
  /\ snd (invoke ctx i task s) = snd (task_Run task ctx (rs_store s) (rs_world s)).
Proof.
  unfold invoke. simpl.
  destruct (task_Run task ctx (rs_store s) (rs_world s)) as [[store w] result].
  simpl. repeat split; reflexivity.
Qed.

(** [completeTask] on a task map that is not nil completes the record of the
    task, increments the counter and saves. *)
Lemma completeTask_spec (c : Config) (file : string) (task : Task) (s : RunState) :
  let name := task_Name task in
  let now := clock (rs_world s) (ticks (rs_world s)) in
  match TaskProgress (rs_progress s) with
  | None => exists s', completeTask c file task s = Panic s' NilMapAssignment
                       /\ rs_progress s' = rs_progress s /\ rs_trace s' = rs_trace s
  | Some m =>
      let info := completedRecord (default Json.zeroProgressInfo (m !! name)) now in
      let dp' := setCompletedTasks (setTaskProgress (rs_progress s) (<[name := info]> m))
                                   (int_add (CompletedTasks (rs_progress s)) 1) in
      exists s', completeTask c file task s = Continue s'
        /\ rs_progress s' = dp'
        /\ rs_trace s' = rs_trace s ++ [EvRecord name info; EvIncrement] ++ saveEvents c dp'
  end.
Proof.
  intros name now. unfold completeTask.
  cbn [rs_progress rs_world rs_trace rs_store emit withProgress withWorld withLog
       Now fst snd TaskProgress ticks clock log fs].
  destruct (TaskProgress (rs_progress s)) as [m |] eqn:Hm.
  - eexists. split; [reflexivity |].
    match goal with |- context [saveOrWarn ?c ?f ?wh ?st] =>
      destruct (saveOrWarn_spec c f wh st) as (Hp & Hs & Ht & Hc & Hk) end.
    rewrite Hp, Ht.
    cbn [rs_progress rs_world rs_trace rs_store emit withProgress withWorld withLog
         Now fst snd TaskProgress ticks clock log fs setTaskProgress setCompletedTasks
         mapLookup CompletedTasks].
    split; [reflexivity |]. rewrite <- !app_assoc. reflexivity.
  - eexists. repeat split; reflexivity.
Qed.

Lemma mapLookup_setTaskProgress_ne (dp : DeploymentProgress)
    (m : gmap string ProgressInfo) (k name : string) (info : ProgressInfo) :
  TaskProgress dp = Some m -> k <> name ->
  mapLookup (TaskProgress (setTaskProgress dp (<[name := info]> m))) k
  = mapLookup (TaskProgress dp) k.
Proof.
  intros Hm Hne. rewrite Hm. simpl. apply lookup_insert_ne. congruence.
Qed.

(** One iteration of the loop: the events it adds belong to its task, and
    it leaves the records of the other tasks alone; a skipped task adds the
    skip alone and changes nothing of the progress model. *)
Lemma runTask_owned (c : Config) (file : string) (ctx : Context) (useColor : bool)
    (hl : Z) (i : nat) (task : Task) (s : RunState) :
  let out := runTask c file ctx useColor hl i task s in
  exists ev,
    rs_trace (stateOf out) = rs_trace s ++ ev
    /\ Forall (ownedBy i (task_Name task)) ev
    /\ (forall k, k <> task_Name task ->
          mapLookup (TaskProgress (rs_progress (stateOf out))) k
          = mapLookup (TaskProgress (rs_progress s)) k)
    /\ (skips c task (rs_progress s) = true ->
          out = Continue (stateOf out)
          /\ rs_progress (stateOf out) = rs_progress s
          /\ ev = [EvSkip i (task_Name task)]).
Proof.
  intros out. subst out. unfold runTask.
  destruct (skips c task (rs_progress s)) eqn:Hskip.
  - eexists. simpl. split; [reflexivity |]. split; [| split; [reflexivity | auto]].
    repeat constructor.
  - pose proof (beginTask_spec c file useColor hl i task s) as Hb. simpl in Hb.
    destruct (TaskProgress (rs_progress s)) as [m |] eqn:Hm.
    + destruct Hb as (s1 & -> & Hp1 & Hs1 & Ht1 & _).
      pose proof (invoke_spec ctx i task s1) as (Hp2 & Ht2 & _).
      destruct (invoke ctx i task s1) as [s2 [err |]]; simpl in Hp2, Ht2.
      * eexists. simpl. rewrite Ht2, Ht1, <- !app_assoc.
        split; [reflexivity |]. split; [| split; [| discriminate]].
        -- unfold saveEvents. destruct (ResumeEnabled c); repeat constructor.
        -- intros k Hk. rewrite Hp2, Hp1. simpl. try rewrite Hm. simpl.
           apply lookup_insert_ne. congruence.
      * pose proof (completeTask_spec c file task s2) as Hc. simpl in Hc.
        rewrite Hp2, Hp1 in Hc. simpl in Hc.
        destruct Hc as (s3 & -> & Hp3 & Ht3). simpl.
        eexists. rewrite Ht3, Ht2, Ht1, <- !app_assoc.
        split; [reflexivity |]. split; [| split; [| discriminate]].
        -- unfold saveEvents. destruct (ResumeEnabled c); repeat constructor.
        -- intros k Hk. rewrite Hp3. simpl. try rewrite Hm. simpl.
           rewrite !lookup_insert_ne by congruence. reflexivity.
    + destruct Hb as (s1 & -> & Hp1 & Ht1). simpl.
      eexists. rewrite Ht1. split; [reflexivity |].
      split; [repeat constructor |]. split; [| discriminate].
      intros k Hk. rewrite Hp1. simpl. try rewrite Hm. reflexivity.
Qed.

Lemma runLoop_app (c : Config) (file : string) (ctx : Context) (useColor : bool)
    (hl : Z) (pre post : list Task) (i : nat) (s : RunState) :
  runLoop c file ctx useColor hl i (pre ++ post) s =
    match runLoop c file ctx useColor hl i pre s with
    | Continue s1 => runLoop c file ctx useColor hl (i + length pre) post s1
    | stop => stop
    end.
Proof.
  revert i s. induction pre as [| t pre IH]; intros i s; simpl.
  - rewrite Nat.add_0_r. reflexivity.
  - destruct (runTask c file ctx useColor hl i t s); try reflexivity.
    rewrite IH. replace (S i + length pre)%nat with (i + S (length pre))%nat by lia.
    reflexivity.
Qed.

Lemma owned_does_not_touch (i : nat) (name T : string) (e : Event) :
  name <> T -> ownedBy i name e -> touches T e = false.
Proof.
  intros Hne Ho. destruct e; simpl in Ho |- *; try reflexivity;
    apply String.eqb_neq; first [congruence | destruct Ho as [_ Ho]; congruence].
Qed.

Lemma skips_completed (c : Config) (task : Task) (dp : DeploymentProgress)
    (info : ProgressInfo) :
  ResumeEnabled c = true ->
  mapLookup (TaskProgress dp) (task_Name task) = Some info ->
  Completed info = true ->
  skips c task dp = true.
Proof. intros Hres Hlook Hdone. unfold skips. rewrite Hres, Hlook. exact Hdone. Qed.

(** Through the loop, a record that is completed stays as it is, and no
    event touches its task. *)
Lemma runLoop_leaves_completed (c : Config) (file : string) (ctx : Context)
    (useColor : bool) (hl : Z) (T : string) (info : ProgressInfo) (ts : list Task) :
  ResumeEnabled c = true -> Completed info = true ->
  forall (i : nat) (s : RunState),
    mapLookup (TaskProgress (rs_progress s)) T = Some info ->
    let out := runLoop c file ctx useColor hl i ts s in
    exists ev,
      rs_trace (stateOf out) = rs_trace s ++ ev
      /\ Forall (fun e => touches T e = false) ev
      /\ mapLookup (TaskProgress (rs_progress (stateOf out))) T = Some info.
Proof.
  intros Hres Hdone. induction ts as [| t rest IH]; intros i s Hlook; simpl.
  - exists []. rewrite app_nil_r. auto.
  - destruct (runTask_owned c file ctx useColor hl i t s) as (ev & Htrace & Hown & Hkeep & Hskip).
    assert (Hquiet : Forall (fun e => touches T e = false) ev
                     /\ mapLookup (TaskProgress
                          (rs_progress (stateOf (runTask c file ctx useColor hl i t s)))) T
                        = Some info).
    { destruct (String.eqb_spec (task_Name t) T) as [Heq | Hne].
      - subst T. destruct (Hskip (skips_completed c t _ info Hres Hlook Hdone))
          as (_ & Hsame & ->).
        rewrite Hsame. split; [| exact Hlook]. repeat constructor.
      - split.
        + eapply Forall_impl; [exact Hown |]. intros e. apply owned_does_not_touch, Hne.
        + rewrite Hkeep by congruence. exact Hlook. }
    destruct Hquiet as [Hquiet Hlook'].
    destruct (runTask c file ctx useColor hl i t s) as [s1 | s1 err | s1 p]; simpl in *.
    + destruct (IH (S i) s1 Hlook') as (ev' & Htrace' & Hquiet' & Hlook'').
      exists (ev ++ ev'). rewrite Htrace', Htrace, <- app_assoc.
      split; [reflexivity |]. split; [| exact Hlook'']. apply Forall_app; auto.
    + exists ev. auto.
    + exists ev. auto.
Qed.

(** [finish] saves once more and touches no task. *)
Lemma finish_spec (c : Config) (file : string) (hl : Z) (s : RunState) :
  let now := clock (rs_world s) (ticks (rs_world s)) in
  rs_progress (finish c file hl s) = setEndTime (rs_progress s) now
  /\ rs_trace (finish c file hl s) = rs_trace s ++ saveEvents c (setEndTime (rs_progress s) now).
Proof.
  unfold finish.
  cbn [Now rs_world rs_progress withWorld withProgress rs_trace rs_store].
  match goal with |- context [saveOrWarn ?c ?f ?wh ?st] =>
    destruct (saveOrWarn_spec c f wh st) as (Hp & _ & Ht & _) end.
  rewrite Hp, Ht. destruct (ShowProgress c); split; reflexivity.
Qed.

(** ** Resuming *)

(** C1. With resume enabled, when the record under a task's ID exists and is
    completed as [Run] starts, no event of the run invokes a task of that
    name, makes it the current task or writes its record; the record is the
    same after the run; and the iteration for such a task adds a skip to the
    trace, changes neither the progress model nor the store, and lets the
    loop continue. *)
Theorem completed_task_is_skipped (r : Runner) (ctx : Context) (w : World)
    (rt : Runtime) (dp : DeploymentProgress) (T : string) (info : ProgressInfo) :
  initialised r rt dp ->
  ResumeEnabled (cfg r) = true ->
  mapLookup (TaskProgress dp) T = Some info ->
  Completed info = true ->
  let out := Run r ctx w in
  Forall (fun e => touches T e = false) (out_trace out)
  /\ (exists dp', progressOf (out_runner out) = Some dp'
                  /\ mapLookup (TaskProgress dp') T = Some info)
  /\ (forall (i : nat) (t : Task) (s : RunState),
        task_Name t = T ->
        mapLookup (TaskProgress (rs_progress s)) T = Some info ->
        exists s',
          runTask (cfg r) (progressFile r) ctx (useColorOf (cfg r))
                  (highlightColorOf (cfg r)) i t s = Continue s'
          /\ rs_progress s' = rs_progress s
          /\ rs_store s' = rs_store s
          /\ rs_trace s' = rs_trace s ++ [EvSkip i T]).
Proof.
  intros [Hrt Hdp] Hres Hlook Hdone out. subst out. unfold Run. rewrite Hrt, Hdp.
  set (s0 := mkRunState dp (sync_Map rt) w []).
  destruct (runLoop_leaves_completed (cfg r) (progressFile r) ctx (useColorOf (cfg r))
              (highlightColorOf (cfg r)) T info (tasks r) Hres Hdone 0%nat s0 Hlook)
    as (ev & Htrace & Hquiet & Hlook').
  simpl in Htrace. split; [| split].
  - destruct (runLoop _ _ _ _ _ _ _ s0) as [s1 | s1 err | s1 p]; simpl in *.
    + destruct (finish_spec (cfg r) (progressFile r) (highlightColorOf (cfg r)) s1) as [_ Ht].
      rewrite Ht, Htrace. apply Forall_app. split; [exact Hquiet |].
      unfold saveEvents. destruct (ResumeEnabled (cfg r)); repeat constructor.
    + rewrite Htrace. exact Hquiet.
    + rewrite Htrace. exact Hquiet.
  - destruct (runLoop _ _ _ _ _ _ _ s0) as [s1 | s1 err | s1 p]; simpl in *.
    + destruct (finish_spec (cfg r) (progressFile r) (highlightColorOf (cfg r)) s1) as [Hp _].
      eexists. split; [reflexivity |]. rewrite Hp. exact Hlook'.
    + eexists. split; [reflexivity |]. exact Hlook'.
    + eexists. split; [reflexivity |]. exact Hlook'.
  - intros i t s Hname Hrec. subst T. unfold runTask.
    rewrite (skips_completed (cfg r) t _ info Hres Hrec Hdone).
    eexists. split; [reflexivity |]. simpl. auto.
Qed.

Lemma runsOf_app (T : string) (a b : list Event) :
  runsOf T (a ++ b) = runsOf T a ++ runsOf T b.
Proof. unfold runsOf. apply omap_app. Qed.

Lemma runsOf_untouched (T : string) (ev : list Event) :
  Forall (fun e => touches T e = false) ev -> runsOf T ev = [].
Proof.
  induction 1 as [| e ev He _ IH]; [reflexivity |].
  unfold runsOf in *. destruct e; simpl in *; try exact IH.
  rewrite He. exact IH.
Qed.

Lemma runsOf_saveEvents (T : string) (c : Config) (dp : DeploymentProgress) :
  runsOf T (saveEvents c dp) = [].
Proof. unfold saveEvents. destruct (ResumeEnabled c); reflexivity. Qed.

(** What [Run] returns and leaves, from the outcome of its loop. *)
Lemma Run_unfold (r : Runner) (ctx : Context) (w : World) (rt : Runtime)
    (dp : DeploymentProgress) :
  initialised r rt dp ->
  Run r ctx w =
    match runLoop (cfg r) (progressFile r) ctx (useColorOf (cfg r))
                  (highlightColorOf (cfg r)) 0 (tasks r)
                  (mkRunState dp (sync_Map rt) w []) with
    | Continue s =>
        let s := finish (cfg r) (progressFile r) (highlightColorOf (cfg r)) s in
        mkRunOutcome (runnerAfter r rt s) (rs_world s) (rs_trace s) (Returns None)
    | Return s err =>
        mkRunOutcome (runnerAfter r rt s) (rs_world s) (rs_trace s) (Returns (Some err))
    | Panic s p =>
        mkRunOutcome (runnerAfter r rt s) (rs_world s) (rs_trace s) (Panics p)
    end.
Proof. intros [Hrt Hdp]. unfold Run. rewrite Hrt, Hdp. reflexivity. Qed.

(** C10. The record of a task is kept under the task's name. With resume
    enabled, when the first task of some name has run and succeeded, its
    record is completed, that one record answers for every task of the
    name, and no later task of the name is run: such a task is skipped. *)
Theorem same_name_shares_record (r : Runner) (ctx : Context) (w : World)
    (rt : Runtime) (dp : DeploymentProgress)
    (pre post : list Task) (t1 : Task) (s1 s2 : RunState) :
  let c := cfg r in
  let file := progressFile r in
  let T := task_Name t1 in
  initialised r rt dp ->
  ResumeEnabled c = true ->
  tasks r = pre ++ t1 :: post ->
  runLoop c file ctx (useColorOf c) (highlightColorOf c) 0 pre
          (mkRunState dp (sync_Map rt) w []) = Continue s1 ->
  skips c t1 (rs_progress s1) = false ->
  beginTask c file (useColorOf c) (highlightColorOf c) (length pre) t1 s1 = Continue s2 ->
  snd (invoke ctx (length pre) t1 s2) = None ->
  exists info ev dp',
    TaskID info = T /\ Name info = T /\ Completed info = true
    /\ out_trace (Run r ctx w) = rs_trace s1 ++ ev
    /\ runsOf T ev = [length pre]
    /\ progressOf (out_runner (Run r ctx w)) = Some dp'
    /\ mapLookup (TaskProgress dp') T = Some info
    /\ (forall (j : nat) (t2 : Task) (s : RunState),
          task_Name t2 = T ->
          mapLookup (TaskProgress (rs_progress s)) T = Some info ->
          exists s',
            runTask c file ctx (useColorOf c) (highlightColorOf c) j t2 s = Continue s'
            /\ rs_progress s' = rs_progress s
            /\ rs_trace s' = rs_trace s ++ [EvSkip j T]).
Proof.
  intros c file T Hinit Hres Htasks Hpre Hskip Hbegin Hrun.
  pose proof (beginTask_spec c file (useColorOf c) (highlightColorOf c) (length pre) t1 s1) as Hb.
  simpl in Hb. destruct (TaskProgress (rs_progress s1)) as [m |] eqn:Hm.
  2: { destruct Hb as (s' & Hb & _). rewrite Hbegin in Hb. discriminate. }
  destruct Hb as (s2' & Hb & Hp2 & _ & Ht2 & _).
  rewrite Hbegin in Hb. injection Hb as <-.
  pose proof (invoke_spec ctx (length pre) t1 s2) as (Hp3 & Ht3 & _).
  destruct (invoke ctx (length pre) t1 s2) as [s3 result] eqn:Hinv.
  simpl in Hrun, Hp3, Ht3. subst result.
  pose proof (completeTask_spec c file t1 s3) as Hc. simpl in Hc.
  rewrite Hp3, Hp2 in Hc. simpl in Hc. rewrite lookup_insert_eq in Hc. simpl in Hc.
  destruct Hc as (s4 & Hcomplete & Hp4 & Ht4).
  set (now1 := clock (rs_world s1) (ticks (rs_world s1))) in *.
  set (info := completedRecord (startedRecord (task_Name t1) now1)
                               (clock (rs_world s3) (ticks (rs_world s3)))) in *.
  assert (Hloop : runLoop c file ctx (useColorOf c) (highlightColorOf c) 0 (tasks r)
                          (mkRunState dp (sync_Map rt) w [])
                  = runLoop c file ctx (useColorOf c) (highlightColorOf c)
                            (S (length pre)) post s4).
  { rewrite Htasks, runLoop_app, Hpre. simpl. unfold runTask.
    rewrite Hskip, Hbegin, Hinv, Hcomplete. reflexivity. }
  assert (Hlook4 : mapLookup (TaskProgress (rs_progress s4)) T = Some info).
  { rewrite Hp4. simpl. apply lookup_insert_eq. }
  assert (Hdone : Completed info = true) by reflexivity.
  destruct (runLoop_leaves_completed c file ctx (useColorOf c) (highlightColorOf c)
              T info post Hres Hdone (S (length pre)) s4 Hlook4)
    as (ev & Htrace & Hquiet & Hlook').
  simpl in Htrace.
  assert (Hruns4 : exists ev4, rs_trace s4 = rs_trace s1 ++ ev4
                               /\ runsOf T ev4 = [length pre]).
  { eexists. rewrite Ht4, Ht3, Ht2, <- !app_assoc. split; [reflexivity |].
    unfold saveEvents. rewrite Hres. unfold runsOf, T. simpl.
    rewrite String.eqb_refl. reflexivity. }
  destruct Hruns4 as (ev4 & Htrace4 & Hruns4).
  assert (Hlater : forall (j : nat) (t2 : Task) (s : RunState),
            task_Name t2 = T ->
            mapLookup (TaskProgress (rs_progress s)) T = Some info ->
            exists s',
              runTask c file ctx (useColorOf c) (highlightColorOf c) j t2 s = Continue s'
              /\ rs_progress s' = rs_progress s
              /\ rs_trace s' = rs_trace s ++ [EvSkip j T]).
  { intros j t2 s Hname Hrec. unfold runTask.
    rewrite (skips_completed c t2 _ info Hres); [| rewrite Hname; exact Hrec | exact Hdone].
    rewrite Hname. eexists. split; [reflexivity |]. simpl. auto. }
  rewrite (Run_unfold r ctx w rt dp Hinit). fold c file. rewrite Hloop.
  exists info.
  destruct (runLoop c file ctx (useColorOf c) (highlightColorOf c) (S (length pre)) post s4)
    as [s5 | s5 err | s5 p]; simpl in *.
  - destruct (finish_spec c file (highlightColorOf c) s5) as [Hp6 Ht6].
    eexists (ev4 ++ ev ++ _), _.
    split; [reflexivity |]. split; [reflexivity |]. split; [reflexivity |].
    split; [rewrite Ht6, Htrace, Htrace4, <- !app_assoc; reflexivity |].
    split; [rewrite !runsOf_app, Hruns4, (runsOf_untouched T ev Hquiet),
              runsOf_saveEvents; reflexivity |].
    split; [reflexivity |]. split; [rewrite Hp6; exact Hlook' | exact Hlater].
  - eexists (ev4 ++ ev), _.
    split; [reflexivity |]. split; [reflexivity |]. split; [reflexivity |].
    split; [rewrite Htrace, Htrace4, <- !app_assoc; reflexivity |].
    split; [rewrite !runsOf_app, Hruns4, (runsOf_untouched T ev Hquiet); reflexivity |].
    split; [reflexivity |]. split; [exact Hlook' | exact Hlater].
  - eexists (ev4 ++ ev), _.
    split; [reflexivity |]. split; [reflexivity |]. split; [reflexivity |].
    split; [rewrite Htrace, Htrace4, <- !app_assoc; reflexivity |].
    split; [rewrite !runsOf_app, Hruns4, (runsOf_untouched T ev Hquiet); reflexivity |].
    split; [reflexivity |]. split; [exact Hlook' | exact Hlater].
Qed.

Lemma runs_app (a b : list Event) : runs (a ++ b) = runs a ++ runs b.
Proof. unfold runs. apply omap_app. Qed.

Lemma runs_owned (i : nat) (name : string) (ev : list Event) :
  Forall (ownedBy i name) ev -> Forall (fun j => j = i) (runs ev).
Proof.
  induction 1 as [| e ev He _ IH]; [constructor |].
  unfold runs in *. destruct e; simpl in *; try exact IH.
  constructor; [apply He | exact IH].
Qed.

(** The tasks the loop runs from index [i] on have their indices between
    [i] and the end of the list. *)
Lemma runLoop_run_indices (c : Config) (file : string) (ctx : Context)
    (useColor : bool) (hl : Z) (ts : list Task) :
  forall (i : nat) (s : RunState),
    exists ev,
      rs_trace (stateOf (runLoop c file ctx useColor hl i ts s)) = rs_trace s ++ ev
      /\ Forall (fun j => (i <= j < i + length ts)%nat) (runs ev).
Proof.
  induction ts as [| t rest IH]; intros i s; simpl.
  - exists []. rewrite app_nil_r. split; [reflexivity | constructor].
  - destruct (runTask_owned c file ctx useColor hl i t s) as (ev & Htrace & Hown & _).
    apply runs_owned in Hown.
    assert (Hhere : Forall (fun j => (i <= j < i + S (length rest))%nat) (runs ev)).
    { eapply Forall_impl; [exact Hown |]. simpl. intros j ->. lia. }
    destruct (runTask c file ctx useColor hl i t s) as [s1 | s1 err | s1 p]; simpl in *.
    + destruct (IH (S i) s1) as (ev' & Htrace' & Hidx).
      exists (ev ++ ev'). rewrite Htrace', Htrace, <- app_assoc. split; [reflexivity |].
      rewrite runs_app. apply Forall_app. split; [exact Hhere |].
      eapply Forall_impl; [exact Hidx |]. simpl. intros j. lia.
    + exists ev. auto.
    + exists ev. auto.
Qed.

(** ** Failure *)

(** C4. When the tasks before [T] are skipped or succeed and [T], once
    started, fails with [cause], [Run] returns at once the error that names
    [T] and wraps [cause]: the trace ends with the invocation of [T], no task
    after [T] is run, and the progress model is left with [T] as current
    task, the record of [T] not completed, the counter where it was before
    [T] started and no end time set. *)
Theorem failing_task_stops_run (r : Runner) (ctx : Context) (w : World)
    (rt : Runtime) (dp : DeploymentProgress)
    (pre post : list Task) (T : Task) (s1 s2 : RunState) (cause : error) :
  let c := cfg r in
  let file := progressFile r in
  let name := task_Name T in
  initialised r rt dp ->
  tasks r = pre ++ T :: post ->
  runLoop c file ctx (useColorOf c) (highlightColorOf c) 0 pre
          (mkRunState dp (sync_Map rt) w []) = Continue s1 ->
  skips c T (rs_progress s1) = false ->
  beginTask c file (useColorOf c) (highlightColorOf c) (length pre) T s1 = Continue s2 ->
  snd (invoke ctx (length pre) T s2) = Some cause ->
  let out := Run r ctx w in
  out_result out = Returns (Some (errAnnotate cause ("run task " +:+ name)))
  /\ errorText (errAnnotate cause ("run task " +:+ name))
     = "run task " +:+ name +:+ ": " +:+ errorText cause
  /\ Cause (errAnnotate cause ("run task " +:+ name)) = Cause cause
  /\ out_trace out = rs_trace s2 ++ [EvRun (length pre) name]
  /\ Forall (fun j => (j <= length pre)%nat) (runs (out_trace out))
  /\ exists dp' info,
       progressOf (out_runner out) = Some dp'
       /\ CurrentTask dp' = name
       /\ mapLookup (TaskProgress dp') name = Some info
       /\ Completed info = false
       /\ CompletedTasks dp' = CompletedTasks (rs_progress s1)
       /\ EndTime dp' = EndTime (rs_progress s1).
Proof.
  intros c file name Hinit Htasks Hpre Hskip Hbegin Hfail out. subst out.
  pose proof (beginTask_spec c file (useColorOf c) (highlightColorOf c) (length pre) T s1) as Hb.
  simpl in Hb. destruct (TaskProgress (rs_progress s1)) as [m |] eqn:Hm.
  2: { destruct Hb as (s' & Hb & _). rewrite Hbegin in Hb. discriminate. }
  destruct Hb as (s2' & Hb & Hp2 & _ & Ht2 & _).
  rewrite Hbegin in Hb. injection Hb as <-.
  pose proof (invoke_spec ctx (length pre) T s2) as (Hp3 & Ht3 & _).
  destruct (invoke ctx (length pre) T s2) as [s3 result] eqn:Hinv.
  simpl in Hfail, Hp3, Ht3. subst result.
  assert (Hloop : runLoop c file ctx (useColorOf c) (highlightColorOf c) 0 (tasks r)
                          (mkRunState dp (sync_Map rt) w [])
                  = Return s3 (errAnnotate cause ("run task " +:+ name))).
  { rewrite Htasks, runLoop_app, Hpre. simpl. unfold runTask.
    rewrite Hskip, Hbegin, Hinv. reflexivity. }
  rewrite (Run_unfold r ctx w rt dp Hinit). fold c file. rewrite Hloop. simpl.
  split; [reflexivity |]. split; [reflexivity |]. split; [reflexivity |].
  split; [exact Ht3 |]. split.
  - rewrite Ht3, Ht2.
    destruct (runLoop_run_indices c file ctx (useColorOf c) (highlightColorOf c) pre
                0%nat (mkRunState dp (sync_Map rt) w [])) as (ev & Htrace & Hidx).
    rewrite Hpre in Htrace. simpl in Htrace. rewrite Htrace, !runs_app.
    assert (Hsave : forall a b d, runs (a :: b :: saveEvents c d) = runs [a; b]).
    { intros a b d. unfold saveEvents. destruct (ResumeEnabled c); [| reflexivity].
      unfold runs. destruct a, b; reflexivity. }
    rewrite Hsave. apply Forall_app. split.
    + apply Forall_app. split; [| constructor].
      eapply Forall_impl; [exact Hidx |]. simpl. intros j. lia.
    + repeat constructor.
  - eexists _, _. split; [reflexivity |]. rewrite Hp3, Hp2. simpl.
    split; [reflexivity |]. split; [apply lookup_insert_eq |].
    repeat split; reflexivity.
Qed.

(** ** The counter of completed tasks *)

Lemma wrap64_small (z : Z) : MinInt64 <= z <= MaxInt64 -> wrap64 z = z.
Proof.
  unfold MinInt64, MaxInt64, wrap64. intros Hz.
  rewrite Z.mod_small by lia. lia.
Qed.

Lemma count_insert_open (m : gmap string ProgressInfo) (k : string) (x : ProgressInfo) :
  Completed x = false ->
  (forall y, m !! k = Some y -> Completed y = false) ->
  completedCount (Some (<[k := x]> m)) = completedCount (Some m).
Proof.
  intros Hx Hold. unfold completedCount. f_equal.
  apply map_filter_insert_not'; simpl.
  - rewrite Hx. discriminate.
  - intros y Hy. rewrite (Hold y Hy). discriminate.
Qed.

Lemma count_insert_done (m : gmap string ProgressInfo) (k : string) (x : ProgressInfo) :
  Completed x = true ->
  (forall y, m !! k = Some y -> Completed y = false) ->
  completedCount (Some (<[k := x]> m)) = S (completedCount (Some m)).
Proof.
  intros Hx Hold. unfold completedCount.
  rewrite map_filter_insert_True by exact Hx.
  apply map_size_insert_None, map_lookup_filter_None_2. right.
  intros y Hy. simpl. rewrite (Hold y Hy). discriminate.
Qed.

Lemma saved_app (a b : list Event) : saved (a ++ b) = saved a ++ saved b.
Proof. unfold saved. apply omap_app. Qed.

Lemma saved_cons (e : Event) (l : list Event) :
  saved (e :: l) = match e with EvSave dp => dp :: saved l | _ => saved l end.
Proof. destruct e; reflexivity. Qed.

Lemma saved_saveEvents (c : Config) (dp : DeploymentProgress) :
  saved (saveEvents c dp) = if ResumeEnabled c then [dp] else [].
Proof. unfold saveEvents. destruct (ResumeEnabled c); reflexivity. Qed.

Lemma skips_false_open (c : Config) (task : Task) (dp : DeploymentProgress)
    (m : gmap string ProgressInfo) :
  ResumeEnabled c = true -> TaskProgress dp = Some m -> skips c task dp = false ->
  forall y, m !! task_Name task = Some y -> Completed y = false.
Proof.
  intros Hres Hm Hskip y Hy. unfold skips in Hskip.
  rewrite Hres, Hm in Hskip. simpl in Hskip. rewrite Hy in Hskip. exact Hskip.
Qed.

(** With resume enabled, an iteration of the loop keeps the counter equal to
    the number of completed records, in the state it leaves and in every
    value it saves; [n] bounds the increments still to come. *)
Lemma runTask_counts (c : Config) (file : string) (ctx : Context) (useColor : bool)
    (hl : Z) (i : nat) (task : Task) (s : RunState) (n : nat) :
  ResumeEnabled c = true ->
  counts (rs_progress s) ->
  CompletedTasks (rs_progress s) + Z.of_nat (S n) <= MaxInt64 ->
  let out := runTask c file ctx useColor hl i task s in
  exists ev,
    rs_trace (stateOf out) = rs_trace s ++ ev
    /\ Forall counts (saved ev)
    /\ counts (rs_progress (stateOf out))
    /\ CompletedTasks (rs_progress (stateOf out)) + Z.of_nat n <= MaxInt64.
Proof.
  intros Hres Hinv Hbound out. subst out. unfold runTask.
  destruct (skips c task (rs_progress s)) eqn:Hskip.
  - eexists. simpl. split; [reflexivity |]. split; [constructor |].
    split; [exact Hinv | lia].
  - pose proof (beginTask_spec c file useColor hl i task s) as Hb. simpl in Hb.
    destruct (TaskProgress (rs_progress s)) as [m |] eqn:Hm.
    + destruct Hb as (s1 & -> & Hp1 & Hs1 & Ht1 & _).
      pose proof (skips_false_open c task _ m Hres Hm Hskip) as Hopen.
      assert (Hinv1 : counts (rs_progress s1)).
      { rewrite Hp1. unfold counts in *. simpl.
        rewrite count_insert_open by (auto; reflexivity).
        rewrite Hinv, Hm. reflexivity. }
      assert (Hc1 : CompletedTasks (rs_progress s1) = CompletedTasks (rs_progress s)).
      { rewrite Hp1. reflexivity. }
      pose proof (invoke_spec ctx i task s1) as (Hp2 & Ht2 & _).
      destruct (invoke ctx i task s1) as [s2 [err |]]; simpl in Hp2, Ht2.
      * eexists. simpl. rewrite Ht2, Ht1, <- !app_assoc.
        split; [reflexivity |]. rewrite Hp2.
        split; [| split; [exact Hinv1 | lia]].
        repeat first [rewrite saved_app | rewrite saved_cons].
        rewrite saved_saveEvents, Hres. simpl.
        repeat constructor. rewrite <- Hp1. exact Hinv1.
      * pose proof (completeTask_spec c file task s2) as Hc. simpl in Hc.
        rewrite Hp2, Hp1 in Hc. simpl in Hc. rewrite lookup_insert_eq in Hc. simpl in Hc.
        destruct Hc as (s3 & -> & Hp3 & Ht3). simpl.
        assert (Hnonneg : 0 <= CompletedTasks (rs_progress s)).
        { rewrite Hinv. lia. }
        assert (Hinv3 : counts (rs_progress s3)).
        { rewrite Hp3. unfold counts in *. simpl.
          rewrite count_insert_done; [| reflexivity |].
          - rewrite count_insert_open by (auto; reflexivity).
            unfold int_add. rewrite wrap64_small by (unfold MinInt64; lia).
            rewrite Hinv, Hm. lia.
          - intros y. rewrite lookup_insert_eq. intros [= <-]. reflexivity. }
        eexists. rewrite Ht3, Ht2, Ht1, <- !app_assoc.
        split; [reflexivity |]. split; [| split; [exact Hinv3 |]].
        -- repeat first [rewrite saved_app | rewrite saved_cons].
           rewrite !saved_saveEvents, Hres. simpl.
           repeat constructor; [rewrite <- Hp1; exact Hinv1 | rewrite <- Hp3; exact Hinv3].
        -- rewrite Hp3. simpl. unfold int_add.
           rewrite wrap64_small by (unfold MinInt64; lia). lia.
    + destruct Hb as (s1 & -> & Hp1 & Ht1). simpl.
      eexists. rewrite Ht1. split; [reflexivity |].
      split; [constructor |]. rewrite Hp1. split; [| simpl; lia].
      unfold counts in *. simpl. rewrite Hinv, Hm. reflexivity.
Qed.

Lemma runLoop_counts (c : Config) (file : string) (ctx : Context) (useColor : bool)
    (hl : Z) (ts : list Task) :
  ResumeEnabled c = true ->
  forall (i : nat) (s : RunState),
    counts (rs_progress s) ->
    CompletedTasks (rs_progress s) + Z.of_nat (length ts) <= MaxInt64 ->
    exists ev,
      rs_trace (stateOf (runLoop c file ctx useColor hl i ts s)) = rs_trace s ++ ev
      /\ Forall counts (saved ev)
      /\ counts (rs_progress (stateOf (runLoop c file ctx useColor hl i ts s))).
Proof.
  intros Hres. induction ts as [| t rest IH]; intros i s Hinv Hbound; simpl.
  - exists []. rewrite app_nil_r. split; [reflexivity |]. split; [constructor | exact Hinv].
  - destruct (runTask_counts c file ctx useColor hl i t s (length rest) Hres Hinv Hbound)
      as (ev & Htrace & Hsaved & Hinv' & Hbound').
    destruct (runTask c file ctx useColor hl i t s) as [s1 | s1 err | s1 p]; simpl in *.
    + destruct (IH (S i) s1 Hinv' Hbound') as (ev' & Htrace' & Hsaved' & Hinv'').
      exists (ev ++ ev'). rewrite Htrace', Htrace, <- app_assoc.
      split; [reflexivity |]. split; [| exact Hinv''].
      rewrite saved_app. apply Forall_app. auto.
    + exists ev. auto.
    + exists ev. auto.
Qed.

(** With resume disabled nothing is saved. *)
Lemma runLoop_saves_nothing (c : Config) (file : string) (ctx : Context)
    (useColor : bool) (hl : Z) (ts : list Task) :
  ResumeEnabled c = false ->
  forall (i : nat) (s : RunState),
    saved (rs_trace (stateOf (runLoop c file ctx useColor hl i ts s)))
    = saved (rs_trace s).
Proof.
  intros Hres. induction ts as [| t rest IH]; intros i s; simpl; [reflexivity |].
  assert (Hstep : saved (rs_trace (stateOf (runTask c file ctx useColor hl i t s)))
                  = saved (rs_trace s)).
  { unfold runTask, skips. rewrite Hres.
    pose proof (beginTask_spec c file useColor hl i t s) as Hb. simpl in Hb.
    destruct (TaskProgress (rs_progress s)) as [m |] eqn:Hm.
    - destruct Hb as (s1 & -> & Hp1 & _ & Ht1 & _).
      pose proof (invoke_spec ctx i t s1) as (Hp2 & Ht2 & _).
      destruct (invoke ctx i t s1) as [s2 [err |]]; simpl in Hp2, Ht2.
      + simpl. rewrite Ht2, Ht1. unfold saveEvents. rewrite Hres.
        rewrite !saved_app. simpl. rewrite !app_nil_r. reflexivity.
      + pose proof (completeTask_spec c file t s2) as Hc. simpl in Hc.
        rewrite Hp2, Hp1 in Hc. simpl in Hc.
        destruct Hc as (s3 & -> & _ & Ht3). simpl.
        rewrite Ht3, Ht2, Ht1. unfold saveEvents. rewrite Hres.
        rewrite !saved_app. simpl. rewrite !app_nil_r. reflexivity.
    - destruct Hb as (s1 & -> & _ & Ht1). simpl. rewrite Ht1, saved_app. simpl.
      apply app_nil_r. }
  destruct (runTask c file ctx useColor hl i t s) as [s1 | s1 err | s1 p]; simpl in *.
  - rewrite IH. exact Hstep.
  - exact Hstep.
  - exact Hstep.
Qed.

(** C2. When [Run] starts from a progress model whose counter equals the
    number of its completed records (a fresh one does), every value it hands
    to [SaveProgressToFile] has that property. The counter is an [int]: the
    tasks are taken to be few enough for it not to overflow. *)
Theorem saved_progress_counts_completed (r : Runner) (ctx : Context) (w : World)
    (rt : Runtime) (dp : DeploymentProgress) :
  initialised r rt dp ->
  counts dp ->
  CompletedTasks dp + Z.of_nat (length (tasks r)) <= MaxInt64 ->
  Forall counts (saved (out_trace (Run r ctx w))).
Proof.
  intros Hinit Hinv Hbound. rewrite (Run_unfold r ctx w rt dp Hinit).
  set (c := cfg r). set (file := progressFile r).
  set (s0 := mkRunState dp (sync_Map rt) w []).
  destruct (ResumeEnabled c) eqn:Hres.
  - destruct (runLoop_counts c file ctx (useColorOf c) (highlightColorOf c) (tasks r)
                Hres 0%nat s0 Hinv Hbound) as (ev & Htrace & Hsaved & Hinv').
    simpl in Htrace.
    destruct (runLoop c file ctx (useColorOf c) (highlightColorOf c) 0 (tasks r) s0)
      as [s1 | s1 err | s1 p]; simpl in *.
    + destruct (finish_spec c file (highlightColorOf c) s1) as [Hp Ht].
      rewrite Ht, Htrace, !saved_app, saved_saveEvents, Hres.
      apply Forall_app. split; [exact Hsaved |]. repeat constructor.
      unfold counts in *. simpl. exact Hinv'.
    + rewrite Htrace. exact Hsaved.
    + rewrite Htrace. exact Hsaved.
  - pose proof (runLoop_saves_nothing c file ctx (useColorOf c) (highlightColorOf c)
                  (tasks r) Hres 0%nat s0) as Hnone.
    destruct (runLoop c file ctx (useColorOf c) (highlightColorOf c) 0 (tasks r) s0)
      as [s1 | s1 err | s1 p]; simpl in *.
    + destruct (finish_spec c file (highlightColorOf c) s1) as [Hp Ht].
      rewrite Ht, saved_app, saved_saveEvents, Hres, Hnone. constructor.
    + rewrite Hnone. constructor.
    + rewrite Hnone. constructor.
Qed.

(** A fresh progress model has the property. *)
Lemma fresh_progress_counts (now : Time) (n : Z) :
  counts (setTotalTasks (NewDeploymentProgress now) n).
Proof.
  unfold counts, completedCount. simpl.
  rewrite map_filter_empty, map_size_empty. reflexivity.
Qed.

(** With resume disabled the counter and the records can part, in memory:
    a second task of the same name starts over a completed record. Nothing
    is saved then. *)
Lemma counter_parts_without_resume :
  let ok := mkTask "A" (fun _ store w => (store, w, None)) in
  let c := mkConfig "/work" EmptyString false EmptyString false EmptyString in
  let w := mkWorld (mkFileSystem ∅ ∅) (fun _ => zeroTime) 0 [] in
  let dp := setTotalTasks (NewDeploymentProgress zeroTime) 2 in
  let r := mkRunner (Some (mkRuntime ∅ c "/work" (Some dp))) [ok; ok] c true "p.json" in
  exists dp', progressOf (out_runner (Run r (mkContext false) w)) = Some dp'
              /\ CompletedTasks dp' = 2
              /\ completedCount (TaskProgress dp') = 1%nat
              /\ saved (out_trace (Run r (mkContext false) w)) = [].
Proof. vm_compute. eexists. repeat split; reflexivity. Qed.

(** ** The progress file: what comes back *)

(** The encoder leaves valid UTF-8 as it is. *)
Lemma coerce_valid (s : string) :
  Utf8.ValidString s = true -> Utf8.coerce s = s.
Proof.
  remember (String.length s) as n eqn:Hn. revert s Hn.
  induction n as [n IH] using lt_wf_ind. intros s Hn Hvalid.
  destruct s as [| b0 r]; [reflexivity |]. simpl in Hn.
  simpl in Hvalid |- *.
  destruct (Utf8.first (N_of_ascii b0)) as [| | size lo hi].
  - f_equal. eapply IH; [| reflexivity | exact Hvalid]. lia.
  - discriminate.
  - destruct r as [| b1 r1]; [discriminate |]. simpl in Hn.
    destruct (Utf8.accepts lo hi b1); simpl in Hvalid |- *; [| discriminate].
    destruct (size <=? 2)%nat.
    { do 2 f_equal. eapply IH; [| reflexivity | exact Hvalid]. lia. }
    destruct r1 as [| b2 r2]; [discriminate |]. simpl in Hn.
    destruct (Utf8.continues b2); simpl in Hvalid |- *; [| discriminate].
    destruct (size <=? 3)%nat.
    { do 3 f_equal. eapply IH; [| reflexivity | exact Hvalid]. lia. }
    destruct r2 as [| b3 r3]; [discriminate |]. simpl in Hn.
    destruct (Utf8.continues b3); simpl in Hvalid |- *; [| discriminate].
    do 4 f_equal. eapply IH; [| reflexivity | exact Hvalid]. lia.
Qed.

(** The encoder changes a string that is not valid UTF-8: a byte that starts
    no rune comes back as the replacement character. *)
Lemma coerce_invalid_byte :
  Utf8.coerce (String (ascii_of_N 255) EmptyString) = Utf8.replacement
  /\ Utf8.replacement <> String (ascii_of_N 255) EmptyString.
Proof. split; [reflexivity | discriminate]. Qed.

(** *** Timestamps *)

Lemma digitVal_digitChar (d : Z) :
  0 <= d <= 9 -> Rfc3339.digitVal (Rfc3339.digitChar d) = Some d.
Proof.
  intros Hd.
  assert (Hcases : d = 0 \/ d = 1 \/ d = 2 \/ d = 3 \/ d = 4 \/ d = 5 \/ d = 6
                   \/ d = 7 \/ d = 8 \/ d = 9) by lia.
  repeat (destruct Hcases as [-> | Hcases]; [reflexivity |]). subst d. reflexivity.
Qed.

Lemma digitsValue_snoc (l : list ascii) (c : ascii) :
  Rfc3339.digitsValue (l ++ [c]) =
    match Rfc3339.digitsValue l, Rfc3339.digitVal c with
    | Some x, Some d => Some (x * 10 + d)
    | _, _ => None
    end.
Proof. unfold Rfc3339.digitsValue. rewrite fold_left_app. reflexivity. Qed.

Lemma digitsValue_fixed (w : nat) :
  forall n, 0 <= n < 10 ^ Z.of_nat w ->
    Rfc3339.digitsValue (Rfc3339.fixedDigits w n) = Some n.
Proof.
  induction w as [| k IH]; intros n Hn.
  - simpl in Hn. assert (n = 0) by lia. subst n. reflexivity.
  - cbn [Rfc3339.fixedDigits]. rewrite digitsValue_snoc.
    rewrite Nat2Z.inj_succ, Z.pow_succ_r in Hn by lia.
    rewrite IH by (split; [apply Z.div_pos; lia | apply Z.div_lt_upper_bound; lia]).
    rewrite digitVal_digitChar by (pose proof (Z.mod_pos_bound n 10); lia).
    f_equal. pose proof (Z.div_mod n 10). lia.
Qed.

Lemma parseUint_fixed (w : nat) (n min max : Z) :
  0 <= n < 10 ^ Z.of_nat w -> min <= n <= max ->
  Rfc3339.parseUint (Rfc3339.fixedDigits w n) min max = Some n.
Proof.
  intros Hn Hrange. unfold Rfc3339.parseUint. rewrite digitsValue_fixed by exact Hn.
  destruct (n <? min) eqn:H1; [lia |]. destruct (max <? n) eqn:H2; [lia |]. reflexivity.
Qed.

Lemma appendInt_small (x : Z) (w : nat) :
  0 <= x < 10 ^ Z.of_nat w -> Rfc3339.appendInt x w = Rfc3339.fixedDigits w x.
Proof.
  intros Hx. unfold Rfc3339.appendInt.
  destruct (x <? 0) eqn:Hneg; [lia |]. rewrite Z.abs_eq by lia.
  destruct (x <? 10 ^ Z.of_nat w) eqn:Hlt; [reflexivity | lia].
Qed.

Lemma fixedDigits_length (w : nat) (n : Z) : length (Rfc3339.fixedDigits w n) = w.
Proof.
  revert n. induction w as [| k IH]; intros n; [reflexivity |].
  cbn [Rfc3339.fixedDigits]. rewrite length_app, IH. simpl. lia.
Qed.

Lemma isDigit_digitChar (d : Z) : 0 <= d <= 9 -> Rfc3339.isDigit (Rfc3339.digitChar d) = true.
Proof. intros Hd. unfold Rfc3339.isDigit. rewrite digitVal_digitChar by exact Hd. reflexivity. Qed.

Lemma fixedDigits_digits (w : nat) (n : Z) :
  Forall (fun c => Rfc3339.isDigit c = true) (Rfc3339.fixedDigits w n).
Proof.
  revert n. induction w as [| k IH]; intros n; [constructor |].
  cbn [Rfc3339.fixedDigits]. apply Forall_app. split; [apply IH |].
  constructor; [| constructor]. apply isDigit_digitChar.
  pose proof (Z.mod_pos_bound n 10). lia.
Qed.

(** Trimming keeps a prefix, and what it drops is zeros. *)
Lemma trimZeros_spec (l : list ascii) :
  exists k, l = rev (Rfc3339.trimZeros (rev l)) ++ repeat "0"%char k.
Proof.
  induction l as [| c l IH] using rev_ind.
  - exists 0%nat. reflexivity.
  - rewrite rev_app_distr. simpl. destruct (Ascii.eqb_spec c "0"%char) as [-> | Hne].
    + destruct IH as (k & IH). exists (S k).
      rewrite IH at 1. rewrite <- app_assoc. f_equal.
      change ["0"%char] with (repeat "0"%char 1). rewrite <- repeat_app.
      f_equal. lia.
    + exists 0%nat. simpl. rewrite rev_involutive, app_nil_r. reflexivity.
Qed.

Lemma digitsValue_zeros (l : list ascii) (k : nat) :
  Rfc3339.digitsValue (l ++ repeat "0"%char k) =
    option_map (fun v => v * 10 ^ Z.of_nat k) (Rfc3339.digitsValue l).
Proof.
  induction k as [| k IH].
  - simpl. rewrite app_nil_r. destruct (Rfc3339.digitsValue l); simpl; [f_equal; lia | reflexivity].
  - replace (repeat "0"%char (S k)) with (repeat "0"%char k ++ ["0"%char]).
    2: { change ["0"%char] with (repeat "0"%char 1). rewrite <- repeat_app.
         f_equal. lia. }
    rewrite app_assoc, digitsValue_snoc, IH.
    destruct (Rfc3339.digitsValue l) as [v |]; simpl; [| reflexivity].
    f_equal. rewrite Nat2Z.inj_succ, Z.pow_succ_r by lia. lia.
Qed.

Lemma spanDigits_app (ds zone : list ascii) :
  Forall (fun c => Rfc3339.isDigit c = true) ds ->
  (match zone with c :: _ => Rfc3339.isDigit c = false | [] => True end) ->
  Rfc3339.spanDigits (ds ++ zone) = (ds, zone).
Proof.
  intros Hds Hzone. induction Hds as [| c ds Hc _ IH]; simpl.
  - destruct zone as [| z zone]; [reflexivity |]. simpl. rewrite Hzone. reflexivity.
  - rewrite Hc, IH. reflexivity.
Qed.

(** The fraction [appendNano] writes, followed by a zone, is read back as
    the same count of nanoseconds, and the zone is what is left. *)
Lemma nanoseconds_round_trip (ns : Z) (zone : list ascii) :
  0 <= ns < 1000000000 ->
  (match zone with c :: _ => Rfc3339.isDigit c = false /\ c <> "."%char | [] => False end) ->
  (let '(nsec, rest) :=
     match Rfc3339.appendNano ns ++ zone with
     | dot :: c :: r =>
         if Ascii.eqb dot "." && Rfc3339.isDigit c
         then let '(ds, rest') := Rfc3339.spanDigits (c :: r) in
              (Rfc3339.parseNanoseconds ds, rest')
         else (0, Rfc3339.appendNano ns ++ zone)
     | _ => (0, Rfc3339.appendNano ns ++ zone)
     end in (nsec, rest)) = (ns, zone).
Proof.
  intros Hns Hzone. unfold Rfc3339.appendNano.
  destruct (ns =? 0) eqn:Hzero.
  - assert (ns = 0) by lia. subst ns. simpl.
    destruct zone as [| z [| c r]]; [contradiction | reflexivity |].
    destruct Hzone as [Hz Hdot]. destruct (Ascii.eqb_spec z "."%char); [contradiction |].
    reflexivity.
  - rewrite appendInt_small by (simpl; lia).
    set (ds := Rfc3339.fixedDigits 9 ns).
    destruct (trimZeros_spec ("."%char :: ds)) as (k & Htrim).
    set (p := rev (Rfc3339.trimZeros (rev ("."%char :: ds)))) in *.
    destruct p as [| dot ds'] eqn:Hp.
    { simpl in Htrim. destruct k; discriminate. }
    simpl in Htrim. injection Htrim as <- Hds.
    assert (Hval : Rfc3339.digitsValue ds = Some ns)
      by (apply digitsValue_fixed; simpl; lia).
    assert (Hdigits : Forall (fun c => Rfc3339.isDigit c = true) ds)
      by apply fixedDigits_digits.
    assert (Hlen : length ds = 9%nat) by apply fixedDigits_length.
    rewrite Hds in Hval, Hdigits, Hlen. rewrite digitsValue_zeros in Hval.
    apply Forall_app in Hdigits. destruct Hdigits as [Hdigits _].
    rewrite length_app, repeat_length in Hlen.
    destruct (Rfc3339.digitsValue ds') as [v |] eqn:Hv; [| discriminate].
    simpl in Hval. injection Hval as Hval.
    destruct ds' as [| c r].
    { simpl in Hv. injection Hv as <-. lia. }
    simpl.
    assert (Hc : Rfc3339.isDigit c = true) by (inversion Hdigits; assumption).
    rewrite Hc.
    rewrite spanDigits_app;
      [| inversion Hdigits; assumption | destruct zone; [exact I | apply Hzone]].
    f_equal. unfold Rfc3339.parseNanoseconds.
    rewrite firstn_all2 by lia. unfold Rfc3339.parseUint. rewrite Hv.
    assert (Hpow : 0 < 10 ^ Z.of_nat k) by (apply Z.pow_pos_nonneg; lia).
    assert (Hv0 : 0 <= v).
    { destruct (Z_lt_le_dec v 0); [| assumption]. nia. }
    destruct (v <? 0) eqn:H1; [lia |].
    destruct (999999999 <? v) eqn:H2; [nia |]. simpl.
    simpl in Hlen. replace (8 - length r)%nat with k by lia. exact Hval.
Qed.

Lemma parseUint_2 (n min max : Z) :
  0 <= n < 100 -> min <= n <= max ->
  Rfc3339.parseUint [Rfc3339.digitChar (n / 10 mod 10); Rfc3339.digitChar (n mod 10)]
                    min max = Some n.
Proof. intros Hn Hr. apply (parseUint_fixed 2 n min max); [simpl; lia | exact Hr]. Qed.

Lemma parseUint_4 (n min max : Z) :
  0 <= n < 10000 -> min <= n <= max ->
  Rfc3339.parseUint [Rfc3339.digitChar (n / 10 / 10 / 10 mod 10);
                     Rfc3339.digitChar (n / 10 / 10 mod 10);
                     Rfc3339.digitChar (n / 10 mod 10);
                     Rfc3339.digitChar (n mod 10)] min max = Some n.
Proof. intros Hn Hr. apply (parseUint_fixed 4 n min max); [simpl; lia | exact Hr]. Qed.

Lemma zone_round_trip (off : Z) :
  -1440 < off < 1440 ->
  Rfc3339.parseZone (Rfc3339.appendZone off) = Some off
  /\ match Rfc3339.appendZone off with
     | c :: _ => Rfc3339.isDigit c = false /\ c <> "."%char
     | [] => False
     end.
Proof.
  intros Hoff. unfold Rfc3339.appendZone.
  destruct (off =? 0) eqn:Hzero.
  - assert (off = 0) by lia. subst off. split; [reflexivity |]. split; [reflexivity | discriminate].
  - assert (Habs : 0 < Z.abs off < 1440) by lia.
    rewrite Z.quot_div_nonneg, Z.rem_mod_nonneg by lia.
    pose proof (Z.div_mod (Z.abs off) 60 ltac:(lia)) as Hdm.
    pose proof (Z.mod_pos_bound (Z.abs off) 60 ltac:(lia)) as Hmod.
    assert (Hdiv : 0 <= Z.abs off / 60 < 24)
      by (split; [apply Z.div_pos; lia | apply Z.div_lt_upper_bound; lia]).
    rewrite !appendInt_small by (simpl; lia).
    cbn [Rfc3339.fixedDigits app]. split.
    + unfold Rfc3339.parseZone.
      rewrite (parseUint_2 (Z.abs off / 60) 0 23) by lia.
      rewrite (parseUint_2 (Z.abs off mod 60) 0 59) by lia.
      destruct (off <? 0) eqn:Hneg; simpl; f_equal; lia.
    + destruct (off <? 0); split; (reflexivity || discriminate).
Qed.

(** A timestamp [Time.MarshalJSON] accepts is marshalled, and unmarshalling
    the text gives the same date, clock reading and zone offset back,
    without the monotonic clock reading. *)
Lemma parse_format (t : Time) :
  encodableTime t ->
  exists text, Rfc3339.format t = Some text /\ Rfc3339.parse text = Some (stripMono t).
Proof.
  intros ((Hmonth & Hday & Hhour & Hmin & Hsec & Hnano) & Hyear & Hoff).
  unfold Rfc3339.format.
  destruct ((year t <? 0) || (9999 <? year t)) eqn:Hy; [lia |].
  destruct (24 <=? Z.quot (Z.abs (offset t)) 60) eqn:Ho.
  { rewrite Z.quot_div_nonneg in Ho by lia.
    assert (Z.abs (offset t) / 60 < 24) by (apply Z.div_lt_upper_bound; lia). lia. }
  eexists. split; [reflexivity |].
  unfold Rfc3339.parse. rewrite list_ascii_of_string_of_list_ascii.
  assert (Hdays : daysIn (month t) (year t) <= 31).
  { unfold daysIn. repeat match goal with |- context [if ?b then _ else _] => destruct b end; lia. }
  rewrite (appendInt_small (year t) 4) by (simpl; lia).
  rewrite (appendInt_small (month t) 2) by (simpl; lia).
  rewrite (appendInt_small (day t) 2) by (simpl; lia).
  rewrite (appendInt_small (hour t) 2) by (simpl; lia).
  rewrite (appendInt_small (minute t) 2) by (simpl; lia).
  rewrite (appendInt_small (second t) 2) by (simpl; lia).
  cbn [Rfc3339.fixedDigits app].
  rewrite (parseUint_4 (year t) 0 9999) by lia.
  rewrite (parseUint_2 (month t) 1 12) by lia.
  rewrite (parseUint_2 (day t) 1 (daysIn (month t) (year t))) by lia.
  rewrite (parseUint_2 (hour t) 0 23) by lia.
  rewrite (parseUint_2 (minute t) 0 59) by lia.
  rewrite (parseUint_2 (second t) 0 59) by lia.
  cbn [Ascii.eqb Bool.eqb andb].
  destruct (zone_round_trip (offset t) Hoff) as [Hzone Hhead].
  pose proof (nanoseconds_round_trip (nanosecond t) (Rfc3339.appendZone (offset t))
                Hnano Hhead) as Hfrac.
  cbv zeta in Hfrac.
  destruct (match Rfc3339.appendNano (nanosecond t) ++ Rfc3339.appendZone (offset t) with
            | dot :: c :: r =>
                if Ascii.eqb dot "." && Rfc3339.isDigit c
                then let '(ds, rest') := Rfc3339.spanDigits (c :: r) in
                     (Rfc3339.parseNanoseconds ds, rest')
                else (0, Rfc3339.appendNano (nanosecond t) ++ Rfc3339.appendZone (offset t))
            | _ => (0, Rfc3339.appendNano (nanosecond t) ++ Rfc3339.appendZone (offset t))
            end) as [nsec rest] eqn:Hmatch.
  injection Hfrac as -> ->. rewrite Hzone. reflexivity.
Qed.

(** *** Documents *)

Lemma marshalTime_round_trip (t : Time) :
  encodableTime t ->
  exists j, Json.marshalTime t = Some j
            /\ forall old, Json.unmarshalTime old j = Some (stripMono t).
Proof.
  intros Ht. destruct (parse_format t Ht) as (text & Hformat & Hparse).
  unfold Json.marshalTime. rewrite Hformat. eexists. split; [reflexivity |].
  intros old. exact Hparse.
Qed.

Lemma unmarshalInt_int (old n : Z) : isInt n -> Json.unmarshalInt old (Json.JInt n) = Some n.
Proof.
  intros [Hlo Hhi]. unfold Json.unmarshalInt.
  destruct (MinInt64 <=? n) eqn:H1; [| lia]. destruct (n <=? MaxInt64) eqn:H2; [| lia].
  reflexivity.
Qed.

(** What each member of a marshalled record sets. *)
Lemma setInfoMember_taskId (info : ProgressInfo) (v : Json.JSON) :
  Json.setInfoMember info ("taskId", v)
  = option_map (fun x => mkProgressInfo x (Name info) (Completed info) (TotalSteps info) (CompletedSteps info) (pi_StartTime info) (pi_EndTime info))
               (Json.unmarshalString (TaskID info) v).
Proof. destruct info. reflexivity. Qed.

Lemma setInfoMember_name (info : ProgressInfo) (v : Json.JSON) :
  Json.setInfoMember info ("name", v)
  = option_map (fun x => mkProgressInfo (TaskID info) x (Completed info) (TotalSteps info) (CompletedSteps info) (pi_StartTime info) (pi_EndTime info))
               (Json.unmarshalString (Name info) v).
Proof. destruct info. reflexivity. Qed.

Lemma setInfoMember_completed (info : ProgressInfo) (v : Json.JSON) :
  Json.setInfoMember info ("completed", v)
  = option_map (fun x => mkProgressInfo (TaskID info) (Name info) x (TotalSteps info) (CompletedSteps info) (pi_StartTime info) (pi_EndTime info))
               (Json.unmarshalBool (Completed info) v).
Proof. destruct info. reflexivity. Qed.

Lemma setInfoMember_totalSteps (info : ProgressInfo) (v : Json.JSON) :
  Json.setInfoMember info ("totalSteps", v)
  = option_map (fun x => mkProgressInfo (TaskID info) (Name info) (Completed info) x (CompletedSteps info) (pi_StartTime info) (pi_EndTime info))
               (Json.unmarshalInt (TotalSteps info) v).
Proof. destruct info. reflexivity. Qed.

Lemma setInfoMember_completedSteps (info : ProgressInfo) (v : Json.JSON) :
  Json.setInfoMember info ("completedSteps", v)
  = option_map (fun x => mkProgressInfo (TaskID info) (Name info) (Completed info) (TotalSteps info) x (pi_StartTime info) (pi_EndTime info))
               (Json.unmarshalInt (CompletedSteps info) v).
Proof. destruct info. reflexivity. Qed.

Lemma setInfoMember_startTime (info : ProgressInfo) (v : Json.JSON) :
  Json.setInfoMember info ("startTime", v)
  = option_map (fun x => mkProgressInfo (TaskID info) (Name info) (Completed info) (TotalSteps info) (CompletedSteps info) x (pi_EndTime info))
               (Json.unmarshalTime (pi_StartTime info) v).
Proof. destruct info. reflexivity. Qed.

Lemma setInfoMember_endTime (info : ProgressInfo) (v : Json.JSON) :
  Json.setInfoMember info ("endTime", v)
  = option_map (fun x => mkProgressInfo (TaskID info) (Name info) (Completed info) (TotalSteps info) (CompletedSteps info) (pi_StartTime info) x)
               (Json.unmarshalTime (pi_EndTime info) v).
Proof. destruct info. reflexivity. Qed.

Lemma info_round_trip (info : ProgressInfo) :
  encodableInfo info ->
  exists j, Json.marshalProgressInfo info = Some j
            /\ Json.unmarshalProgressInfo Json.zeroProgressInfo j = Some (stripInfo info).
Proof.
  intros (Hid & Hname & Htotal & Hsteps & Hst & Het).
  destruct (marshalTime_round_trip _ Hst) as (jst & Hmst & Hust).
  destruct (marshalTime_round_trip _ Het) as (jet & Hmet & Huet).
  unfold Json.marshalProgressInfo. rewrite Hmst, Hmet, !coerce_valid by assumption.
  eexists. split; [reflexivity |].
  unfold Json.unmarshalProgressInfo, Json.foldMembers.
  cbn [fold_left].
  rewrite setInfoMember_taskId. cbn [Json.unmarshalString option_map].
  rewrite setInfoMember_name. cbn [Json.unmarshalString option_map].
  rewrite setInfoMember_completed. cbn [Json.unmarshalBool option_map].
  rewrite setInfoMember_totalSteps, unmarshalInt_int by assumption. cbn [option_map].
  rewrite setInfoMember_completedSteps, unmarshalInt_int by assumption. cbn [option_map].
  rewrite setInfoMember_startTime, Hust. cbn [option_map].
  rewrite setInfoMember_endTime.
  rewrite Huet. reflexivity.
Qed.

Lemma foldMembers_cons {S M : Type} (step : S -> M -> option S) (x : M)
    (members : list M) (init : S) :
  Json.foldMembers step (x :: members) init =
    match step init x with
    | Some s => Json.foldMembers step members s
    | None => None
    end.
Proof.
  unfold Json.foldMembers. simpl. destruct (step init x); [reflexivity |].
  induction members as [| y members IH]; [reflexivity | exact IH].
Qed.

(** The members written for the entries of a map are read back as the same
    entries, in the same order. *)
Lemma entries_round_trip (l : list (string * ProgressInfo)) :
  Forall (fun kv => Utf8.ValidString (fst kv) = true /\ encodableInfo (snd kv)) l ->
  exists js, Json.marshalEntries l = Some js
    /\ forall m0, Json.foldMembers Json.setEntry js m0
                  = Some (fold_left (fun m kv => <[fst kv := stripInfo (snd kv)]> m) l m0).
Proof.
  induction 1 as [| [k info] l [Hk Hinfo] _ IH].
  - exists []. split; [reflexivity |]. intros m0. reflexivity.
  - destruct IH as (js & Hjs & Hfold). simpl in Hk, Hinfo.
    destruct (info_round_trip info Hinfo) as (j & Hj & Hback).
    cbn [Json.marshalEntries]. rewrite Hj, Hjs, (coerce_valid k Hk).
    eexists. split; [reflexivity |]. intros m0.
    rewrite foldMembers_cons. unfold Json.setEntry at 1. rewrite Hback. simpl.
    apply Hfold.
Qed.

Lemma fold_insert_list_to_map (g : ProgressInfo -> ProgressInfo)
    (l : list (string * ProgressInfo)) :
  NoDup (l.*1) ->
  fold_left (fun m kv => <[fst kv := g (snd kv)]> m) l (∅ : gmap string ProgressInfo)
  = g <$> list_to_map l.
Proof.
  induction l as [| [k v] l IH] using rev_ind; intros Hnodup.
  - simpl. rewrite fmap_empty. reflexivity.
  - rewrite fmap_app in Hnodup. apply NoDup_app in Hnodup. destruct Hnodup as (Hl & Hfresh & _).
    rewrite fold_left_app. simpl. rewrite IH by exact Hl.
    rewrite list_to_map_snoc.
    + rewrite fmap_insert. reflexivity.
    + intros Hin. apply (Hfresh k Hin). simpl. left.
Qed.

Lemma taskProgress_round_trip (m : gmap string ProgressInfo) :
  (forall k info, m !! k = Some info -> Utf8.ValidString k = true /\ encodableInfo info) ->
  exists j, Json.marshalTaskProgress (Some m) = Some j
            /\ Json.unmarshalTaskProgress None j = Some (Some (stripInfo <$> m)).
Proof.
  intros Hm. unfold Json.marshalTaskProgress.
  set (l := merge_sort Json.keyLe (map_to_list m)).
  assert (Hperm : l ≡ₚ map_to_list m) by apply merge_sort_Permutation.
  assert (Hall : Forall (fun kv => Utf8.ValidString (fst kv) = true
                                   /\ encodableInfo (snd kv)) l).
  { apply Forall_forall. intros [k info] Hin. simpl. apply Hm.
    rewrite Hperm in Hin. apply elem_of_map_to_list. exact Hin. }
  destruct (entries_round_trip l Hall) as (js & Hjs & Hfold).
  rewrite Hjs. eexists. split; [reflexivity |].
  unfold Json.unmarshalTaskProgress. simpl. rewrite Hfold. simpl. do 2 f_equal.
  rewrite fold_insert_list_to_map.
  - f_equal. rewrite (list_to_map_proper l (map_to_list m)).
    + apply list_to_map_to_list.
    + rewrite Hperm. apply NoDup_fst_map_to_list.
    + exact Hperm.
  - rewrite Hperm. apply NoDup_fst_map_to_list.
Qed.

Lemma setMember_startTime (dp : DeploymentProgress) (v : Json.JSON) :
  Json.setMember dp ("startTime", v)
  = option_map (fun x => mkDeploymentProgress x (EndTime dp) (TotalTasks dp) (CompletedTasks dp) (CurrentTask dp) (TaskProgress dp))
               (Json.unmarshalTime (StartTime dp) v).
Proof. destruct dp. reflexivity. Qed.

Lemma setMember_endTime (dp : DeploymentProgress) (v : Json.JSON) :
  Json.setMember dp ("endTime", v)
  = option_map (fun x => mkDeploymentProgress (StartTime dp) x (TotalTasks dp) (CompletedTasks dp) (CurrentTask dp) (TaskProgress dp))
               (Json.unmarshalTime (EndTime dp) v).
Proof. destruct dp. reflexivity. Qed.

Lemma setMember_totalTasks (dp : DeploymentProgress) (v : Json.JSON) :
  Json.setMember dp ("totalTasks", v)
  = option_map (fun x => mkDeploymentProgress (StartTime dp) (EndTime dp) x (CompletedTasks dp) (CurrentTask dp) (TaskProgress dp))
               (Json.unmarshalInt (TotalTasks dp) v).
Proof. destruct dp. reflexivity. Qed.

Lemma setMember_completedTasks (dp : DeploymentProgress) (v : Json.JSON) :
  Json.setMember dp ("completedTasks", v)
  = option_map (fun x => mkDeploymentProgress (StartTime dp) (EndTime dp) (TotalTasks dp) x (CurrentTask dp) (TaskProgress dp))
               (Json.unmarshalInt (CompletedTasks dp) v).
Proof. destruct dp. reflexivity. Qed.

Lemma setMember_currentTask (dp : DeploymentProgress) (v : Json.JSON) :
  Json.setMember dp ("currentTask", v)
  = option_map (fun x => mkDeploymentProgress (StartTime dp) (EndTime dp) (TotalTasks dp) (CompletedTasks dp) x (TaskProgress dp))
               (Json.unmarshalString (CurrentTask dp) v).
Proof. destruct dp. reflexivity. Qed.

Lemma setMember_taskProgress (dp : DeploymentProgress) (v : Json.JSON) :
  Json.setMember dp ("taskProgress", v)
  = option_map (fun x => mkDeploymentProgress (StartTime dp) (EndTime dp) (TotalTasks dp) (CompletedTasks dp) (CurrentTask dp) x)
               (Json.unmarshalTaskProgress (TaskProgress dp) v).
Proof. destruct dp. reflexivity. Qed.

(** What can be held by the file is marshalled, and unmarshalling the
    document gives it back, timestamps without their monotonic readings. *)
Lemma Marshal_Unmarshal (dp : DeploymentProgress) :
  encodable dp ->
  exists j, Json.Marshal dp = Some j /\ Json.Unmarshal j = Some (stripProgress dp).
Proof.
  intros (Hst & Het & Htotal & Hdone & Hcur & Hmap).
  destruct (marshalTime_round_trip _ Hst) as (jst & Hmst & Hust).
  destruct (marshalTime_round_trip _ Het) as (jet & Hmet & Huet).
  assert (Htp : exists j, Json.marshalTaskProgress (TaskProgress dp) = Some j
                  /\ Json.unmarshalTaskProgress None j
                     = Some (fmap (M := option) (fmap (M := gmap string) stripInfo)
                                  (TaskProgress dp))).
  { destruct (TaskProgress dp) as [m |] eqn:Hm.
    - apply taskProgress_round_trip. intros k info Hk. exact (Hmap m k info eq_refl Hk).
    - exists Json.JNull. split; reflexivity. }
  destruct Htp as (jtp & Hmtp & Hutp).
  unfold Json.Marshal. rewrite Hmst, Hmet, Hmtp, (coerce_valid _ Hcur).
  eexists. split; [reflexivity |].
  unfold Json.Unmarshal, Json.foldMembers, Json.zeroDeploymentProgress.
  cbn [fold_left].
  rewrite setMember_startTime, Hust. cbn [option_map].
  rewrite setMember_endTime, Huet. cbn [option_map].
  rewrite setMember_totalTasks, unmarshalInt_int by assumption. cbn [option_map].
  rewrite setMember_completedTasks, unmarshalInt_int by assumption. cbn [option_map].
  rewrite setMember_currentTask. cbn [Json.unmarshalString option_map].
  rewrite setMember_taskProgress.
  cbn [TaskProgress]. rewrite Hutp. reflexivity.
Qed.

(** C3, as amended. When the progress model is one the file can hold (its
    strings are valid UTF-8, its timestamps have a year within [0,9999] and
    a zone under 24 hours) and [SaveProgressToFile] has succeeded on a path,
    [LoadProgressFromFile] on that path returns, with no error, a progress
    model equal to the original in every field, the timestamps being the
    same dates, clock readings and zone offsets without their monotonic
    clock readings. *)
Theorem persist_then_restore (dp : DeploymentProgress) (filePath : string)
    (f f' : FileSystem) (w : World) :
  encodable dp ->
  SaveProgressToFile dp filePath f = (f', None) ->
  fs w = f' ->
  LoadProgressFromFile filePath w = (w, inr (stripProgress dp)).
Proof.
  intros Henc Hsave Hfs.
  destruct (Marshal_Unmarshal dp Henc) as (j & Hmarshal & Hunmarshal).
  unfold SaveProgressToFile in Hsave. rewrite Hmarshal in Hsave.
  destruct (MkdirAll f (filepath_Dir filePath)) as [f1 [err |]] eqn:Hmkdir;
    [discriminate |].
  unfold WriteFile in Hsave.
  destruct (decide (filePath ∈ denied f1)) as [Hden | Hok]; [discriminate |].
  assert (Hnodes : nodes f' = <[filePath := File (Document j)]> (nodes f1)
                   /\ denied f' = denied f1).
  { destruct (nodes f1 !! filePath) as [[c |] |]; try discriminate;
      injection Hsave as <-; split; reflexivity. }
  destruct Hnodes as [Hnodes Hdenied].
  unfold LoadProgressFromFile, notExist, ReadFile. rewrite Hfs, Hdenied.
  destruct (decide (filePath ∈ denied f1)); [contradiction |].
  rewrite Hnodes, lookup_insert_eq, Hunmarshal. reflexivity.
Qed.

(** The restored model is the original where no timestamp carries a
    monotonic clock reading. *)
Lemma stripMono_without_reading (t : Time) : mono t = None -> stripMono t = t.
Proof. destruct t. simpl. intros ->. reflexivity. Qed.

(** ** The progress bar *)

Lemma barCell_below (w i : Z) : i < w -> barCell w i = "=".
Proof. intros H. unfold barCell. destruct (i <? w) eqn:E; [reflexivity | lia]. Qed.

Lemma barCell_above (w i : Z) : w < i -> barCell w i = " ".
Proof.
  intros H. unfold barCell. destruct (i <? w) eqn:E; [lia |].
  destruct (i =? w) eqn:E'; [lia | reflexivity].
Qed.

(** The loop draws the bar of the specification whenever the computed width
    is not negative: [=] in the cells before it, [>] in the cell at it when
    it is inside the bar, spaces after. *)
Lemma progressBar_shape (w : Z) : 0 <= w -> progressBar w = barOf (clampWidth w).
Proof.
  intros Hw. unfold clampWidth, width.
  destruct (Z_lt_le_dec w 30) as [Hlt | Hge].
  - rewrite Z.max_l, Z.min_l by lia.
    assert (Hcases : w = 0 \/ w = 1 \/ w = 2 \/ w = 3 \/ w = 4 \/ w = 5 \/ w = 6 \/ w = 7
              \/ w = 8 \/ w = 9 \/ w = 10 \/ w = 11 \/ w = 12 \/ w = 13 \/ w = 14
              \/ w = 15 \/ w = 16 \/ w = 17 \/ w = 18 \/ w = 19 \/ w = 20 \/ w = 21
              \/ w = 22 \/ w = 23 \/ w = 24 \/ w = 25 \/ w = 26 \/ w = 27 \/ w = 28
              \/ w = 29) by lia.
    repeat (destruct Hcases as [-> | Hcases]; [vm_compute; reflexivity |]).
    subst w. vm_compute. reflexivity.
  - rewrite Z.max_l, Z.min_r by lia.
    unfold progressBar, width. change (Z.to_nat 30) with 30%nat.
    cbn [seq fold_left].
    rewrite !barCell_below by (simpl; lia). reflexivity.
Qed.

(** A negative width, which no progress within the task list yields, would
    draw an empty bar without the marker. *)
Lemma progressBar_negative (w : Z) :
  w < 0 -> progressBar w = "[" +:+ repeat_string 30 " " +:+ "]".
Proof.
  intros Hw. unfold progressBar, width. change (Z.to_nat 30) with 30%nat.
  cbn [seq fold_left].
  rewrite !barCell_above by (simpl; lia). reflexivity.
Qed.


(** ** Magnitudes of [float64] values

    Bounds by powers of two that rounding to nearest keeps, for the
    conversion of integers, the product and the quotient. *)

Lemma fexp_eq (e : Z) : fexp prec emax e = Z.max (e - 53) (-1074).
Proof. reflexivity. Qed.

Lemma shr_1_m (mrs : shr_record) :
  0 <= shr_m mrs -> shr_m (shr_1 mrs) = shr_m mrs / 2.
Proof.
  destruct mrs as [m r s]. simpl. intros Hm.
  destruct m as [| p | p]; [reflexivity | | lia].
  destruct p as [p | p |]; simpl.
  - rewrite Pos2Z.inj_xI. apply Z.div_unique with (r := 1); lia.
  - rewrite Pos2Z.inj_xO. apply Z.div_unique with (r := 0); lia.
  - reflexivity.
Qed.

Lemma iter_pos_shr (p : positive) :
  forall mrs, 0 <= shr_m mrs ->
    shr_m (SpecFloat.iter_pos shr_1 p mrs) = shr_m mrs / 2 ^ Z.pos p.
Proof.
  assert (Hstep : forall mrs, 0 <= shr_m mrs -> 0 <= shr_m (shr_1 mrs)).
  { intros mrs H. rewrite shr_1_m by exact H. apply Z.div_pos; lia. }
  induction p as [p IH | p IH |]; intros mrs Hm; cbn [SpecFloat.iter_pos].
  - assert (H1 : 0 <= shr_m (shr_1 mrs)) by auto.
    assert (H2 : 0 <= shr_m (SpecFloat.iter_pos shr_1 p (shr_1 mrs))).
    { rewrite IH by exact H1. apply Z.div_pos; [exact H1 | apply Z.pow_pos_nonneg; lia]. }
    rewrite IH by exact H2. rewrite IH by exact H1. rewrite shr_1_m by exact Hm.
    rewrite !Z.div_div by (try apply Z.pow_pos_nonneg; lia).
    f_equal.
    assert (Hpow : 2 ^ Z.pos p~1 = 2 * 2 ^ Z.pos p * 2 ^ Z.pos p).
    { replace (Z.pos p~1) with (1 + Z.pos p + Z.pos p) by lia.
      rewrite !Z.pow_add_r by lia. lia. }
    rewrite Hpow. lia.
  - assert (H2 : 0 <= shr_m (SpecFloat.iter_pos shr_1 p mrs)).
    { rewrite IH by exact Hm. apply Z.div_pos; [exact Hm | apply Z.pow_pos_nonneg; lia]. }
    rewrite IH by exact H2. rewrite IH by exact Hm.
    rewrite !Z.div_div by (try apply Z.pow_pos_nonneg; lia).
    f_equal.
    assert (Hpow : 2 ^ Z.pos p~0 = 2 ^ Z.pos p * 2 ^ Z.pos p).
    { replace (Z.pos p~0) with (Z.pos p + Z.pos p) by lia.
      rewrite !Z.pow_add_r by lia. lia. }
    rewrite Hpow. lia.
  - rewrite shr_1_m by exact Hm. rewrite Z.pow_1_r. reflexivity.
Qed.

Lemma shr_record_of_loc_m (m : Z) (l : location) : shr_m (shr_record_of_loc m l) = m.
Proof. destruct l as [| []]; reflexivity. Qed.

(** [shr_fexp] divides the mantissa by a power of two and raises the exponent as much. *)
Lemma shr_fexp_spec (m e : Z) (l : location) :
  0 <= m ->
  let n := Z.max 0 (fexp prec emax (Zdigits2 m + e) - e) in
  shr_m (fst (shr_fexp prec emax m e l)) = m / 2 ^ n
  /\ snd (shr_fexp prec emax m e l) = e + n.
Proof.
  intros Hm n. unfold shr_fexp, shr. subst n.
  destruct (fexp prec emax (Zdigits2 m + e) - e) as [| p | p] eqn:Hn; simpl.
  - rewrite shr_record_of_loc_m, Z.div_1_r. split; [reflexivity | lia].
  - rewrite iter_pos_shr by (rewrite shr_record_of_loc_m; exact Hm).
    rewrite shr_record_of_loc_m. split; [reflexivity | lia].
  - rewrite shr_record_of_loc_m, Z.div_1_r. split; [reflexivity | lia].
Qed.

Lemma round_nearest_even_bounds (m : Z) (l : location) :
  m <= round_nearest_even m l <= m + 1.
Proof.
  unfold round_nearest_even. destruct l as [| []]; try lia.
  destruct (Z.even m); lia.
Qed.

Lemma digits2_pos_size (p : positive) : digits2_pos p = Pos.size p.
Proof. induction p as [p IH | p IH |]; simpl; congruence. Qed.

Lemma Zdigits2_bounds (m : Z) :
  0 < m -> 2 ^ (Zdigits2 m - 1) <= m < 2 ^ Zdigits2 m.
Proof.
  intros Hm. destruct m as [| p | p]; try lia.
  change (Zdigits2 (Z.pos p)) with (Z.pos (digits2_pos p)). rewrite digits2_pos_size.
  pose proof (Pos.size_gt p) as Hgt. pose proof (Pos.size_le p) as Hle.
  apply Pos2Z.pos_lt_pos in Hgt. apply Pos2Z.pos_le_pos in Hle.
  rewrite Pos2Z.inj_pow in Hgt, Hle. change (Z.pos p~0) with (2 * Z.pos p) in Hle.
  split; [| exact Hgt].
  assert (Hsz : 1 <= Z.pos (Pos.size p)) by lia.
  replace (Z.pos (Pos.size p)) with (1 + (Z.pos (Pos.size p) - 1)) in Hle by lia.
  rewrite Z.pow_add_r in Hle by lia. rewrite Z.pow_1_r in Hle. lia.
Qed.

Lemma Zdigits2_nonneg (m : Z) : 0 <= Zdigits2 m.
Proof. destruct m; simpl; lia. Qed.

(** A number below [2 ^ u] has at most [u] digits. *)
Lemma Zdigits2_le (m u : Z) : 0 <= m < 2 ^ u -> Zdigits2 m <= u.
Proof.
  intros [Hm Hu]. destruct (Z.eq_dec m 0) as [-> | Hne].
  - simpl. destruct (Z_lt_le_dec u 0) as [Hneg | Hpos]; [| exact Hpos].
    rewrite Z.pow_neg_r in Hu by exact Hneg. lia.
  - pose proof (Zdigits2_bounds m ltac:(lia)) as [Hlo _].
    destruct (Z_lt_le_dec u (Zdigits2 m)) as [Hlt | Hle]; [| exact Hle].
    assert (2 ^ u <= 2 ^ (Zdigits2 m - 1)).
    { destruct (Z_lt_le_dec u 0) as [Hneg | Hpos].
      - rewrite Z.pow_neg_r in Hu by exact Hneg. lia.
      - apply Z.pow_le_mono_r; lia. }
    lia.
Qed.

(** A number from [2 ^ v] on has more than [v] digits. *)
Lemma Zdigits2_gt (m v : Z) : 0 <= v -> 2 ^ v <= m -> v < Zdigits2 m.
Proof.
  intros Hv Hm. assert (0 < 2 ^ v) by (apply Z.pow_pos_nonneg; lia).
  pose proof (Zdigits2_bounds m ltac:(lia)) as [_ Hhi].
  destruct (Z_lt_le_dec v (Zdigits2 m)) as [Hlt | Hle]; [exact Hlt |].
  assert (2 ^ Zdigits2 m <= 2 ^ v) by (apply Z.pow_le_mono_r; lia). lia.
Qed.

Lemma pow2_pos (a : Z) : 0 <= a -> 0 < 2 ^ a.
Proof. intros. apply Z.pow_pos_nonneg; lia. Qed.

Lemma pow2_exponent_nonneg (a m : Z) : 0 < m -> m <= 2 ^ a -> 0 <= a.
Proof.
  intros Hm Hle. destruct (Z_lt_le_dec a 0) as [Hneg | Hok]; [| exact Hok].
  rewrite Z.pow_neg_r in Hle by exact Hneg. lia.
Qed.

Lemma pow2_split (a n : Z) : 0 <= n <= a -> 2 ^ a = 2 ^ (a - n) * 2 ^ n.
Proof. intros H. rewrite <- Z.pow_add_r by lia. f_equal. lia. Qed.

(** Rounding a value below [2 ^ B] gives a value of [2 ^ B] at most. *)
Lemma round_aux_upper (mx ex B : Z) (lx : location) :
  0 <= mx < 2 ^ (B - ex) -> -1074 <= B <= 971 ->
  atMost B (binary_round_aux prec emax false mx ex lx).
Proof.
  intros [Hmx Hlt] [HBlo HBhi]. unfold binary_round_aux.
  pose proof (shr_fexp_spec mx ex lx Hmx) as [Hm1 He1].
  destruct (shr_fexp prec emax mx ex lx) as [mrs1 e1]. simpl in Hm1, He1.
  set (n1 := Z.max 0 (fexp prec emax (Zdigits2 mx + ex) - ex)) in *.
  assert (Hn1 : 0 <= n1) by lia.
  assert (Hm1pos : 0 <= shr_m mrs1).
  { rewrite Hm1. apply Z.div_pos; [exact Hmx | apply pow2_pos; exact Hn1]. }
  pose proof (round_nearest_even_bounds (shr_m mrs1) (loc_of_shr_record mrs1)) as Hround.
  set (m2 := round_nearest_even (shr_m mrs1) (loc_of_shr_record mrs1)) in *.
  assert (Hm2pos : 0 <= m2) by lia.
  pose proof (shr_fexp_spec m2 e1 loc_Exact Hm2pos) as [Hm3 He3].
  destruct (shr_fexp prec emax m2 e1 loc_Exact) as [mrs3 e3]. simpl in Hm3, He3.
  set (n2 := Z.max 0 (fexp prec emax (Zdigits2 m2 + e1) - e1)) in *.
  assert (Hn2 : 0 <= n2) by lia.
  assert (Hex : 0 <= B - ex).
  { destruct (Z_lt_le_dec (B - ex) 0) as [Hneg | Hok]; [| exact Hok].
    rewrite Z.pow_neg_r in Hlt by exact Hneg. lia. }
  assert (He1B : e1 <= B).
  { pose proof (Zdigits2_le mx (B - ex) (conj Hmx Hlt)) as Hd.
    rewrite He1. unfold n1. rewrite fexp_eq. lia. }
  assert (Hm1lt : shr_m mrs1 < 2 ^ (B - e1)).
  { rewrite Hm1. apply Z.div_lt_upper_bound; [apply pow2_pos; exact Hn1 |].
    assert (Heq : 2 ^ (B - ex) = 2 ^ n1 * 2 ^ (B - e1))
      by (rewrite <- Z.pow_add_r by lia; f_equal; lia).
    rewrite <- Heq. exact Hlt. }
  assert (Hm2le : m2 <= 2 ^ (B - e1)) by lia.
  destruct (shr_m mrs3) as [| m3 | m3] eqn:Hm3eq.
  - exact I.
  - assert (Hge : 2 ^ n2 <= m2).
    { destruct (Z_lt_le_dec m2 (2 ^ n2)) as [Hsmall | Hbig]; [| exact Hbig].
      rewrite Z.div_small in Hm3 by lia. discriminate. }
    assert (Hn2le : n2 <= B - e1).
    { apply (Z.pow_le_mono_r_iff 2); lia. }
    assert (Hm3le : Z.pos m3 <= 2 ^ (B - e3)).
    { rewrite Hm3. replace (B - e3) with (B - e1 - n2) by lia.
      rewrite Z.pow_sub_r by lia.
      apply Z.div_le_mono; [apply pow2_pos; exact Hn2 | exact Hm2le]. }
    assert (He3le : e3 <= 971) by lia.
    change (emax - prec) with 971.
    destruct (e3 <=? 971) eqn:Hcheck; [exact Hm3le | lia].
  - assert (0 <= m2 / 2 ^ n2) by (apply Z.div_pos; [exact Hm2pos | apply pow2_pos; exact Hn2]).
    rewrite <- Hm3 in H. lia.
Qed.

(** Rounding a value in [[2 ^ A, 2 ^ (A + 1))], in the normal range, gives a
    value of [2 ^ A] at least. *)
Lemma round_aux_lower (mx ex A : Z) (lx : location) :
  0 <= A - ex -> 2 ^ (A - ex) <= mx < 2 ^ (A + 1 - ex) -> -1022 <= A <= 970 ->
  atLeast A (binary_round_aux prec emax false mx ex lx).
Proof.
  intros Hex [Hlo Hhi] [HAlo HAhi]. unfold binary_round_aux.
  assert (Hpow : 0 < 2 ^ (A - ex)) by (apply pow2_pos; exact Hex).
  assert (Hmx : 0 <= mx) by lia.
  assert (HD : Zdigits2 mx = A + 1 - ex).
  { pose proof (Zdigits2_le mx (A + 1 - ex) (conj Hmx Hhi)).
    pose proof (Zdigits2_gt mx (A - ex) Hex Hlo). lia. }
  pose proof (shr_fexp_spec mx ex lx Hmx) as [Hm1 He1].
  destruct (shr_fexp prec emax mx ex lx) as [mrs1 e1]. simpl in Hm1, He1.
  rewrite HD, fexp_eq in Hm1, He1.
  set (n1 := Z.max 0 (Z.max (A + 1 - ex + ex - 53) (-1074) - ex)) in *.
  assert (Hn1 : 0 <= n1) by lia.
  assert (He1A : 0 <= A - e1 /\ A - 52 <= e1) by lia.
  assert (Hm1lo : 2 ^ (A - e1) <= shr_m mrs1).
  { rewrite Hm1. apply Z.div_le_lower_bound; [apply pow2_pos; exact Hn1 |].
    assert (Heq : 2 ^ (A - ex) = 2 ^ n1 * 2 ^ (A - e1))
      by (rewrite <- Z.pow_add_r by lia; f_equal; lia).
    rewrite <- Heq. exact Hlo. }
  assert (Hm1hi : shr_m mrs1 < 2 ^ (A + 1 - e1)).
  { rewrite Hm1. apply Z.div_lt_upper_bound; [apply pow2_pos; exact Hn1 |].
    assert (Heq : 2 ^ (A + 1 - ex) = 2 ^ n1 * 2 ^ (A + 1 - e1))
      by (rewrite <- Z.pow_add_r by lia; f_equal; lia).
    rewrite <- Heq. exact Hhi. }
  pose proof (round_nearest_even_bounds (shr_m mrs1) (loc_of_shr_record mrs1)) as Hround.
  set (m2 := round_nearest_even (shr_m mrs1) (loc_of_shr_record mrs1)) in *.
  assert (Hpow1 : 0 < 2 ^ (A - e1)) by (apply pow2_pos; lia).
  assert (Hm2pos : 0 <= m2) by lia.
  assert (Hm2hi : m2 < 2 ^ (A + 2 - e1)).
  { replace (A + 2 - e1) with (1 + (A + 1 - e1)) by lia.
    rewrite Z.pow_add_r, Z.pow_1_r by lia.
    assert (0 < 2 ^ (A + 1 - e1)) by (apply pow2_pos; lia). lia. }
  pose proof (Zdigits2_le m2 (A + 2 - e1) (conj Hm2pos Hm2hi)) as HD2.
  pose proof (shr_fexp_spec m2 e1 loc_Exact Hm2pos) as [Hm3 He3].
  destruct (shr_fexp prec emax m2 e1 loc_Exact) as [mrs3 e3]. simpl in Hm3, He3.
  rewrite fexp_eq in Hm3, He3.
  set (n2 := Z.max 0 (Z.max (Zdigits2 m2 + e1 - 53) (-1074) - e1)) in *.
  assert (Hn2 : n2 = 0 \/ (n2 = 1 /\ 52 <= A - e1)) by lia.
  assert (Hm3lo : e3 <= A /\ 2 ^ (A - e3) <= shr_m mrs3).
  { destruct Hn2 as [Hn2 | [Hn2 Hroom]]; rewrite Hn2 in *.
    - rewrite Z.pow_0_r, Z.div_1_r in Hm3. rewrite Hm3.
      replace (A - e3) with (A - e1) by lia. split; lia.
    - rewrite Z.pow_1_r in Hm3. rewrite Hm3. split; [lia |].
      apply Z.div_le_lower_bound; [lia |].
      replace (A - e1) with (1 + (A - e3)) in Hm1lo by lia.
      rewrite Z.pow_add_r, Z.pow_1_r in Hm1lo by lia. lia. }
  destruct Hm3lo as [He3A Hm3lo].
  assert (Hpow3 : 0 < 2 ^ (A - e3)) by (apply pow2_pos; lia).
  destruct (shr_m mrs3) as [| m3 | m3]; try lia.
  change (emax - prec) with 971.
  destruct (e3 <=? 971) eqn:Hcheck; [| lia]. split; assumption.
Qed.

Lemma iter_xO (m d : positive) : Z.pos (Pos.iter xO m d) = Z.pos m * 2 ^ Z.pos d.
Proof.
  induction d as [| d IH] using Pos.peano_ind.
  - simpl. lia.
  - rewrite Pos.iter_succ, Pos2Z.inj_xO, IH, Pos2Z.inj_succ, Z.pow_succ_r by lia. lia.
Qed.

(** [shl_align] keeps the value and lowers the exponent to the one asked for. *)
Lemma shl_align_spec (mx : positive) (ex ex' : Z) :
  snd (shl_align mx ex ex') = Z.min ex ex'
  /\ Z.pos (fst (shl_align mx ex ex')) = Z.pos mx * 2 ^ (ex - Z.min ex ex').
Proof.
  unfold shl_align. destruct (ex' - ex) as [| d | d] eqn:Hd; cbn [fst snd].
  - replace (Z.min ex ex') with ex by lia. rewrite Z.sub_diag, Z.pow_0_r. split; lia.
  - replace (Z.min ex ex') with ex by lia. rewrite Z.sub_diag, Z.pow_0_r. split; lia.
  - replace (Z.min ex ex') with ex' by lia. split; [reflexivity |].
    rewrite iter_xO. f_equal. f_equal. lia.
Qed.

(** The conversion of an integer below [2 ^ B]. *)
Lemma float64_of_int_upper (k B : Z) :
  0 <= k < 2 ^ B -> 0 <= B <= 971 -> atMost B (float64_of_int k).
Proof.
  intros [Hk Hlt] HB. unfold float64_of_int, binary_normalize.
  destruct k as [| p | p]; [exact I | | lia].
  unfold binary_round.
  pose proof (shl_align_spec p 0 (fexp prec emax (Z.pos (digits2_pos p) + 0))) as [He Hm].
  destruct (shl_align p 0 (fexp prec emax (Z.pos (digits2_pos p) + 0))) as [mz ez].
  cbn [fst snd] in He, Hm. apply round_aux_upper; [| lia].
  split; [lia |]. rewrite Hm.
  assert (Hez : ez <= 0) by lia.
  replace (B - ez) with (B + (0 - ez)) by lia. rewrite Z.pow_add_r by lia.
  assert (HP : 0 < 2 ^ (0 - ez)) by (apply pow2_pos; lia).
  rewrite He in *. nia.
Qed.

(** The conversion of a positive integer of [d] digits, an [int] at most. *)
Lemma float64_of_int_lower (n : Z) :
  0 < n -> Zdigits2 n <= 64 -> atLeast (Zdigits2 n - 1) (float64_of_int n).
Proof.
  intros Hn Hd. unfold float64_of_int, binary_normalize.
  destruct n as [| p | p]; try lia.
  pose proof (Zdigits2_bounds (Z.pos p) Hn) as [Hlo Hhi].
  change (Zdigits2 (Z.pos p)) with (Z.pos (digits2_pos p)) in *.
  set (d := Z.pos (digits2_pos p)) in *.
  unfold binary_round. fold d.
  pose proof (shl_align_spec p 0 (fexp prec emax (d + 0))) as [He Hm].
  destruct (shl_align p 0 (fexp prec emax (d + 0))) as [mz ez].
  cbn [fst snd] in He, Hm. rewrite fexp_eq in He, Hm.
  assert (Hd1 : 1 <= d) by (unfold d; lia).
  assert (Hez : ez <= 0 /\ ez <= d - 1) by lia.
  assert (HP : 0 < 2 ^ (0 - ez)) by (apply pow2_pos; lia).
  apply round_aux_lower; [lia | | lia].
  rewrite Hm, <- He. split.
  - replace (d - 1 - ez) with (d - 1 + (0 - ez)) by lia. rewrite Z.pow_add_r by lia.
    nia.
  - replace (d - 1 + 1 - ez) with (d + (0 - ez)) by lia. rewrite Z.pow_add_r by lia.
    nia.
Qed.

Lemma atMost_mono (B B' : Z) (x : float64) : B <= B' -> atMost B x -> atMost B' x.
Proof.
  intros HB. destruct x as [[] | | | [] m e]; simpl; try tauto.
  intros Hm. pose proof (pow2_exponent_nonneg (B - e) (Z.pos m) ltac:(lia) Hm).
  assert (2 ^ (B - e) <= 2 ^ (B' - e)) by (apply Z.pow_le_mono_r; lia). lia.
Qed.

Lemma atMost_strict (B : Z) (m : positive) (e : Z) :
  atMost B (S754_finite false m e) -> Z.pos m < 2 ^ (B + 1 - e).
Proof.
  simpl. intros Hm. pose proof (pow2_exponent_nonneg (B - e) (Z.pos m) ltac:(lia) Hm).
  replace (B + 1 - e) with (1 + (B - e)) by lia. rewrite Z.pow_add_r, Z.pow_1_r by lia.
  lia.
Qed.

(** The quotient of a value below [2 ^ Bx] by a value of [2 ^ Ay] at least. *)
Lemma fdiv_finite_upper (mx : positive) (ex : Z) (my : positive) (ey Bx Ay : Z) :
  Z.pos mx < 2 ^ (Bx - ex) ->
  ey <= Ay -> 2 ^ (Ay - ey) <= Z.pos my ->
  -1074 <= Bx - Ay <= 971 ->
  atMost (Bx - Ay) (fdiv (S754_finite false mx ex) (S754_finite false my ey)).
Proof.
  intros Hx Hey Hy HB. unfold fdiv, SFdiv, SFdiv_core_binary.
  set (d1 := Zdigits2 (Z.pos mx)). set (d2 := Zdigits2 (Z.pos my)).
  set (e' := Z.min (fexp prec emax (d1 + ex - (d2 + ey))) (ex - ey)).
  set (s := ex - ey - e').
  assert (Hs : 0 <= s) by (unfold s, e'; lia).
  assert (Hux : 0 <= Bx - ex) by (apply (pow2_exponent_nonneg _ (Z.pos mx)); lia).
  assert (Hd1 : d1 <= Bx - ex) by (apply Zdigits2_le; lia).
  assert (Hd2 : Ay - ey < d2) by (apply Zdigits2_gt; lia).
  assert (He' : e' <= Bx - Ay) by (unfold e'; rewrite fexp_eq; lia).
  set (m' := match s with
             | 0 => Z.pos mx
             | Z.pos _ => Z.shiftl (Z.pos mx) s
             | Z.neg _ => 0
             end).
  assert (Hm' : m' = Z.pos mx * 2 ^ s).
  { unfold m'. destruct s as [| p | p] eqn:Hseq.
    - rewrite Z.pow_0_r. lia.
    - rewrite Z.shiftl_mul_pow2 by lia. reflexivity.
    - lia. }
  assert (Hdiv : Z.div_eucl m' (Z.pos my) = (m' / Z.pos my, m' mod Z.pos my)).
  { unfold Z.div, Z.modulo. destruct (Z.div_eucl m' (Z.pos my)). reflexivity. }
  rewrite Hdiv. simpl xorb.
  apply round_aux_upper; [| exact HB].
  assert (Hps : 0 < 2 ^ s) by (apply pow2_pos; exact Hs).
  assert (Hpy : 0 < 2 ^ (Ay - ey)) by (apply pow2_pos; lia).
  split; [apply Z.div_pos; lia |].
  apply Z.div_lt_upper_bound; [lia |].
  assert (Hm'lt : m' < 2 ^ (Bx - ex + s)).
  { rewrite Hm', Z.pow_add_r by lia. nia. }
  assert (Heq : 2 ^ (Bx - ex + s) = 2 ^ (Ay - ey) * 2 ^ (Bx - Ay - e')).
  { rewrite <- Z.pow_add_r by lia. f_equal. unfold s. lia. }
  assert (Hpq : 0 < 2 ^ (Bx - Ay - e')) by (apply pow2_pos; lia).
  nia.
Qed.

Lemma fdiv_atMost (Bx Ay : Z) (x y : float64) :
  atMost Bx x -> atLeast Ay y -> -1074 <= Bx + 1 - Ay <= 971 ->
  atMost (Bx + 1 - Ay) (fdiv x y).
Proof.
  intros Hx Hy HB.
  destruct y as [| | | [] my ey]; simpl in Hy; try contradiction.
  destruct Hy as [Hey Hy].
  destruct x as [[] | | | [] mx ex]; try contradiction.
  - exact I.
  - apply fdiv_finite_upper; try assumption. apply atMost_strict. exact Hx.
Qed.

Lemma fmul_atMost (Bx By : Z) (x y : float64) :
  atMost Bx x -> atMost By y -> -1074 <= Bx + By + 2 <= 971 ->
  atMost (Bx + By + 2) (fmul x y).
Proof.
  intros Hx Hy HB.
  destruct x as [[] | | | [] mx ex]; try contradiction;
    destruct y as [[] | | | [] my ey]; try contradiction; try exact I.
  apply atMost_strict in Hx, Hy. unfold fmul, SFmul. simpl xorb.
  assert (Hux : 0 <= Bx + 1 - ex) by (apply (pow2_exponent_nonneg _ (Z.pos mx)); lia).
  assert (Huy : 0 <= By + 1 - ey) by (apply (pow2_exponent_nonneg _ (Z.pos my)); lia).
  apply round_aux_upper; [| exact HB].
  split; [lia |]. rewrite Pos2Z.inj_mul.
  replace (Bx + By + 2 - (ex + ey)) with ((Bx + 1 - ex) + (By + 1 - ey)) by lia.
  rewrite Z.pow_add_r by lia. nia.
Qed.

(** The integer part of a value of [2 ^ B] at most. *)
Lemma truncate_atMost (B : Z) (x : float64) :
  0 <= B -> atMost B x -> exists z, truncate x = Some z /\ 0 <= z <= 2 ^ B.
Proof.
  intros HB Hx. assert (0 < 2 ^ B) by (apply pow2_pos; exact HB).
  destruct x as [[] | | | [] m e]; try contradiction.
  - exists 0. split; [reflexivity | lia].
  - simpl in Hx. pose proof (pow2_exponent_nonneg (B - e) (Z.pos m) ltac:(lia) Hx) as Hu.
    unfold truncate. destruct (0 <=? e) eqn:He.
    + eexists. split; [reflexivity |].
      assert (0 < 2 ^ e) by (apply pow2_pos; lia).
      assert (Heq : 2 ^ B = 2 ^ (B - e) * 2 ^ e)
        by (rewrite <- Z.pow_add_r by lia; f_equal; lia).
      rewrite Heq. nia.
    + eexists. split; [reflexivity |].
      assert (Hp : 0 < 2 ^ (- e)) by (apply pow2_pos; lia).
      split; [apply Z.div_pos; lia |].
      apply Z.div_le_upper_bound; [exact Hp |].
      assert (Heq : 2 ^ (B - e) = 2 ^ (- e) * 2 ^ B)
        by (rewrite <- Z.pow_add_r by lia; f_equal; lia).
      rewrite <- Heq. exact Hx.
Qed.

Lemma floorOf_atMost (B : Z) (x : float64) : atMost B x -> floorOf x = truncate x.
Proof. destruct x as [[] | | | [] m e]; simpl; try tauto. Qed.

Lemma int_of_float64_atMost (B : Z) (x : float64) :
  0 <= B <= 62 -> atMost B x ->
  floorOf x = Some (int_of_float64 x) /\ 0 <= int_of_float64 x <= 2 ^ B.
Proof.
  intros HB Hx. rewrite (floorOf_atMost B x Hx).
  destruct (truncate_atMost B x ltac:(lia) Hx) as (z & Hz & Hr).
  assert (2 ^ B <= 2 ^ 62) by (apply Z.pow_le_mono_r; lia).
  assert (Hin : ((MinInt64 <=? z) && (z <=? MaxInt64)) = true).
  { unfold MinInt64, MaxInt64. apply andb_true_intro. split; apply Z.leb_le; lia. }
  unfold int_of_float64. rewrite Hz, Hin. split; [reflexivity | exact Hr].
Qed.

Lemma hundred_atMost : atMost 7 (float64_of_int 100).
Proof. vm_compute. discriminate. Qed.

Lemma hundred_atLeast : atLeast 6 (float64_of_int 100).
Proof. vm_compute. split; discriminate. Qed.

Lemma thirty_atMost : atMost 5 (float64_of_int 30).
Proof. vm_compute. discriminate. Qed.

(** The percentage of a task within the list is [2 ^ 11] at most. *)
Lemma percentage_atMost (dp : DeploymentProgress) (taskIndex : Z) :
  0 < TotalTasks dp <= MaxInt64 -> 0 <= taskIndex < TotalTasks dp ->
  atMost 11 (percentage dp taskIndex).
Proof.
  intros Hn Hk. unfold percentage.
  destruct (0 <? TotalTasks dp) eqn:Hpos; [| exact I].
  set (n := TotalTasks dp) in *.
  pose proof (Zdigits2_bounds n ltac:(lia)) as Hd.
  assert (Hd63 : Zdigits2 n <= 63) by (apply Zdigits2_le; unfold MaxInt64 in Hn; lia).
  pose proof (Zdigits2_nonneg n) as Hd0.
  assert (Hfk : atMost (Zdigits2 n) (float64_of_int taskIndex))
    by (apply float64_of_int_upper; lia).
  assert (Hfn : atLeast (Zdigits2 n - 1) (float64_of_int n))
    by (apply float64_of_int_lower; lia).
  pose proof (fdiv_atMost _ _ _ _ Hfk Hfn ltac:(lia)) as Hq.
  replace (Zdigits2 n + 1 - (Zdigits2 n - 1)) with 2 in Hq by lia.
  exact (fmul_atMost 2 7 _ _ Hq hundred_atMost ltac:(lia)).
Qed.

(** The width computed from such a percentage is [2 ^ 13] at most. *)
Lemma width_atMost (pct : float64) :
  atMost 11 pct ->
  atMost 13 (fdiv (fmul (float64_of_int width) pct) (float64_of_int 100)).
Proof.
  intros Hp.
  pose proof (fmul_atMost 5 11 _ _ thirty_atMost Hp ltac:(lia)) as Ht.
  exact (fdiv_atMost (5 + 11 + 2) 6 _ _ Ht hundred_atLeast ltac:(lia)).
Qed.

(** [DisplayProgress] in the bar style, for a task within the list
    ([0 <= taskIndex < TotalTasks]): the percentage is the quotient of the
    index by the number of tasks, times one hundred, in [float64]
    arithmetic; the conversion [int(...)] of the width is the floor of
    [30 * percentage / 100] as [float64] computes it, and it is not
    negative; the bar shows that many filled cells, [30] at most, then the
    marker [>] if a cell remains and spaces to the end; the percentage with
    one decimal, the position of the task and its name follow. *)
Theorem bar_of_task_in_range (dp : DeploymentProgress) (taskIndex : Z)
    (taskName : string) :
  0 < TotalTasks dp <= MaxInt64 -> 0 <= taskIndex < TotalTasks dp ->
  let pct := percentage dp taskIndex in
  let w := completedWidthOf pct in
  pct = fmul (fdiv (float64_of_int taskIndex) (float64_of_int (TotalTasks dp)))
             (float64_of_int 100)
  /\ floorOf (fdiv (fmul (float64_of_int width) pct) (float64_of_int 100)) = Some w
  /\ 0 <= w
  /\ progressMessage dp taskIndex taskName "bar"
     = barOf (clampWidth w) +:+ " " +:+ ftoa1 pct +:+ "% ("
       +:+ itoa (taskIndex + 1) +:+ "/" +:+ itoa (TotalTasks dp)
       +:+ ") Current: " +:+ taskName.
Proof.
  intros Hn Hk pct w.
  pose proof (percentage_atMost dp taskIndex Hn Hk) as Hpct. fold pct in Hpct.
  pose proof (width_atMost pct Hpct) as Hw.
  destruct (int_of_float64_atMost 13 _ ltac:(lia) Hw) as (Hfloor & Hw0 & _).
  fold (completedWidthOf pct) in Hfloor, Hw0. fold w in Hfloor, Hw0.
  split; [| split; [exact Hfloor | split; [exact Hw0 |]]].
  - unfold pct, percentage.
    destruct (0 <? TotalTasks dp) eqn:Hpos; [reflexivity | lia].
  - unfold progressMessage. fold pct. cbn [String.eqb Ascii.eqb Bool.eqb].
    fold w. rewrite (progressBar_shape w Hw0).
    unfold int_add. rewrite wrap64_small by (unfold MinInt64, MaxInt64 in *; lia).
    reflexivity.
Qed.


(** ** The bar, whatever the width *)

(** Whatever width was computed, the bar has thirty cells between its
    brackets: the filled cells (the width, kept within [0] and [30]), the
    marker [>] exactly when the width is within [0] and [29], and spaces.
    A negative width draws no marker. *)
Theorem progressBar_cells (completedWidth : Z) :
  let filled := clampWidth completedWidth in
  let marker := (0 <=? completedWidth) && (completedWidth <? width) in
  progressBar completedWidth
  = "[" +:+ repeat_string (Z.to_nat filled) "="
        +:+ (if marker then ">" else EmptyString)
        +:+ repeat_string (Z.to_nat (width - filled - (if marker then 1 else 0))) " "
        +:+ "]"
  /\ String.length (progressBar completedWidth) = 32%nat.
Proof.
  intros filled marker. subst filled marker. unfold clampWidth, width.
  destruct (Z_lt_le_dec completedWidth 0) as [Hneg | Hpos].
  - rewrite (progressBar_negative _ Hneg).
    rewrite Z.max_r, Z.min_l by lia.
    destruct (0 <=? completedWidth) eqn:E; [lia |].
    split; vm_compute; reflexivity.
  - rewrite (progressBar_shape _ Hpos). unfold clampWidth, width.
    destruct (Z_lt_le_dec completedWidth 30) as [Hlt | Hge].
    + assert (Hcases : completedWidth = 0 \/ completedWidth = 1 \/ completedWidth = 2
                \/ completedWidth = 3 \/ completedWidth = 4 \/ completedWidth = 5
                \/ completedWidth = 6 \/ completedWidth = 7 \/ completedWidth = 8
                \/ completedWidth = 9 \/ completedWidth = 10 \/ completedWidth = 11
                \/ completedWidth = 12 \/ completedWidth = 13 \/ completedWidth = 14
                \/ completedWidth = 15 \/ completedWidth = 16 \/ completedWidth = 17
                \/ completedWidth = 18 \/ completedWidth = 19 \/ completedWidth = 20
                \/ completedWidth = 21 \/ completedWidth = 22 \/ completedWidth = 23
                \/ completedWidth = 24 \/ completedWidth = 25 \/ completedWidth = 26
                \/ completedWidth = 27 \/ completedWidth = 28 \/ completedWidth = 29) by lia.
      repeat (destruct Hcases as [-> | Hcases]; [split; vm_compute; reflexivity |]).
      subst completedWidth. split; vm_compute; reflexivity.
    + rewrite Z.max_l, Z.min_r by lia.
      destruct (0 <=? completedWidth) eqn:E; [| lia].
      destruct (completedWidth <? 30) eqn:E'; [lia |].
      split; vm_compute; reflexivity.
Qed.

(** ** A progress file without a task map *)

Lemma setMember_keeps_nil_map (dp dp' : DeploymentProgress) (member : string * Json.JSON) :
  TaskProgress dp = None ->
  (ToLower (fst member) = "taskprogress" -> snd member = Json.JNull) ->
  Json.setMember dp member = Some dp' ->
  TaskProgress dp' = None.
Proof.
  destruct member as [k v], dp as [st et total completed current tp].
  cbn [TaskProgress fst snd]. intros -> Hnull. unfold Json.setMember.
  cbv zeta.
  repeat match goal with
  | |- context [String.eqb ?a ?b] => destruct (String.eqb_spec a b)
  end;
    first [ match goal with
            | H : ToLower k = "taskprogress" |- _ => rewrite (Hnull H)
            end; cbn; intros [= <-]; reflexivity
          | match goal with
            | |- option_map _ ?x = _ -> _ => destruct x
            end; cbn [option_map]; intros [= <-]; reflexivity
          | intros [= <-]; reflexivity ].
Qed.

Lemma foldMembers_keeps_nil_map (members : list (string * Json.JSON)) :
  Forall (fun kv : string * Json.JSON =>
            isASCII (fst kv) = true
            /\ (ToLower (fst kv) = "taskprogress" -> snd kv = Json.JNull)) members ->
  forall dp dp', TaskProgress dp = None ->
    Json.foldMembers Json.setMember members dp = Some dp' ->
    TaskProgress dp' = None.
Proof.
  induction 1 as [| member members [_ Hnull] _ IH]; intros dp dp' Hnil.
  - intros [= <-]. exact Hnil.
  - rewrite foldMembers_cons.
    destruct (Json.setMember dp member) as [dp1 |] eqn:Hset; [| discriminate].
    apply IH. exact (setMember_keeps_nil_map dp dp1 member Hnil Hnull Hset).
Qed.

Lemma Unmarshal_without_task_map (j : Json.JSON) (dp : DeploymentProgress) :
  withoutTaskMap j -> Json.Unmarshal j = Some dp -> TaskProgress dp = None.
Proof.
  destruct j; simpl; try contradiction.
  - intros _ [= <-]. reflexivity.
  - intros Hmembers. apply foldMembers_keeps_nil_map; [exact Hmembers | reflexivity].
Qed.

(** On a nil task map the first task of the list is announced and the run
    panics at the assignment of its record. *)
Lemma runLoop_nil_map (c : Config) (file : string) (ctx : Context) (useColor : bool)
    (hl : Z) (i : nat) (t : Task) (rest : list Task) (s : RunState) :
  TaskProgress (rs_progress s) = None ->
  exists s',
    runLoop c file ctx useColor hl i (t :: rest) s = Panic s' NilMapAssignment
    /\ rs_trace s' = rs_trace s ++ [EvCurrentTask (task_Name t)]
    /\ fs (rs_world s') = fs (rs_world s).
Proof.
  intros Hnil. cbn [runLoop]. unfold runTask, skips. rewrite Hnil. cbn [mapLookup].
  assert (Hskip : (if ResumeEnabled c then false else false) = false)
    by (destruct (ResumeEnabled c); reflexivity).
  rewrite Hskip. unfold beginTask.
  cbn [rs_progress rs_world rs_trace rs_store emit withProgress withWorld withLog
       Now fst snd TaskProgress setCurrentTask ticks clock log fs].
  rewrite Hnil. eexists. split; [reflexivity |]. split; reflexivity.
Qed.

(** When resume is enabled and the progress file holds a document that gives
    no task map (the document [null], the object [{}], an object whose
    [taskProgress] is [null]), [Init] attaches a progress model whose task
    map is nil, and [Run] on a list of at least one task panics with the
    assignment to an entry of a nil map: the first task is announced, no
    task is run, nothing is saved and the file system is as it was. *)
Theorem resume_without_task_map_panics (r : Runner) (ctx : Context) (w : World)
    (j : Json.JSON) (dp : DeploymentProgress) (t : Task) (rest : list Task) :
  ResumeEnabled (cfg r) = true ->
  ReadFile (fs w) (progressFileOf (cfg r)) = inr (Document j) ->
  withoutTaskMap j ->
  Json.Unmarshal j = Some dp ->
  tasks r = t :: rest ->
  let out := Run (fst (Init r w)) ctx (snd (Init r w)) in
  out_result out = Panics NilMapAssignment
  /\ out_trace out = [EvCurrentTask (task_Name t)]
  /\ fs (out_world out) = fs w.
Proof.
  intros Hres Hread Hdoc Hdecode Htasks out. subst out.
  pose proof (Unmarshal_without_task_map j dp Hdoc Hdecode) as Hnil.
  assert (Hload : LoadProgressFromFile (progressFileOf (cfg r)) w = (w, inr dp)).
  { unfold LoadProgressFromFile, notExist. unfold ReadFile in Hread |- *.
    destruct (decide (progressFileOf (cfg r) ∈ denied (fs w))); [discriminate |].
    destruct (nodes (fs w) !! progressFileOf (cfg r)) as [[c |] |]; try discriminate.
    injection Hread as ->. rewrite Hdecode. reflexivity. }
  unfold Init, initProgressTracking. fold (progressFileOf (cfg r)).
  rewrite Hres, Hload. cbn [fst snd].
  unfold Run. cbn [runtime Progress tasks cfg progressFile sync_Map].
  rewrite Htasks.
  match goal with |- context [runLoop ?c ?f ?x ?u ?h ?i (t :: rest) ?s] =>
    destruct (runLoop_nil_map c f x u h i t rest s) as (s' & Hloop & Htrace & Hfs);
      [exact Hnil | rewrite Hloop] end.
  cbn [out_result out_trace out_world].
  split; [reflexivity |]. split; [exact Htrace | exact Hfs].
Qed.

(** ** The store of the runtime *)

(** [Store] fails on a runner that was not initialised and leaves it as it
    is. On an initialised runner it succeeds and changes the store alone:
    the typed accessor of the stored value's type returns the value at the
    key, and every accessor answers at any other key as before. *)
Theorem Store_then_Load (r : Runner) (key value : any) :
  match runtime r with
  | None => Store r key value = (r, Some (errNew "Runtime hasn't been initialized"))
  | Some rt =>
      exists rt',
        Store r key value
        = (mkRunner (Some rt') (tasks r) (cfg r) (init r) (progressFile r), None)
        /\ Progress rt' = Progress rt /\ Cfg rt' = Cfg rt
        /\ (forall s, value = AnyString s -> LoadString rt' key = Returns (s, true))
        /\ (forall b, value = AnyBool b -> LoadBool rt' key = Returns (b, true))
        /\ (forall n, value = AnyInt n -> LoadInt rt' key = Returns (n, true))
        /\ (forall k, k <> key ->
              LoadString rt' k = LoadString rt k
              /\ LoadBool rt' k = LoadBool rt k
              /\ LoadInt rt' k = LoadInt rt k)
  end.
Proof.
  unfold Store. destruct (runtime r) as [rt |]; [| reflexivity].
  eexists. split; [reflexivity |]. split; [reflexivity |]. split; [reflexivity |].
  unfold LoadString, LoadBool, LoadInt. cbn [sync_Map].
  split; [| split; [| split]].
  - intros s ->. rewrite lookup_insert_eq. reflexivity.
  - intros b ->. rewrite lookup_insert_eq. reflexivity.
  - intros n ->. rewrite lookup_insert_eq. reflexivity.
  - intros k Hk. rewrite lookup_insert_ne by congruence. auto.
Qed.

(** ** Registering tasks *)

Lemma initProgressTracking_total (r : Runner) (w : World) :
  TotalTasks (snd (fst (initProgressTracking r w))) = Z.of_nat (length (tasks r)).
Proof.
  unfold initProgressTracking.
  destruct (ResumeEnabled (cfg r)); [| reflexivity].
  destruct (LoadProgressFromFile _ w) as [w1 [err | progress]]; reflexivity.
Qed.

(** Tasks are registered before [Init] only. On a runner that was not
    initialised [Register] appends the tasks; [Init] then counts every
    registered task in [TotalTasks]; and after [Init] every [Register] fails
    and leaves the runner, its task list included, as it is. *)
Theorem Register_only_before_Init (r : Runner) (w : World) (ts more : list Task) :
  init r = false ->
  let r1 := fst (Register r ts) in
  let r2 := fst (Init r1 w) in
  snd (Register r ts) = None
  /\ tasks r1 = tasks r ++ ts
  /\ tasks r2 = tasks r ++ ts
  /\ (exists dp, progressOf r2 = Some dp
                 /\ TotalTasks dp = Z.of_nat (length (tasks r) + length ts))
  /\ Register r2 more = (r2, Some (errNew "runner has been initialized")).
Proof.
  intros Hinit r1 r2. subst r1 r2. unfold Register. rewrite Hinit. cbn [fst snd].
  unfold Init.
  pose proof (initProgressTracking_total
                (mkRunner (runtime r) (tasks r ++ ts) (cfg r) false (progressFile r)) w)
    as Htotal.
  destruct (initProgressTracking _ w) as [[file dp] w'].
  cbn [fst snd tasks init] in Htotal |- *.
  split; [reflexivity |]. split; [reflexivity |]. split; [reflexivity |].
  split; [| reflexivity].
  exists dp. split; [reflexivity |].
  rewrite Htotal, length_app. reflexivity.
Qed.

(** ** The colour of the task lines *)

Lemma lower_byte_idempotent (c : ascii) : lower_byte (lower_byte c) = lower_byte c.
Proof.
  unfold lower_byte.
  destruct ((65 <=? N_of_ascii c) && (N_of_ascii c <=? 90))%N eqn:Hup; [| rewrite Hup; reflexivity].
  apply andb_prop in Hup as [Hlo Hhi]. apply N.leb_le in Hlo, Hhi.
  rewrite N_ascii_embedding by lia.
  destruct (65 <=? N_of_ascii c + 32)%N; [| reflexivity].
  destruct (N_of_ascii c + 32 <=? 90)%N eqn:E; [apply N.leb_le in E; lia | reflexivity].
Qed.

Lemma ToLower_idempotent (s : string) : ToLower (ToLower s) = ToLower s.
Proof.
  induction s as [| c s IH]; [reflexivity |].
  cbn [ToLower]. rewrite lower_byte_idempotent, IH. reflexivity.
Qed.

(** [getColorAttribute] on an ASCII name reads the name without regard to
    the case of its letters: a name that is, in lower case, one of the seven
    colours gives the bright attribute of that colour; every other name,
    [none] and the empty name included, gives [-1]. So the attribute is
    [-1] or one of the bright colours [91..97]. *)
Theorem getColorAttribute_names (colorName : string) :
  isASCII colorName = true ->
  (forall name attr, In (name, attr) colorNames -> ToLower colorName = name ->
     getColorAttribute colorName = attr)
  /\ ((forall name attr, In (name, attr) colorNames -> ToLower colorName <> name) ->
        getColorAttribute colorName = -1)
  /\ getColorAttribute (ToLower colorName) = getColorAttribute colorName
  /\ (getColorAttribute colorName = -1 \/ 91 <= getColorAttribute colorName <= 97).
Proof.
  intros _.
  assert (Hhit : forall name attr, In (name, attr) colorNames -> ToLower colorName = name ->
                   getColorAttribute colorName = attr).
  { intros name attr Hin Hname. unfold getColorAttribute. rewrite Hname.
    unfold colorNames in Hin. cbn [In] in Hin.
    repeat (destruct Hin as [[= <- <-] | Hin]; [vm_compute; reflexivity |]).
    contradiction. }
  assert (Hmiss : (forall name attr, In (name, attr) colorNames -> ToLower colorName <> name) ->
                  getColorAttribute colorName = -1).
  { intros Hnone. unfold getColorAttribute.
    destruct (String.eqb (ToLower colorName) "none"); [reflexivity |].
    cbv zeta.
    rewrite !lookup_insert_ne, lookup_empty;
      [reflexivity | ..]; intros Heq; symmetry in Heq; revert Heq;
      eapply Hnone; unfold colorNames; cbn [In]; eauto 10. }
  split; [exact Hhit |]. split; [exact Hmiss |]. split.
  - unfold getColorAttribute. rewrite ToLower_idempotent. reflexivity.
  - destruct (decide (ToLower colorName = "green")) as [H | H1];
      [right; rewrite (Hhit _ FgHiGreen ltac:(cbn; eauto 10) H); unfold FgHiGreen; lia |].
    destruct (decide (ToLower colorName = "cyan")) as [H | H2];
      [right; rewrite (Hhit _ FgHiCyan ltac:(cbn; eauto 10) H); unfold FgHiCyan; lia |].
    destruct (decide (ToLower colorName = "yellow")) as [H | H3];
      [right; rewrite (Hhit _ FgHiYellow ltac:(cbn; eauto 10) H); unfold FgHiYellow; lia |].
    destruct (decide (ToLower colorName = "blue")) as [H | H4];
      [right; rewrite (Hhit _ FgHiBlue ltac:(cbn; eauto 10) H); unfold FgHiBlue; lia |].
    destruct (decide (ToLower colorName = "magenta")) as [H | H5];
      [right; rewrite (Hhit _ FgHiMagenta ltac:(cbn; eauto 10) H); unfold FgHiMagenta; lia |].
    destruct (decide (ToLower colorName = "red")) as [H | H6];
      [right; rewrite (Hhit _ FgHiRed ltac:(cbn; eauto 10) H); unfold FgHiRed; lia |].
    destruct (decide (ToLower colorName = "white")) as [H | H7];
      [right; rewrite (Hhit _ FgHiWhite ltac:(cbn; eauto 10) H); unfold FgHiWhite; lia |].
    left. apply Hmiss. intros name attr Hin. unfold colorNames in Hin. cbn [In] in Hin.
    repeat (destruct Hin as [[= <- <-] | Hin]; [assumption |]). contradiction.
Qed.

(** ** A run without resume *)

Lemma saveOrWarn_without_resume (c : Config) (file what : string) (s : RunState) :
  ResumeEnabled c = false -> saveOrWarn c file what s = s.
Proof. intros Hres. unfold saveOrWarn, saveProgress. rewrite Hres. reflexivity. Qed.

Lemma runTask_without_resume_fs (c : Config) (file : string) (ctx : Context)
    (useColor : bool) (hl : Z) (i : nat) (t : Task) (s : RunState) :
  ResumeEnabled c = false -> keepsFiles t ->
  fs (rs_world (stateOf (runTask c file ctx useColor hl i t s))) = fs (rs_world s).
Proof.
  intros Hres Hkeep. unfold runTask, skips. rewrite Hres. unfold beginTask.
  cbn [rs_progress rs_world rs_trace rs_store emit withProgress withWorld withLog
       Now fst snd TaskProgress setCurrentTask ticks clock log fs].
  destruct (TaskProgress (rs_progress s)) as [m |]; [| reflexivity].
  rewrite saveOrWarn_without_resume by exact Hres.
  unfold invoke.
  cbn [rs_progress rs_world rs_trace rs_store emit withProgress withWorld withLog].
  match goal with |- context [task_Run t ctx ?st ?w] =>
    pose proof (Hkeep ctx st w) as Hfs; destruct (task_Run t ctx st w) as [[store w'] result]
  end.
  cbn [fst snd fs] in Hfs.
  destruct result as [err |]; [exact Hfs |].
  unfold completeTask.
  cbn [rs_progress rs_world rs_trace rs_store emit withProgress withWorld withLog
       Now fst snd TaskProgress setTaskProgress ticks clock log fs].
  rewrite saveOrWarn_without_resume by exact Hres. exact Hfs.
Qed.

Lemma runLoop_without_resume_fs (c : Config) (file : string) (ctx : Context)
    (useColor : bool) (hl : Z) (ts : list Task) :
  ResumeEnabled c = false -> Forall keepsFiles ts ->
  forall (i : nat) (s : RunState),
    fs (rs_world (stateOf (runLoop c file ctx useColor hl i ts s))) = fs (rs_world s).
Proof.
  intros Hres Hkeep. induction Hkeep as [| t rest Ht _ IH]; intros i s; [reflexivity |].
  cbn [runLoop].
  pose proof (runTask_without_resume_fs c file ctx useColor hl i t s Hres Ht) as Hstep.
  destruct (runTask c file ctx useColor hl i t s) as [s1 | s1 err | s1 p];
    cbn [stateOf] in Hstep |- *; [| exact Hstep | exact Hstep].
  rewrite IH. exact Hstep.
Qed.

(** With resume disabled [Run] neither reads nor writes the progress file:
    [SaveProgressToFile] is never called, and when the tasks leave the file
    system alone it is after the run, however the run ends, as it was
    before. *)
Theorem run_without_resume_writes_nothing (r : Runner) (ctx : Context) (w : World)
    (rt : Runtime) (dp : DeploymentProgress) :
  initialised r rt dp ->
  ResumeEnabled (cfg r) = false ->
  Forall keepsFiles (tasks r) ->
  saved (out_trace (Run r ctx w)) = []
  /\ fs (out_world (Run r ctx w)) = fs w.
Proof.
  intros Hinit Hres Hkeep. rewrite (Run_unfold r ctx w rt dp Hinit).
  set (c := cfg r) in *. set (file := progressFile r).
  set (s0 := mkRunState dp (sync_Map rt) w []).
  pose proof (runLoop_saves_nothing c file ctx (useColorOf c) (highlightColorOf c)
                (tasks r) Hres 0%nat s0) as Hnone.
  pose proof (runLoop_without_resume_fs c file ctx (useColorOf c) (highlightColorOf c)
                (tasks r) Hres Hkeep 0%nat s0) as Hfs.
  destruct (runLoop c file ctx (useColorOf c) (highlightColorOf c) 0 (tasks r) s0)
    as [s1 | s1 err | s1 p]; cbn [stateOf] in Hnone, Hfs;
    cbn [out_trace out_world]; [| split; assumption | split; assumption].
  destruct (finish_spec c file (highlightColorOf c) s1) as [_ Ht].
  rewrite Ht, saved_app, saved_saveEvents, Hres, Hnone. split; [reflexivity |].
  unfold finish.
  cbn [Now rs_world rs_progress withWorld withProgress rs_trace rs_store fst snd].
  rewrite saveOrWarn_without_resume by exact Hres.
  destruct (ShowProgress c); exact Hfs.
Qed.

(** ** A run in which every task succeeds *)

Lemma visited_app (a b : list Event) : visited (a ++ b) = visited a ++ visited b.
Proof. unfold visited. apply omap_app. Qed.

Lemma visited_saveEvents (c : Config) (dp : DeploymentProgress) :
  visited (saveEvents c dp) = [].
Proof. unfold saveEvents. destruct (ResumeEnabled c); reflexivity. Qed.

Lemma runs_saveEvents (c : Config) (dp : DeploymentProgress) :
  runs (saveEvents c dp) = [].
Proof. unfold saveEvents. destruct (ResumeEnabled c); reflexivity. Qed.

(** One iteration for a task that does not fail, on a task map that is not
    nil: the loop continues, the task was skipped or run, its record is
    completed, the other records are as they were, and the counter has
    grown by one if the task was run. *)
Lemma runTask_succeeds (c : Config) (file : string) (ctx : Context) (useColor : bool)
    (hl : Z) (i : nat) (t : Task) (s : RunState) (m : gmap string ProgressInfo) :
  TaskProgress (rs_progress s) = Some m ->
  neverFails t ->
  MinInt64 <= CompletedTasks (rs_progress s) < MaxInt64 ->
  exists s' m' ev,
    runTask c file ctx useColor hl i t s = Continue s'
    /\ rs_trace s' = rs_trace s ++ ev
    /\ visited ev = [i]
    /\ TaskProgress (rs_progress s') = Some m'
    /\ (exists info, m' !! task_Name t = Some info /\ Completed info = true)
    /\ (forall k, k <> task_Name t -> m' !! k = m !! k)
    /\ CompletedTasks (rs_progress s')
       = CompletedTasks (rs_progress s) + Z.of_nat (length (runs ev)).
Proof.
  intros Hm Hok Hbound. unfold runTask.
  destruct (skips c t (rs_progress s)) eqn:Hskip.
  - eexists _, m, [EvSkip i (task_Name t)].
    split; [reflexivity |]. split; [reflexivity |]. split; [reflexivity |].
    split; [exact Hm |]. split; [| split; [reflexivity | simpl; lia]].
    unfold skips in Hskip. destruct (ResumeEnabled c); [| discriminate].
    rewrite Hm in Hskip. cbn [mapLookup] in Hskip.
    destruct (m !! task_Name t) as [info |]; [| discriminate].
    exists info. split; [reflexivity | exact Hskip].
  - pose proof (beginTask_spec c file useColor hl i t s) as Hb. cbv zeta in Hb.
    rewrite Hm in Hb. destruct Hb as (s1 & -> & Hp1 & _ & Ht1 & _).
    pose proof (invoke_spec ctx i t s1) as (Hp2 & Ht2 & Hr2).
    rewrite (Hok ctx _ _) in Hr2.
    destruct (invoke ctx i t s1) as [s2 result]. cbn [fst snd] in Hp2, Ht2, Hr2.
    subst result.
    pose proof (completeTask_spec c file t s2) as Hc. cbv zeta in Hc.
    rewrite Hp2, Hp1 in Hc. cbn [TaskProgress setTaskProgress] in Hc.
    destruct Hc as (s3 & -> & Hp3 & Ht3).
    eexists s3, _, _. split; [reflexivity |].
    split; [rewrite Ht3, Ht2, Ht1, <- !app_assoc; reflexivity |].
    split; [rewrite !visited_app, !visited_saveEvents; reflexivity |].
    rewrite Hp3. cbn [TaskProgress setCompletedTasks setTaskProgress CompletedTasks
                      setCurrentTask].
    split; [reflexivity |]. split; [| split].
    + eexists. rewrite lookup_insert_eq. split; reflexivity.
    + intros k Hk. rewrite !lookup_insert_ne by congruence. reflexivity.
    + rewrite !runs_app, !runs_saveEvents. cbn [runs omap app length].
      unfold int_add. rewrite wrap64_small by lia. reflexivity.
Qed.

Lemma runLoop_succeeds (c : Config) (file : string) (ctx : Context) (useColor : bool)
    (hl : Z) (ts : list Task) :
  Forall neverFails ts ->
  forall (i : nat) (s : RunState) (m : gmap string ProgressInfo),
    TaskProgress (rs_progress s) = Some m ->
    MinInt64 <= CompletedTasks (rs_progress s) ->
    CompletedTasks (rs_progress s) + Z.of_nat (length ts) <= MaxInt64 ->
    exists s' m' ev,
      runLoop c file ctx useColor hl i ts s = Continue s'
      /\ rs_trace s' = rs_trace s ++ ev
      /\ visited ev = seq i (length ts)
      /\ TaskProgress (rs_progress s') = Some m'
      /\ (forall t, In t ts ->
            exists info, m' !! task_Name t = Some info /\ Completed info = true)
      /\ (forall k info, m !! k = Some info -> Completed info = true ->
            exists info', m' !! k = Some info' /\ Completed info' = true)
      /\ CompletedTasks (rs_progress s')
         = CompletedTasks (rs_progress s) + Z.of_nat (length (runs ev)).
Proof.
  induction 1 as [| t rest Ht _ IH]; intros i s m Hm Hlow Hhigh.
  - exists s, m, []. cbn [runLoop length seq]. rewrite app_nil_r.
    repeat split; try reflexivity; try exact Hm.
    + intros t [].
    + intros k info Hk Hdone. eauto.
    + simpl. lia.
  - cbn [length] in Hhigh.
    destruct (runTask_succeeds c file ctx useColor hl i t s m Hm Ht ltac:(lia))
      as (s1 & m1 & ev1 & Hstep & Ht1 & Hv1 & Hm1 & (info1 & Hrec1 & Hdone1) & Hkeep1 & Hc1).
    assert (Hlen1 : (length (runs ev1) <= 1)%nat).
    { assert (Hsub : forall ev, (length (runs ev) <= length (visited ev))%nat).
      { induction ev as [| e ev IHev]; [reflexivity |].
        unfold runs, visited in *.
        destruct e; simpl in *;
          first [ exact IHev
                | apply Nat.le_le_succ_r; exact IHev
                | apply (proj1 (Nat.succ_le_mono _ _)); exact IHev ]. }
      specialize (Hsub ev1). rewrite Hv1 in Hsub. exact Hsub. }
    destruct (IH (S i) s1 m1 Hm1 ltac:(lia) ltac:(lia))
      as (s2 & m2 & ev2 & Hloop & Ht2 & Hv2 & Hm2 & Hall & Hmono & Hc2).
    exists s2, m2, (ev1 ++ ev2). cbn [runLoop]. rewrite Hstep.
    split; [exact Hloop |].
    split; [rewrite Ht2, Ht1, <- app_assoc; reflexivity |].
    split; [rewrite visited_app, Hv1, Hv2; reflexivity |].
    split; [exact Hm2 |]. split; [| split].
    + intros t' [<- | Hin]; [| exact (Hall t' Hin)].
      exact (Hmono _ _ Hrec1 Hdone1).
    + intros k info Hk Hdone.
      destruct (decide (k = task_Name t)) as [-> | Hne].
      * exact (Hmono _ _ Hrec1 Hdone1).
      * apply (Hmono k info); [| exact Hdone]. rewrite Hkeep1 by exact Hne. exact Hk.
    + rewrite Hc2, Hc1, runs_app, length_app. lia.
Qed.

(** When no task fails and the task map is not nil, [Run] returns no error,
    whether or not the progress could be saved: the tasks are visited once
    each and in order, every one of them run or skipped; when it returns
    every task has a completed record; the records that were completed
    before are completed after; and the counter has grown by the number of
    tasks that were run. *)
Theorem run_of_succeeding_tasks (r : Runner) (ctx : Context) (w : World)
    (rt : Runtime) (dp : DeploymentProgress) (m : gmap string ProgressInfo) :
  initialised r rt dp ->
  TaskProgress dp = Some m ->
  Forall neverFails (tasks r) ->
  MinInt64 <= CompletedTasks dp ->
  CompletedTasks dp + Z.of_nat (length (tasks r)) <= MaxInt64 ->
  let out := Run r ctx w in
  out_result out = Returns None
  /\ visited (out_trace out) = seq 0 (length (tasks r))
  /\ exists dp' m',
       progressOf (out_runner out) = Some dp'
       /\ TaskProgress dp' = Some m'
       /\ (forall t, In t (tasks r) ->
             exists info, m' !! task_Name t = Some info /\ Completed info = true)
       /\ (forall k info, m !! k = Some info -> Completed info = true ->
             exists info', m' !! k = Some info' /\ Completed info' = true)
       /\ CompletedTasks dp'
          = CompletedTasks dp + Z.of_nat (length (runs (out_trace out))).
Proof.
  intros Hinit Hm Hok Hlow Hhigh out. subst out.
  rewrite (Run_unfold r ctx w rt dp Hinit).
  set (c := cfg r). set (file := progressFile r).
  destruct (runLoop_succeeds c file ctx (useColorOf c) (highlightColorOf c) (tasks r) Hok
              0%nat (mkRunState dp (sync_Map rt) w []) m Hm Hlow Hhigh)
    as (s1 & m1 & ev & Hloop & Ht & Hv & Hm1 & Hall & Hmono & Hc).
  rewrite Hloop. cbn [rs_trace app rs_progress] in Ht, Hc.
  destruct (finish_spec c file (highlightColorOf c) s1) as [Hpf Htf].
  cbv zeta. cbn [out_result out_trace out_runner].
  split; [reflexivity |]. rewrite Htf, Ht.
  split; [rewrite visited_app, visited_saveEvents, app_nil_r; exact Hv |].
  exists (rs_progress (finish c file (highlightColorOf c) s1)), m1.
  split; [reflexivity |]. rewrite Hpf.
  split; [exact Hm1 |]. split; [exact Hall |]. split; [exact Hmono |].
  rewrite runs_app, runs_saveEvents, app_nil_r. exact Hc.
Qed.

(** ** Resuming after a run *)

Lemma isInt_wrap64 (z : Z) : isInt (wrap64 z).
Proof.
  unfold isInt, wrap64, MinInt64, MaxInt64.
  pose proof (Z.mod_pos_bound (z + 2 ^ 63) (2 ^ 64) ltac:(lia)). lia.
Qed.

Lemma encodableTime_zero : encodableTime zeroTime.
Proof. unfold encodableTime, wellFormed. cbn. lia. Qed.

Lemma encodable_setCurrentTask (dp : DeploymentProgress) (name : string) :
  encodable dp -> Utf8.ValidString name = true -> encodable (setCurrentTask dp name).
Proof.
  intros (Hst & Het & Htotal & Hdone & _ & Hmap) Hname.
  unfold encodable. cbn [setCurrentTask StartTime EndTime TotalTasks CompletedTasks
                         CurrentTask TaskProgress]. auto 10.
Qed.

Lemma encodable_setEndTime (dp : DeploymentProgress) (t : Time) :
  encodable dp -> encodableTime t -> encodable (setEndTime dp t).
Proof.
  intros (Hst & Het & Htotal & Hdone & Hcur & Hmap) Ht.
  unfold encodable. cbn [setEndTime StartTime EndTime TotalTasks CompletedTasks
                         CurrentTask TaskProgress]. auto 10.
Qed.

Lemma encodable_setTotalTasks (dp : DeploymentProgress) (n : Z) :
  encodable dp -> isInt n -> encodable (setTotalTasks dp n).
Proof.
  intros (Hst & Het & Htotal & Hdone & Hcur & Hmap) Hn.
  unfold encodable. cbn [setTotalTasks StartTime EndTime TotalTasks CompletedTasks
                         CurrentTask TaskProgress]. auto 10.
Qed.

Lemma encodable_setCompletedTasks (dp : DeploymentProgress) (n : Z) :
  encodable dp -> isInt n -> encodable (setCompletedTasks dp n).
Proof.
  intros (Hst & Het & Htotal & Hdone & Hcur & Hmap) Hn.
  unfold encodable. cbn [setCompletedTasks StartTime EndTime TotalTasks CompletedTasks
                         CurrentTask TaskProgress]. auto 10.
Qed.

Lemma encodable_insert (dp : DeploymentProgress) (m : gmap string ProgressInfo)
    (k : string) (info : ProgressInfo) :
  encodable dp -> TaskProgress dp = Some m ->
  Utf8.ValidString k = true -> encodableInfo info ->
  encodable (setTaskProgress dp (<[k := info]> m)).
Proof.
  intros (Hst & Het & Htotal & Hdone & Hcur & Hmap) Hm Hk Hinfo.
  unfold encodable. cbn [setTaskProgress StartTime EndTime TotalTasks CompletedTasks
                         CurrentTask TaskProgress].
  repeat (split; [assumption |]).
  intros m' k' info' [= <-] Hlook.
  destruct (decide (k = k')) as [<- | Hne].
  - rewrite lookup_insert_eq in Hlook. injection Hlook as <-. auto.
  - rewrite lookup_insert_ne in Hlook by exact Hne. exact (Hmap m k' info' Hm Hlook).
Qed.

(** A save on a writable path of a model the file can hold succeeds and
    leaves the model's document in the file. *)
Lemma SaveProgressToFile_writable (dp : DeploymentProgress) (file : string)
    (f : FileSystem) :
  writable f file -> encodable dp ->
  exists f', SaveProgressToFile dp file f = (f', None)
             /\ holds f' file dp /\ writable f' file.
Proof.
  intros (Hdir & Hfile & Hne & Hnofile & Hnodir) Henc.
  destruct (Marshal_Unmarshal dp Henc) as (j & Hmarshal & _).
  unfold SaveProgressToFile, MkdirAll.
  destruct (decide (filepath_Dir file ∈ denied f)); [contradiction |].
  assert (Hmk : (match nodes f !! filepath_Dir file with
                 | Some (File _) =>
                     (f, Some (errNew ("mkdir " +:+ filepath_Dir file +:+ ": not a directory")))
                 | _ => (mkFileSystem (<[filepath_Dir file := Directory]> (nodes f)) (denied f),
                         None)
                 end)
                = (mkFileSystem (<[filepath_Dir file := Directory]> (nodes f)) (denied f),
                   None : option error)).
  { destruct (nodes f !! filepath_Dir file) as [[c |] |] eqn:Hnode; try reflexivity.
    exfalso. exact (Hnofile c eq_refl). }
  rewrite Hmk, Hmarshal. unfold WriteFile. cbn [denied nodes].
  destruct (decide (file ∈ denied f)); [contradiction |].
  rewrite lookup_insert_ne by exact Hne.
  assert (Hwr : (match nodes f !! file with
                 | Some Directory =>
                     (mkFileSystem (<[filepath_Dir file := Directory]> (nodes f)) (denied f),
                      Some (errNew ("open " +:+ file +:+ ": is a directory")))
                 | _ => (mkFileSystem
                           (<[file := File (Document j)]>
                              (<[filepath_Dir file := Directory]> (nodes f))) (denied f),
                         None)
                 end)
                = (mkFileSystem
                     (<[file := File (Document j)]>
                        (<[filepath_Dir file := Directory]> (nodes f))) (denied f),
                   None : option error)).
  { destruct (nodes f !! file) as [[c |] |] eqn:Hnode; try reflexivity.
    exfalso. exact (Hnodir eq_refl). }
  rewrite Hwr. eexists. split; [reflexivity |]. split.
  - exists j. cbn [nodes]. rewrite lookup_insert_eq. auto.
  - unfold writable. cbn [nodes denied].
    repeat (split; [assumption |]). split.
    + intros c. rewrite lookup_insert_ne by congruence. rewrite lookup_insert_eq. discriminate.
    + rewrite lookup_insert_eq. discriminate.
Qed.

(** A load from a file that holds the document of a model gives the model
    back, timestamps without their monotonic readings. *)
Lemma LoadProgressFromFile_holds (dp : DeploymentProgress) (file : string) (w : World) :
  holds (fs w) file dp -> file ∉ denied (fs w) -> encodable dp ->
  LoadProgressFromFile file w = (w, inr (stripProgress dp)).
Proof.
  intros (j & Hnode & Hmarshal) Hok Henc.
  destruct (Marshal_Unmarshal dp Henc) as (j' & Hmarshal' & Hunmarshal).
  rewrite Hmarshal in Hmarshal'. injection Hmarshal' as <-.
  unfold LoadProgressFromFile, notExist, ReadFile.
  destruct (decide (file ∈ denied (fs w))); [contradiction |].
  rewrite Hnode, Hunmarshal. reflexivity.
Qed.

(** With resume enabled, a save in a savable state succeeds: the state is
    as it was but for the file, which holds the progress model. *)
Lemma saveOrWarn_savable (c : Config) (file what : string) (s : RunState) :
  ResumeEnabled c = true -> savable file s ->
  let s' := saveOrWarn c file what s in
  rs_progress s' = rs_progress s
  /\ rs_store s' = rs_store s
  /\ rs_trace s' = rs_trace s ++ [EvSave (rs_progress s)]
  /\ clock (rs_world s') = clock (rs_world s)
  /\ ticks (rs_world s') = ticks (rs_world s)
  /\ holds (fs (rs_world s')) file (rs_progress s)
  /\ writable (fs (rs_world s')) file.
Proof.
  intros Hres (_ & Henc & _ & Hwr). unfold saveOrWarn, saveProgress. rewrite Hres.
  cbn [negb].
  destruct (SaveProgressToFile_writable (rs_progress s) file (fs (rs_world s)) Hwr Henc)
    as (f' & Hsave & Hholds & Hwr').
  rewrite Hsave. cbn. auto 10.
Qed.

Lemma beginTask_unfold (c : Config) (file : string) (useColor : bool) (hl : Z)
    (i : nat) (t : Task) (s : RunState) (m : gmap string ProgressInfo) :
  TaskProgress (rs_progress s) = Some m ->
  let name := task_Name t in
  let now := clock (rs_world s) (ticks (rs_world s)) in
  exists lg,
    beginTask c file useColor hl i t s
    = Continue (saveOrWarn c file "progress"
        (mkRunState
           (setTaskProgress (setCurrentTask (rs_progress s) name)
                            (<[name := startedRecord name now]> m))
           (rs_store s)
           (mkWorld (fs (rs_world s)) (clock (rs_world s)) (S (ticks (rs_world s))) lg)
           (rs_trace s ++ [EvCurrentTask name; EvRecord name (startedRecord name now)]))).
Proof.
  intros Hm name now. unfold beginTask.
  cbn [rs_progress rs_world rs_trace rs_store emit withProgress withWorld withLog
       Now fst snd TaskProgress setCurrentTask ticks clock log fs].
  rewrite Hm. eexists. unfold emit, withProgress, withWorld.
  cbn [rs_progress rs_store rs_world rs_trace].
  rewrite <- app_assoc. reflexivity.
Qed.

Lemma completeTask_unfold (c : Config) (file : string) (t : Task) (s : RunState)
    (m : gmap string ProgressInfo) :
  TaskProgress (rs_progress s) = Some m ->
  let name := task_Name t in
  let now := clock (rs_world s) (ticks (rs_world s)) in
  let info := completedRecord (default Json.zeroProgressInfo (m !! name)) now in
  completeTask c file t s
  = Continue (saveOrWarn c file "progress"
      (mkRunState
         (setCompletedTasks (setTaskProgress (rs_progress s) (<[name := info]> m))
                            (int_add (CompletedTasks (rs_progress s)) 1))
         (rs_store s)
         (mkWorld (fs (rs_world s)) (clock (rs_world s)) (S (ticks (rs_world s)))
                  (log (rs_world s)))
         (rs_trace s ++ [EvRecord name info; EvIncrement]))).
Proof.
  intros Hm name now info. unfold completeTask.
  cbn [rs_progress rs_world rs_trace rs_store emit withProgress withWorld withLog
       Now fst snd TaskProgress ticks clock log fs].
  rewrite Hm. unfold emit, withProgress, withWorld.
  cbn [mapLookup rs_progress rs_store rs_world rs_trace].
  rewrite <- app_assoc. reflexivity.
Qed.

Lemma encodableInfo_started (name : string) (now : Time) :
  Utf8.ValidString name = true -> encodableTime now ->
  encodableInfo (startedRecord name now).
Proof.
  intros Hname Hnow. unfold encodableInfo, startedRecord, isInt, MinInt64, MaxInt64.
  cbn [TaskID Name TotalSteps CompletedSteps pi_StartTime pi_EndTime].
  split; [exact Hname |]. split; [exact Hname |]. split; [lia |]. split; [lia |].
  split; [exact Hnow | apply encodableTime_zero].
Qed.

Lemma encodableInfo_completed (old : ProgressInfo) (now : Time) :
  encodableInfo old -> encodableTime now -> encodableInfo (completedRecord old now).
Proof.
  intros (Hid & Hname & Htotal & Hsteps & Hst & _) Hnow.
  unfold encodableInfo, completedRecord.
  cbn [TaskID Name TotalSteps CompletedSteps pi_StartTime pi_EndTime]. auto 10.
Qed.

(** One iteration of the loop in a savable state, with resume enabled, for
    a task that leaves the files and the clock alone: the iteration does
    not panic; it leaves a savable state; and the file holds the progress
    model it leaves, unless the task was skipped, which changes neither. *)
Lemma runTask_savable (c : Config) (file : string) (ctx : Context) (useColor : bool)
    (hl : Z) (i : nat) (t : Task) (s : RunState) :
  ResumeEnabled c = true -> savable file s -> keepsWorld t ->
  Utf8.ValidString (task_Name t) = true ->
  match runTask c file ctx useColor hl i t s with
  | Continue s' =>
      savable file s'
      /\ (holds (fs (rs_world s')) file (rs_progress s')
          \/ (rs_progress s' = rs_progress s /\ fs (rs_world s') = fs (rs_world s)))
  | Return s' _ => savable file s' /\ holds (fs (rs_world s')) file (rs_progress s')
  | Panic _ _ => False
  end.
Proof.
  intros Hres Hsav Hkeep Hname. unfold runTask.
  destruct (skips c t (rs_progress s)) eqn:Hskip.
  - split; [| right; split; reflexivity]. exact Hsav.
  - destruct Hsav as ((m & Hm) & Henc & Hclock & Hwr).
    destruct (beginTask_unfold c file useColor hl i t s m Hm) as (lg & ->).
    set (name := task_Name t) in *.
    set (now := clock (rs_world s) (ticks (rs_world s))).
    set (dp1 := setTaskProgress (setCurrentTask (rs_progress s) name)
                                (<[name := startedRecord name now]> m)).
    assert (Henc1 : encodable dp1).
    { apply encodable_insert; [apply encodable_setCurrentTask; assumption | exact Hm
                              | exact Hname |].
      apply encodableInfo_started; [exact Hname | apply Hclock]. }
    match goal with |- context [saveOrWarn c file "progress" ?st] => set (s1 := st) end.
    assert (Hsav1 : savable file s1).
    { split; [exists (<[name := startedRecord name now]> m); reflexivity |].
      split; [exact Henc1 |]. split; [exact Hclock | exact Hwr]. }
    destruct (saveOrWarn_savable c file "progress" s1 Hres Hsav1)
      as (Hp & Hs & Ht & Hc & Hk & Hholds & Hwr1).
    set (sb := saveOrWarn c file "progress" s1) in *.
    unfold invoke.
    cbn [rs_progress rs_world rs_trace rs_store emit withProgress withWorld withLog].
    destruct (Hkeep ctx (rs_store sb) (rs_world sb)) as [Hfs Hck].
    destruct (task_Run t ctx (rs_store sb) (rs_world sb)) as [[store w'] result].
    cbn [fst snd] in Hfs, Hck.
    assert (Hsav2 : savable file (mkRunState (rs_progress sb) store w'
                                             (rs_trace sb ++ [EvRun i (task_Name t)]))).
    { split; [exists (<[name := startedRecord name now]> m); rewrite Hp; reflexivity |].
      cbn [rs_progress rs_world]. rewrite Hp, Hck, Hc, Hfs.
      split; [exact Henc1 |]. split; [exact Hclock | exact Hwr1]. }
    destruct result as [err |].
    + split; [exact Hsav2 |]. cbn [rs_world rs_progress]. rewrite Hfs, Hp. exact Hholds.
    + match goal with |- context [completeTask c file t ?st] => set (s2 := st) in * end.
      assert (Hm2 : TaskProgress (rs_progress s2) = Some (<[name := startedRecord name now]> m))
        by (cbn [s2 rs_progress]; rewrite Hp; reflexivity).
      rewrite (completeTask_unfold c file t s2 _ Hm2). fold name.
      rewrite lookup_insert_eq. cbn [default].
      match goal with |- context [saveOrWarn c file "progress" ?st] => set (s3 := st) end.
      assert (Hsav3 : savable file s3).
      { split; [eexists; reflexivity |]. split; [| split].
        - apply encodable_setCompletedTasks; [| apply isInt_wrap64].
          apply encodable_insert; [destruct Hsav2 as (_ & H & _); exact H | exact Hm2
                                  | exact Hname |].
          apply encodableInfo_completed.
          + apply encodableInfo_started; [exact Hname | apply Hclock].
          + destruct Hsav2 as (_ & _ & H & _). apply H.
        - destruct Hsav2 as (_ & _ & H & _). exact H.
        - destruct Hsav2 as (_ & _ & _ & H). exact H. }
      destruct (saveOrWarn_savable c file "progress" s3 Hres Hsav3)
        as (Hp3 & Hs3 & Ht3 & Hc3 & Hk3 & Hholds3 & Hwr3).
      split; [| left; rewrite Hp3; exact Hholds3].
      destruct Hsav3 as (Hm3 & Henc3 & Hclock3 & _).
      split; [rewrite Hp3; exact Hm3 |]. rewrite Hp3, Hc3.
      split; [exact Henc3 |]. split; [exact Hclock3 | exact Hwr3].
Qed.

Lemma runLoop_savable (c : Config) (file : string) (ctx : Context) (useColor : bool)
    (hl : Z) (ts : list Task) :
  ResumeEnabled c = true ->
  Forall (fun t => keepsWorld t /\ Utf8.ValidString (task_Name t) = true) ts ->
  forall (i : nat) (s : RunState),
    savable file s ->
    match runLoop c file ctx useColor hl i ts s with
    | Continue s' =>
        savable file s'
        /\ (holds (fs (rs_world s')) file (rs_progress s')
            \/ (rs_progress s' = rs_progress s /\ fs (rs_world s') = fs (rs_world s)))
    | Return s' _ => savable file s' /\ holds (fs (rs_world s')) file (rs_progress s')
    | Panic _ _ => False
    end.
Proof.
  intros Hres Hts. induction Hts as [| t rest [Hkeep Hname] _ IH]; intros i s Hsav.
  - cbn [runLoop]. split; [exact Hsav | right; split; reflexivity].
  - cbn [runLoop].
    pose proof (runTask_savable c file ctx useColor hl i t s Hres Hsav Hkeep Hname) as Hstep.
    destruct (runTask c file ctx useColor hl i t s) as [s1 | s1 err | s1 p];
      [| exact Hstep | exact Hstep].
    destruct Hstep as [Hsav1 Hsync1].
    specialize (IH (S i) s1 Hsav1).
    destruct (runLoop c file ctx useColor hl (S i) rest s1) as [s2 | s2 err | s2 p];
      [| exact IH | exact IH].
    destruct IH as [Hsav2 Hsync2]. split; [exact Hsav2 |].
    destruct Hsync2 as [Hholds2 | [Hp2 Hf2]]; [left; exact Hholds2 |].
    destruct Hsync1 as [Hholds1 | [Hp1 Hf1]].
    + left. rewrite Hp2, Hf2. exact Hholds1.
    + right. split; congruence.
Qed.

(** The end of the loop in a savable state: the final save leaves the final
    progress model in the file. *)
Lemma finish_savable (c : Config) (file : string) (hl : Z) (s : RunState) :
  ResumeEnabled c = true -> savable file s ->
  savable file (finish c file hl s)
  /\ holds (fs (rs_world (finish c file hl s))) file (rs_progress (finish c file hl s)).
Proof.
  intros Hres ((m & Hm) & Henc & Hclock & Hwr). unfold finish.
  cbn [Now rs_world rs_progress withWorld withProgress rs_trace rs_store fst snd].
  match goal with |- context [saveOrWarn c file "final progress" ?st] => set (s1 := st) end.
  assert (Hsav1 : savable file s1).
  { subst s1. destruct (ShowProgress c);
      cbn [rs_world rs_progress withWorld withProgress withLog fs clock];
      (split; [exists m; exact Hm |]);
      (split; [apply encodable_setEndTime; [exact Henc | apply Hclock] |]);
      (split; [exact Hclock | exact Hwr]). }
  destruct (saveOrWarn_savable c file "final progress" s1 Hres Hsav1)
    as (Hp & _ & _ & Hc & _ & Hholds & Hwr1).
  unfold savable. rewrite Hp, Hc. split; [| exact Hholds].
  destruct Hsav1 as (Hm1 & Henc1 & Hclock1 & _).
  split; [exact Hm1 |]. split; [exact Henc1 |]. split; [exact Hclock1 | exact Hwr1].
Qed.

(** With resume enabled, no event of a run touches a task whose record is
    completed when the run starts. *)
Lemma Run_leaves_completed (r : Runner) (ctx : Context) (w : World)
    (rt : Runtime) (dp : DeploymentProgress) (T : string) (info : ProgressInfo) :
  initialised r rt dp ->
  ResumeEnabled (cfg r) = true ->
  mapLookup (TaskProgress dp) T = Some info ->
  Completed info = true ->
  Forall (fun e => touches T e = false) (out_trace (Run r ctx w)).
Proof.
  intros Hinit Hres Hlook Hdone. rewrite (Run_unfold r ctx w rt dp Hinit).
  set (s0 := mkRunState dp (sync_Map rt) w []).
  destruct (runLoop_leaves_completed (cfg r) (progressFile r) ctx (useColorOf (cfg r))
              (highlightColorOf (cfg r)) T info (tasks r) Hres Hdone 0%nat s0 Hlook)
    as (ev & Htrace & Hquiet & _).
  cbn [rs_trace s0 app] in Htrace.
  destruct (runLoop _ _ _ _ _ _ _ s0) as [s1 | s1 err | s1 p];
    cbn [stateOf] in Htrace; cbn [out_trace].
  - destruct (finish_spec (cfg r) (progressFile r) (highlightColorOf (cfg r)) s1) as [_ Ht].
    rewrite Ht, Htrace. apply Forall_app. split; [exact Hquiet |].
    unfold saveEvents. destruct (ResumeEnabled (cfg r)); repeat constructor.
  - rewrite Htrace. exact Hquiet.
  - rewrite Htrace. exact Hquiet.
Qed.

(** A run with resume enabled, from a savable state and with tasks that
    leave the files and the clock alone, does not panic; the state it ends
    in is savable and its progress model is in the file; and [Init] of a new
    runner over the same configuration and tasks restores that model. *)
Lemma Run_then_Init (r : Runner) (ctx : Context) (w : World)
    (rt : Runtime) (dp : DeploymentProgress) :
  initialised r rt dp ->
  ResumeEnabled (cfg r) = true ->
  progressFile r = progressFileOf (cfg r) ->
  savable (progressFile r) (mkRunState dp (sync_Map rt) w []) ->
  Forall (fun t => keepsWorld t /\ Utf8.ValidString (task_Name t) = true) (tasks r) ->
  exists s1 result lg,
    Run r ctx w
    = mkRunOutcome (runnerAfter r rt s1) (rs_world s1) (rs_trace s1) (Returns result)
    /\ match runLoop (cfg r) (progressFile r) ctx (useColorOf (cfg r))
                     (highlightColorOf (cfg r)) 0 (tasks r)
                     (mkRunState dp (sync_Map rt) w []) with
       | Continue s' =>
           s1 = finish (cfg r) (progressFile r) (highlightColorOf (cfg r)) s'
           /\ result = None
       | Return s' err => s1 = s' /\ result = Some err
       | Panic _ _ => False
       end
    /\ savable (progressFile r) s1
    /\ holds (fs (rs_world s1)) (progressFile r) (rs_progress s1)
    /\ Init (newRunner (cfg r) (tasks r)) (rs_world s1)
       = (mkRunner (Some (mkRuntime ∅ (cfg r) (WorkDir (cfg r))
                            (Some (setTotalTasks (stripProgress (rs_progress s1))
                                     (Z.of_nat (length (tasks r)))))))
                   (tasks r) (cfg r) true (progressFile r),
          withLog (rs_world s1) lg).
Proof.
  intros Hinit Hres Hfile Hsav Hts.
  set (c := cfg r) in *. set (file := progressFile r) in *.
  assert (Hend : exists s1 result,
             Run r ctx w
             = mkRunOutcome (runnerAfter r rt s1) (rs_world s1) (rs_trace s1)
                            (Returns result)
             /\ match runLoop c file ctx (useColorOf c) (highlightColorOf c) 0 (tasks r)
                              (mkRunState dp (sync_Map rt) w []) with
                | Continue s' => s1 = finish c file (highlightColorOf c) s' /\ result = None
                | Return s' err => s1 = s' /\ result = Some err
                | Panic _ _ => False
                end
             /\ savable file s1
             /\ holds (fs (rs_world s1)) file (rs_progress s1)).
  { rewrite (Run_unfold r ctx w rt dp Hinit). fold c file.
    pose proof (runLoop_savable c file ctx (useColorOf c) (highlightColorOf c) (tasks r)
                  Hres Hts 0%nat _ Hsav) as Hloop.
    destruct (runLoop c file ctx (useColorOf c) (highlightColorOf c) 0 (tasks r) _)
      as [s1 | s1 err | s1 p]; [| | contradiction].
    - destruct Hloop as [Hsav1 _].
      destruct (finish_savable c file (highlightColorOf c) s1 Hres Hsav1) as [Hsavf Hholdsf].
      eexists _, _. split; [reflexivity |]. split; [split; reflexivity |].
      split; assumption.
    - destruct Hloop as [Hsav1 Hholds1].
      eexists _, _. split; [reflexivity |]. split; [split; reflexivity |].
      split; assumption. }
  destruct Hend as (s1 & result & Hout & Hshape & Hsav1 & Hholds1).
  exists s1, result. eexists. split; [exact Hout |]. split; [exact Hshape |].
  split; [exact Hsav1 |]. split; [exact Hholds1 |].
  destruct Hsav1 as ((m1 & Hm1) & Henc1 & _ & Hwr1).
  assert (Hload : LoadProgressFromFile file (rs_world s1)
                  = (rs_world s1, inr (stripProgress (rs_progress s1)))).
  { apply LoadProgressFromFile_holds; [exact Hholds1 | | exact Henc1].
    destruct Hwr1 as (_ & Hok & _). exact Hok. }
  unfold Init, initProgressTracking, newRunner. cbn [cfg tasks].
  fold c. fold (progressFileOf c). rewrite <- Hfile, Hres, Hload. reflexivity.
Qed.

(** Resuming. A run with resume enabled, from a savable state (a task map
    that is not nil, a progress model and clock readings the file can hold,
    a progress file that can be written) and with tasks that leave the
    files and the clock alone, does not panic and leaves its final progress
    model in the progress file, whether it returns nil or the error of a
    task. A new runner over the same configuration and tasks is then
    initialised with that progress model, timestamps without their
    monotonic readings and [TotalTasks] counted anew; and its run invokes
    no task whose record the first run left completed. *)
Theorem resumed_run_skips_completed (r : Runner) (ctx ctx2 : Context) (w : World)
    (rt : Runtime) (dp : DeploymentProgress) :
  initialised r rt dp ->
  ResumeEnabled (cfg r) = true ->
  progressFile r = progressFileOf (cfg r) ->
  savable (progressFile r) (mkRunState dp (sync_Map rt) w []) ->
  Forall (fun t => keepsWorld t /\ Utf8.ValidString (task_Name t) = true) (tasks r) ->
  let out := Run r ctx w in
  let again := Init (newRunner (cfg r) (tasks r)) (out_world out) in
  exists dp1,
    progressOf (out_runner out) = Some dp1
    /\ (exists result, out_result out = Returns result)
    /\ holds (fs (out_world out)) (progressFile r) dp1
    /\ progressOf (fst again)
       = Some (setTotalTasks (stripProgress dp1) (Z.of_nat (length (tasks r))))
    /\ forall T info,
         mapLookup (TaskProgress dp1) T = Some info -> Completed info = true ->
         runsOf T (out_trace (Run (fst again) ctx2 (snd again))) = [].
Proof.
  intros Hinit Hres Hfile Hsav Hts out again. subst out again.
  destruct (Run_then_Init r ctx w rt dp Hinit Hres Hfile Hsav Hts)
    as (s1 & result & lg & -> & _ & Hsav1 & Hholds1 & Hagain).
  cbn [out_world out_runner out_result]. rewrite Hagain. cbn [fst snd].
  destruct Hsav1 as ((m1 & Hm1) & _).
  exists (rs_progress s1).
  split; [reflexivity |]. split; [exists result; reflexivity |].
  split; [exact Hholds1 |]. split; [reflexivity |].
  intros T info Hlook Hdone. apply runsOf_untouched.
  eapply (Run_leaves_completed _ ctx2 _ _ _ T (stripInfo info)).
  - split; reflexivity.
  - exact Hres.
  - cbn [setTotalTasks TaskProgress stripProgress]. rewrite Hm1 in Hlook |- *.
    cbn [mapLookup fmap option_fmap option_map] in Hlook |- *.
    rewrite lookup_fmap, Hlook. reflexivity.
  - exact Hdone.
Qed.

Lemma runLoop_all_skipped (c : Config) (file : string) (ctx : Context) (useColor : bool)
    (hl : Z) (ts : list Task) :
  ResumeEnabled c = true ->
  forall (i : nat) (s : RunState),
    (forall t, In t ts ->
       exists info, mapLookup (TaskProgress (rs_progress s)) (task_Name t) = Some info
                    /\ Completed info = true) ->
    exists s' ev,
      runLoop c file ctx useColor hl i ts s = Continue s'
      /\ rs_progress s' = rs_progress s
      /\ rs_trace s' = rs_trace s ++ ev
      /\ runs ev = []
      /\ saved ev = []
      /\ visited ev = seq i (length ts).
Proof.
  intros Hres. induction ts as [| t rest IH]; intros i s Hall.
  - exists s, []. cbn [runLoop]. rewrite app_nil_r. repeat split; reflexivity.
  - destruct (Hall t (or_introl eq_refl)) as (info & Hlook & Hdone).
    cbn [runLoop]. unfold runTask.
    rewrite (skips_completed c t _ info Hres Hlook Hdone).
    match goal with |- context [runLoop c file ctx useColor hl (S i) rest ?st] =>
      destruct (IH (S i) st) as (s' & ev & Hloop & Hp & Ht & Hr & Hs & Hv) end.
    { intros t' Hin. exact (Hall t' (or_intror Hin)). }
    exists s', (EvSkip i (task_Name t) :: ev). rewrite Hloop.
    split; [reflexivity |]. split; [rewrite Hp; reflexivity |].
    split; [rewrite Ht; cbn [emit rs_trace withWorld]; rewrite <- app_assoc; reflexivity |].
    split; [exact Hr |]. split; [exact Hs |].
    cbn [length seq]. rewrite <- Hv. reflexivity.
Qed.

(** Running again after a deployment that completed. When no task fails, a
    run with resume enabled from a savable state returns nil; a new runner
    over the same configuration and tasks, initialised from the progress
    file that run left, then returns nil without running any task: every
    task is skipped, in order, and the counter of completed tasks stays as
    the first run left it. *)
Theorem rerun_after_completion_runs_nothing (r : Runner) (ctx ctx2 : Context) (w : World)
    (rt : Runtime) (dp : DeploymentProgress) :
  initialised r rt dp ->
  ResumeEnabled (cfg r) = true ->
  progressFile r = progressFileOf (cfg r) ->
  savable (progressFile r) (mkRunState dp (sync_Map rt) w []) ->
  Forall (fun t => keepsWorld t /\ Utf8.ValidString (task_Name t) = true) (tasks r) ->
  Forall neverFails (tasks r) ->
  MinInt64 <= CompletedTasks dp ->
  CompletedTasks dp + Z.of_nat (length (tasks r)) <= MaxInt64 ->
  let out := Run r ctx w in
  let again := Init (newRunner (cfg r) (tasks r)) (out_world out) in
  let out2 := Run (fst again) ctx2 (snd again) in
  out_result out = Returns None
  /\ out_result out2 = Returns None
  /\ runs (out_trace out2) = []
  /\ visited (out_trace out2) = seq 0 (length (tasks r))
  /\ exists dp1 dp2,
       progressOf (out_runner out) = Some dp1
       /\ progressOf (out_runner out2) = Some dp2
       /\ CompletedTasks dp2 = CompletedTasks dp1.
Proof.
  intros Hinit Hres Hfile Hsav Hts Hok Hlow Hhigh out again out2. subst out2 again out.
  destruct (Run_then_Init r ctx w rt dp Hinit Hres Hfile Hsav Hts)
    as (s1 & result & lg & -> & Hshape & Hsav1 & _ & Hagain).
  cbn [out_world out_runner out_result]. rewrite Hagain. cbn [fst snd].
  set (c := cfg r) in *. set (file := progressFile r) in *.
  destruct Hsav as ((m & Hm) & _).
  destruct (runLoop_succeeds c file ctx (useColorOf c) (highlightColorOf c) (tasks r) Hok
              0%nat (mkRunState dp (sync_Map rt) w []) m Hm Hlow Hhigh)
    as (s' & m' & ev & Hloop & _ & _ & Hm' & Hall & _ & _).
  rewrite Hloop in Hshape. destruct Hshape as [-> ->].
  destruct (finish_spec c file (highlightColorOf c) s') as [Hpf _].
  set (dp2 := setTotalTasks (stripProgress (rs_progress (finish c file (highlightColorOf c) s')))
                            (Z.of_nat (length (tasks r)))).
  set (r2 := mkRunner (Some (mkRuntime ∅ c (WorkDir c) (Some dp2))) (tasks r) c true file).
  assert (Hinit2 : initialised r2 (mkRuntime ∅ c (WorkDir c) (Some dp2)) dp2)
    by (split; reflexivity).
  rewrite (Run_unfold r2 ctx2 _ _ dp2 Hinit2). cbn [cfg progressFile tasks r2 sync_Map].
  match goal with |- context [runLoop c file ctx2 ?u ?h 0 (tasks r) ?st] =>
    destruct (runLoop_all_skipped c file ctx2 u h (tasks r) Hres 0%nat st)
      as (s2 & ev2 & Hloop2 & Hp2 & Ht2 & Hr2 & _ & Hv2) end.
  { intros t Hin. destruct (Hall t Hin) as (info & Hlook & Hdone).
    exists (stripInfo info). cbn [rs_progress]. unfold dp2.
    cbn [setTotalTasks TaskProgress stripProgress]. rewrite Hpf.
    cbn [setEndTime TaskProgress]. rewrite Hm'.
    cbn [mapLookup fmap option_fmap option_map].
    rewrite lookup_fmap, Hlook. split; [reflexivity | exact Hdone]. }
  rewrite Hloop2. cbv zeta. cbn [out_result out_trace out_runner].
  destruct (finish_spec c file (highlightColorOf c) s2) as [Hpf2 Htf2].
  split; [reflexivity |]. split; [reflexivity |].
  rewrite Htf2, Ht2. cbn [rs_trace app].
  split; [rewrite runs_app, runs_saveEvents, app_nil_r; exact Hr2 |].
  split; [rewrite visited_app, visited_saveEvents, app_nil_r; exact Hv2 |].
  eexists _, _. split; [reflexivity |]. split; [reflexivity |].
  cbn [runnerAfter runtime Progress]. rewrite Hpf2, Hp2. reflexivity.
Qed.

End Runner.

(** ** The command line *)






Lemma findCommand_none (rest : list string) (i : Z) :
  Forall (fun arg => Cli.index Cli.subcommands arg = false) rest ->
  Cli.findCommand i rest = -1.
Proof.
  intros Hrest. revert i. induction Hrest as [| arg rest Harg _ IH]; intros i.
  - reflexivity.
  - cbn [Cli.findCommand]. rewrite Harg. apply IH.
Qed.









(** A command line of two arguments at most, or without a subcommand, is
    accepted. *)
Lemma check_without_command (args : list string) :
  (length args <= 2)%nat
  \/ Forall (fun arg => Cli.index Cli.subcommands arg = false) (skipn 1 args) ->
  Cli.checkGlobalFlagsPlacement args = Cli.Returned.
Proof.
  intros H. unfold Cli.checkGlobalFlagsPlacement.
  destruct (length args <=? 2)%nat eqn:E; [reflexivity |].
  destruct H as [H | H]; [apply Nat.leb_gt in E; lia |].
  rewrite (findCommand_none _ 1 H). reflexivity.
Qed.



(** ** Exact conversions through [float64] *)

(** Rounding keeps a value between two bounds on a grid that is not finer
    than the format at that magnitude. *)
Lemma round_aux_between (mx ex g l u : Z) (lx : location) :
  0 <= l ->
  Z.max ex (fexp prec emax (Zdigits2 mx + ex)) <= g ->
  l * 2 ^ (g - ex) <= mx < u * 2 ^ (g - ex) ->
  u < 2 ^ 53 ->
  -1074 <= g <= 971 ->
  inRange l u g (binary_round_aux prec emax false mx ex lx).
Proof.
  intros Hl He [Hlo Hhi] Hu [Hglo Hghi]. unfold binary_round_aux.
  assert (Hgex : 0 <= g - ex) by lia.
  assert (Hpgex : 0 < 2 ^ (g - ex)) by (apply pow2_pos; exact Hgex).
  assert (Hmx : 0 <= mx) by nia.
  pose proof (shr_fexp_spec mx ex lx Hmx) as [Hm1 He1].
  destruct (shr_fexp prec emax mx ex lx) as [mrs1 e1]. simpl in Hm1, He1.
  set (n1 := Z.max 0 (fexp prec emax (Zdigits2 mx + ex) - ex)) in *.
  assert (Hn1 : 0 <= n1) by lia.
  assert (He1g : e1 <= g) by lia.
  assert (Hp1 : 0 < 2 ^ n1) by (apply pow2_pos; exact Hn1).
  assert (Hpg1 : 0 < 2 ^ (g - e1)) by (apply pow2_pos; lia).
  assert (Hsplit : 2 ^ (g - ex) = 2 ^ (g - e1) * 2 ^ n1)
    by (rewrite <- Z.pow_add_r by lia; f_equal; lia).
  assert (Hm1lo : l * 2 ^ (g - e1) <= shr_m mrs1).
  { rewrite Hm1. apply Z.div_le_lower_bound; [exact Hp1 |].
    rewrite Hsplit in Hlo. lia. }
  assert (Hm1hi : shr_m mrs1 < u * 2 ^ (g - e1)).
  { rewrite Hm1. apply Z.div_lt_upper_bound; [exact Hp1 |].
    rewrite Hsplit in Hhi. lia. }
  pose proof (round_nearest_even_bounds (shr_m mrs1) (loc_of_shr_record mrs1)) as Hround.
  set (m2 := round_nearest_even (shr_m mrs1) (loc_of_shr_record mrs1)) in *.
  assert (Hm2pos : 0 <= m2) by nia.
  assert (Hm2lo : l * 2 ^ (g - e1) <= m2) by lia.
  assert (Hm2hi : m2 <= u * 2 ^ (g - e1)) by lia.
  assert (Hm2lt : m2 < 2 ^ (53 + g - e1)).
  { replace (53 + g - e1) with (53 + (g - e1)) by lia.
    rewrite Z.pow_add_r by lia. nia. }
  pose proof (Zdigits2_le m2 (53 + g - e1) (conj Hm2pos Hm2lt)) as Hd2.
  pose proof (shr_fexp_spec m2 e1 loc_Exact Hm2pos) as [Hm3 He3].
  destruct (shr_fexp prec emax m2 e1 loc_Exact) as [mrs3 e3]. simpl in Hm3, He3.
  rewrite fexp_eq in Hm3, He3.
  set (n2 := Z.max 0 (Z.max (Zdigits2 m2 + e1 - 53) (-1074) - e1)) in *.
  assert (Hn2 : 0 <= n2) by lia.
  assert (He3g : e3 <= g) by lia.
  assert (Hp2 : 0 < 2 ^ n2) by (apply pow2_pos; exact Hn2).
  assert (Hpg3 : 0 < 2 ^ (g - e3)) by (apply pow2_pos; lia).
  assert (Hsplit2 : 2 ^ (g - e1) = 2 ^ (g - e3) * 2 ^ n2)
    by (rewrite <- Z.pow_add_r by lia; f_equal; lia).
  assert (Hm3lo : l * 2 ^ (g - e3) <= shr_m mrs3).
  { rewrite Hm3. apply Z.div_le_lower_bound; [exact Hp2 |].
    rewrite Hsplit2 in Hm2lo. lia. }
  assert (Hm3hi : shr_m mrs3 <= u * 2 ^ (g - e3)).
  { rewrite Hm3. apply Z.div_le_upper_bound; [exact Hp2 |].
    rewrite Hsplit2 in Hm2hi. lia. }
  destruct (shr_m mrs3) as [| m3 | m3] eqn:Hm3eq.
  - simpl. nia.
  - change (emax - prec) with 971.
    destruct (e3 <=? 971) eqn:Hcheck; [| lia].
    simpl. split; [exact He3g |]. split; assumption.
  - nia.
Qed.

Lemma shr_fexp_none (m e : Z) (l : location) :
  fexp prec emax (Zdigits2 m + e) - e <= 0 ->
  shr_fexp prec emax m e l = (shr_record_of_loc m l, e).
Proof.
  intros Hn. unfold shr_fexp, shr.
  destruct (fexp prec emax (Zdigits2 m + e) - e) as [| p | p]; [reflexivity | lia | reflexivity].
Qed.

Lemma Zdigits2_eq (m d : Z) : 0 < d -> 2 ^ (d - 1) <= m < 2 ^ d -> Zdigits2 m = d.
Proof.
  intros Hd [Hlo Hhi].
  assert (0 < 2 ^ (d - 1)) by (apply pow2_pos; lia).
  pose proof (Zdigits2_le m d ltac:(lia)).
  pose proof (Zdigits2_gt m (d - 1) ltac:(lia) Hlo). lia.
Qed.

(** A mantissa of 53 bits with an exponent in range is not changed by
    rounding. *)
Lemma round_aux_exact (m : positive) (e : Z) :
  2 ^ 52 <= Z.pos m < 2 ^ 53 -> -1074 <= e <= 971 ->
  binary_round_aux prec emax false (Z.pos m) e loc_Exact = S754_finite false m e.
Proof.
  intros Hm He. unfold binary_round_aux.
  assert (Hd : Zdigits2 (Z.pos m) = 53) by (apply Zdigits2_eq; [lia | exact Hm]).
  assert (Hn : fexp prec emax (Zdigits2 (Z.pos m) + e) - e <= 0)
    by (rewrite Hd, fexp_eq; lia).
  rewrite (shr_fexp_none _ _ _ Hn).
  cbn [shr_record_of_loc shr_m loc_of_shr_record round_nearest_even].
  rewrite (shr_fexp_none _ _ _ Hn).
  cbn [shr_record_of_loc shr_m]. change (emax - prec) with 971.
  destruct (e <=? 971) eqn:E; [reflexivity | lia].
Qed.

(** The conversion of an integer of 53 bits at most is exact. *)
Lemma float64_of_int_exact (n : Z) :
  0 < n < 2 ^ 53 ->
  exists m, float64_of_int n = S754_finite false m (Zdigits2 n - 53)
            /\ Z.pos m = n * 2 ^ (53 - Zdigits2 n).
Proof.
  intros [Hpos Hlt].
  pose proof (Zdigits2_bounds n Hpos) as [Hlo Hhi].
  pose proof (Zdigits2_le n 53 ltac:(lia)) as Hd53.
  assert (Hd1 : 1 <= Zdigits2 n).
  { pose proof (Zdigits2_gt n 0 ltac:(lia) ltac:(rewrite Z.pow_0_r; lia)). lia. }
  destruct n as [| p | p]; try lia.
  unfold float64_of_int, binary_normalize, binary_round.
  change (Z.pos (digits2_pos p)) with (Zdigits2 (Z.pos p)).
  set (d := Zdigits2 (Z.pos p)) in *.
  pose proof (shl_align_spec p 0 (fexp prec emax (d + 0))) as [Hez Hmz].
  destruct (shl_align p 0 (fexp prec emax (d + 0))) as [mz ez]. cbn [fst snd] in Hez, Hmz.
  rewrite fexp_eq in Hez, Hmz.
  assert (Hez' : ez = d - 53) by lia.
  assert (Hmz' : Z.pos mz = Z.pos p * 2 ^ (53 - d)).
  { rewrite Hmz. f_equal. f_equal. lia. }
  assert (Hp : 0 < 2 ^ (53 - d)) by (apply pow2_pos; lia).
  assert (Hrange : 2 ^ 52 <= Z.pos mz < 2 ^ 53).
  { rewrite Hmz'. split.
    - replace 52 with ((d - 1) + (53 - d)) by lia. rewrite Z.pow_add_r by lia. nia.
    - replace 53 with (d + (53 - d)) at 2 by lia. rewrite Z.pow_add_r by lia. nia. }
  rewrite (round_aux_exact mz ez Hrange ltac:(lia)).
  exists mz. rewrite Hez'. split; [reflexivity | exact Hmz'].
Qed.

Lemma normalized_range (n d : Z) :
  1 <= d <= 53 -> 2 ^ (d - 1) <= n < 2 ^ d -> 2 ^ 52 <= n * 2 ^ (53 - d) < 2 ^ 53.
Proof.
  intros Hd [Hlo Hhi].
  assert (Hp : 0 < 2 ^ (53 - d)) by (apply pow2_pos; lia).
  assert (H52 : 2 ^ 52 = 2 ^ (d - 1) * 2 ^ (53 - d))
    by (rewrite <- Z.pow_add_r by lia; f_equal; lia).
  assert (H53 : 2 ^ 53 = 2 ^ d * 2 ^ (53 - d))
    by (rewrite <- Z.pow_add_r by lia; f_equal; lia).
  rewrite H52, H53. nia.
Qed.

(** The quotient of [N] by a larger [D], both of 53 bits at most, stays
    below one by more than [2 ^ (- P)] when [D] leaves room for it. *)
Lemma fdiv_fraction (N D P : Z) :
  0 < N < D -> D < 2 ^ 53 -> 0 <= P <= 52 ->
  (2 ^ (53 - P) + 1) * D < 2 ^ 53 ->
  inRange 0 (2 ^ 53 - 2 ^ (53 - P) - 1) (-53) (fdiv (float64_of_int N) (float64_of_int D)).
Proof.
  intros [HN HND] HD HP Hroom.
  destruct (float64_of_int_exact N ltac:(lia)) as (mx & -> & Hmx).
  destruct (float64_of_int_exact D ltac:(lia)) as (my & -> & Hmy).
  set (dN := Zdigits2 N) in *. set (dD := Zdigits2 D) in *.
  pose proof (Zdigits2_bounds N HN) as [HNlo HNhi]. fold dN in HNlo, HNhi.
  pose proof (Zdigits2_bounds D ltac:(lia)) as [HDlo HDhi]. fold dD in HDlo, HDhi.
  assert (HdN : 1 <= dN <= 53).
  { split; [| apply Zdigits2_le; lia].
    pose proof (Zdigits2_gt N 0 ltac:(lia) ltac:(rewrite Z.pow_0_r; lia)). lia. }
  assert (HdD : dN <= dD <= 53).
  { split; [apply Zdigits2_le; lia | apply Zdigits2_le; lia]. }
  assert (HpN : 0 < 2 ^ (53 - dN)) by (apply pow2_pos; lia).
  assert (HpD : 0 < 2 ^ (53 - dD)) by (apply pow2_pos; lia).
  assert (Hdx : Zdigits2 (Z.pos mx) = 53).
  { apply Zdigits2_eq; [lia |]. rewrite Hmx. apply normalized_range; lia. }
  assert (Hdy : Zdigits2 (Z.pos my) = 53).
  { apply Zdigits2_eq; [lia |]. rewrite Hmy. apply normalized_range; lia. }
  unfold fdiv, SFdiv, SFdiv_core_binary. rewrite Hdx, Hdy, fexp_eq.
  set (e' := Z.min (Z.max (53 + (dN - 53) - (53 + (dD - 53)) - 53) (-1074))
                   (dN - 53 - (dD - 53))).
  assert (He' : e' = dN - dD - 53) by (unfold e'; lia).
  assert (Hs : dN - 53 - (dD - 53) - e' = 53) by lia.
  rewrite Hs. rewrite Z.shiftl_mul_pow2 by lia.
  assert (Hdiv : Z.div_eucl (Z.pos mx * 2 ^ 53) (Z.pos my)
                 = (Z.pos mx * 2 ^ 53 / Z.pos my, (Z.pos mx * 2 ^ 53) mod Z.pos my)).
  { unfold Z.div, Z.modulo. destruct (Z.div_eucl (Z.pos mx * 2 ^ 53) (Z.pos my)). reflexivity. }
  rewrite Hdiv. cbn [xorb].
  set (q := Z.pos mx * 2 ^ 53 / Z.pos my).
  set (u := 2 ^ 53 - 2 ^ (53 - P) - 1).
  assert (Hpk : 0 < 2 ^ (dD - dN)) by (apply pow2_pos; lia).
  assert (HpP : 0 < 2 ^ (53 - P)) by (apply pow2_pos; lia).
  assert (Hq0 : 0 <= q) by (apply Z.div_pos; lia).
  assert (Hqlt : q < u * 2 ^ (-53 - e')).
  { replace (-53 - e') with (dD - dN) by lia.
    apply Z.div_lt_upper_bound; [lia |].
    rewrite Hmx, Hmy.
    assert (Hsplit : 2 ^ (53 - dN) = 2 ^ (53 - dD) * 2 ^ (dD - dN))
      by (rewrite <- Z.pow_add_r by lia; f_equal; lia).
    rewrite Hsplit.
    assert (Hkey : N * 2 ^ 53 < D * u) by (unfold u; nia).
    assert (Hpp : 0 < 2 ^ (53 - dD) * 2 ^ (dD - dN)) by nia.
    nia. }
  assert (Hu : u < 2 ^ 53) by (unfold u; lia).
  assert (Hqd : Zdigits2 q <= - e').
  { apply Zdigits2_le. split; [exact Hq0 |].
    replace (- e') with (53 + (-53 - e')) by lia. rewrite Z.pow_add_r by lia.
    assert (0 < 2 ^ (-53 - e')) by (apply pow2_pos; lia). nia. }
  apply round_aux_between.
  - lia.
  - rewrite fexp_eq. lia.
  - split; [lia | exact Hqlt].
  - exact Hu.
  - lia.
Qed.

Lemma inRange_weaken (l l' u u' g : Z) (x : float64) :
  l' <= l -> u <= u' -> inRange l u g x -> inRange l' u' g x.
Proof.
  intros Hl Hu. destruct x as [[] | | | [] m e]; simpl; try tauto; try lia.
  intros (He & Hlo & Hhi). assert (0 < 2 ^ (g - e)) by (apply pow2_pos; lia).
  split; [exact He |]. nia.
Qed.

(** The integer part of a value within [[H, H + 1)]. *)
Lemma truncate_inRange (H P : Z) (x : float64) :
  0 <= H -> 0 <= P ->
  inRange (H * 2 ^ P) ((H + 1) * 2 ^ P - 1) (- P) x ->
  truncate x = Some H.
Proof.
  intros HH HP. assert (HpP : 0 < 2 ^ P) by (apply pow2_pos; exact HP).
  destruct x as [[] | | | [] m e]; simpl; try tauto.
  - intros Hz. f_equal. nia.
  - intros (He & Hlo & Hhi).
    assert (Hpe : 0 < 2 ^ (- P - e)) by (apply pow2_pos; lia).
    assert (Hsplit : 2 ^ (- e) = 2 ^ P * 2 ^ (- P - e))
      by (rewrite <- Z.pow_add_r by lia; f_equal; lia).
    destruct (0 <=? e) eqn:E.
    + apply Z.leb_le in E. assert (e = 0) by lia. subst e.
      assert (P = 0) by lia. subst P. simpl in *. f_equal. lia.
    + f_equal. symmetry. apply Z.div_unique with (r := Z.pos m - H * 2 ^ (- e)).
      * left. rewrite Hsplit. nia.
      * lia.
Qed.

Lemma truncate_fraction (u : Z) (x : float64) :
  u < 2 ^ 53 -> inRange 0 u (-53) x -> truncate x = Some 0.
Proof.
  intros Hu Hx. apply (truncate_inRange 0 53); [lia | lia |].
  apply (inRange_weaken 0 _ u _ _ x); [lia | lia | exact Hx].
Qed.

(** The integer part of the exact conversion of an integer. *)
Lemma truncate_float64_of_int (n : Z) :
  0 <= n < 2 ^ 53 -> truncate (float64_of_int n) = Some n.
Proof.
  intros [Hn Hlt]. destruct (Z.eq_dec n 0) as [-> | Hne]; [reflexivity |].
  destruct (float64_of_int_exact n ltac:(lia)) as (m & -> & Hm).
  pose proof (Zdigits2_le n 53 ltac:(lia)) as Hd.
  cbn [truncate]. set (e := Zdigits2 n - 53) in *.
  assert (Hp : 0 < 2 ^ (53 - Zdigits2 n)) by (apply pow2_pos; lia).
  destruct (0 <=? e) eqn:E.
  - apply Z.leb_le in E. assert (He : e = 0) by lia.
    rewrite He. replace (53 - Zdigits2 n) with 0 in Hm by lia.
    f_equal. rewrite Hm. lia.
  - f_equal. replace (- e) with (53 - Zdigits2 n) by lia. rewrite Hm.
    apply Z.div_mul. lia.
Qed.

(** A whole number of units plus a fraction of a unit that stays below one
    by more than [2 ^ (- P)]: the sum stays below the next whole number. *)
Lemma fadd_unit (H P : Z) (f : float64) :
  0 < H -> 0 <= P <= 52 -> H + 1 <= 2 ^ (53 - P) ->
  inRange 0 (2 ^ 53 - 2 ^ (53 - P) - 1) (-53) f ->
  inRange (H * 2 ^ P) ((H + 1) * 2 ^ P - 1) (- P) (fadd (float64_of_int H) f).
Proof.
  intros HH HP Hroom Hf.
  assert (HpP : 0 < 2 ^ P) by (apply pow2_pos; lia).
  assert (Hp53 : 2 ^ 53 = 2 ^ (53 - P) * 2 ^ P)
    by (rewrite <- Z.pow_add_r by lia; f_equal; lia).
  assert (HH53 : H < 2 ^ 53) by nia.
  destruct (float64_of_int_exact H ltac:(lia)) as (mh & -> & Hmh).
  set (dH := Zdigits2 H) in *.
  assert (HdH : 1 <= dH <= 53 - P).
  { split; [| apply Zdigits2_le; lia].
    pose proof (Zdigits2_gt H 0 ltac:(lia) ltac:(rewrite Z.pow_0_r; lia)). lia. }
  assert (HpH : 0 < 2 ^ (53 - dH)) by (apply pow2_pos; lia).
  destruct f as [[] | | | [] mf ef]; cbn [inRange] in Hf; try contradiction.
  - (* the fraction is zero *)
    cbn [fadd SFadd inRange]. split; [lia |].
    assert (Hsplit : 2 ^ (53 - dH) = 2 ^ P * 2 ^ (- P - (dH - 53)))
      by (rewrite <- Z.pow_add_r by lia; f_equal; lia).
    assert (HX : 0 < 2 ^ (- P - (dH - 53))) by (apply pow2_pos; lia).
    rewrite Hmh, Hsplit.
    set (A := 2 ^ P) in *. set (X := 2 ^ (- P - (dH - 53))) in *.
    assert (Hup : ((H + 1) * A - 1) * X = H * (A * X) + (A - 1) * X) by ring.
    assert (Hnn : 0 <= (A - 1) * X) by (apply Z.mul_nonneg_nonneg; lia).
    rewrite Hup. split; [rewrite Z.mul_assoc; lia | lia].
  - destruct Hf as (Hef & _ & Hmf).
    unfold fadd, SFadd.
    assert (Hmin : Z.min (dH - 53) ef = ef) by lia.
    rewrite Hmin.
    pose proof (shl_align_spec mh (dH - 53) ef) as [_ Ha].
    pose proof (shl_align_spec mf ef ef) as [_ Hb].
    rewrite Hmin in Ha. rewrite Z.min_id, Z.sub_diag, Z.pow_0_r, Z.mul_1_r in Hb.
    set (a := fst (shl_align mh (dH - 53) ef)) in *.
    set (b := fst (shl_align mf ef ef)) in *.
    cbn [cond_Zopp]. unfold binary_normalize, binary_round.
    change (IntDef.Z.add (Z.pos a) (Z.pos b)) with (Z.pos (a + b)). cbv beta iota.
    pose proof (shl_align_spec (a + b) ef
                  (fexp prec emax (Z.pos (digits2_pos (a + b)) + ef))) as [Hez Hmz].
    destruct (shl_align (a + b) ef (fexp prec emax (Z.pos (digits2_pos (a + b)) + ef)))
      as [mz ez2]. cbn [fst snd] in Hez, Hmz.
    set (ez0 := Z.min ef (fexp prec emax (Z.pos (digits2_pos (a + b)) + ef))) in *.
    assert (Hez2 : ez2 <= ef) by lia.
    rewrite Pos2Z.inj_add, Ha, Hb, Hmh in Hmz. rewrite <- Hez in Hmz.
    (* everything in units of [2 ^ ez2] *)
    set (T := 2 ^ (-53 - ez2)).
    assert (HT : 0 < T) by (apply pow2_pos; lia).
    assert (Hk : 0 < 2 ^ (ef - ez2)) by (apply pow2_pos; lia).
    assert (HuT : 2 ^ (-53 - ef) * 2 ^ (ef - ez2) = T)
      by (unfold T; rewrite <- Z.pow_add_r by lia; f_equal; lia).
    assert (HhT : 2 ^ (53 - dH) * 2 ^ (dH - 53 - ef) * 2 ^ (ef - ez2) = 2 ^ 53 * T)
      by (unfold T; rewrite <- !Z.pow_add_r by lia; f_equal; lia).
    assert (HPT : 2 ^ (- P - ez2) = 2 ^ (53 - P) * T)
      by (unfold T; rewrite <- Z.pow_add_r by lia; f_equal; lia).
    assert (Hp53P : 0 < 2 ^ (53 - P)) by (apply pow2_pos; lia).
    assert (Hmz' : Z.pos mz = H * (2 ^ 53 * T) + Z.pos mf * 2 ^ (ef - ez2)).
    { rewrite Hmz, <- HhT. ring. }
    assert (Hfrac : Z.pos mf * 2 ^ (ef - ez2) <= (2 ^ 53 - 2 ^ (53 - P) - 1) * T).
    { rewrite <- HuT, Z.mul_assoc. apply Z.mul_le_mono_nonneg_r; [lia | apply Hmf]. }
    set (F := Z.pos mf * 2 ^ (ef - ez2)) in *.
    assert (HF : 0 <= F) by (apply Z.mul_nonneg_nonneg; lia).
    clearbody F T. rewrite Hp53 in Hmz', Hfrac.
    set (A := 2 ^ P) in *. set (Bq := 2 ^ (53 - P)) in *. clearbody A Bq.
    assert (Hlo : H * A * 2 ^ (- P - ez2) <= Z.pos mz).
    { rewrite HPT, Hmz'. lia. }
    assert (Hhi : Z.pos mz < ((H + 1) * A - 1) * 2 ^ (- P - ez2)).
    { rewrite HPT, Hmz'. lia. }
    assert (HU : (H + 1) * A - 1 < 2 ^ 53).
    { rewrite Hp53. assert ((H + 1) * A <= Bq * A)
        by (apply Z.mul_le_mono_nonneg_r; lia). lia. }
    apply round_aux_between.
    + apply Z.mul_nonneg_nonneg; lia.
    + assert (Hd : Zdigits2 (Z.pos mz) <= 53 - P - ez2).
      { apply Zdigits2_le. split; [lia |].
        replace (53 - P - ez2) with (53 + (- P - ez2)) by lia.
        rewrite Z.pow_add_r by lia.
        assert (HY : 0 < 2 ^ (- P - ez2)) by (apply pow2_pos; lia).
        eapply Z.lt_trans; [exact Hhi |].
        apply Z.mul_lt_mono_pos_r; assumption. }
      rewrite fexp_eq. lia.
    + split; assumption.
    + exact HU.
    + lia.
Qed.

Lemma fadd_zero_l (l u g : Z) (y : float64) :
  inRange l u g y -> fadd (S754_zero false) y = y.
Proof. destruct y as [[] | | | [] m e]; cbn [inRange]; try tauto; reflexivity. Qed.

(** The whole units of a duration: the quotient converted, plus the
    remainder converted and divided by the unit, has the quotient as its
    integer part, when the unit leaves room below one and the quotient
    leaves room for the fraction. *)
Lemma unit_exact (d D P : Z) :
  0 <= d -> 0 < D -> 0 <= P <= 52 ->
  (2 ^ (53 - P) + 1) * D < 2 ^ 53 ->
  d / D + 1 <= 2 ^ (53 - P) ->
  truncate (fadd (float64_of_int (d / D))
                 (fdiv (float64_of_int (d mod D)) (float64_of_int D)))
  = Some (d / D).
Proof.
  intros Hd HD HP Hroom Hquot.
  assert (Hpp : 0 < 2 ^ (53 - P)) by (apply pow2_pos; lia).
  assert (HD53 : D < 2 ^ 53).
  { assert (2 * D <= (2 ^ (53 - P) + 1) * D) by (apply Z.mul_le_mono_nonneg_r; lia). lia. }
  assert (Hp53 : 2 ^ (53 - P) <= 2 ^ 53) by (apply Z.pow_le_mono_r; lia).
  pose proof (Z.div_pos d D Hd HD) as HH.
  pose proof (Z.mod_pos_bound d D HD) as HN.
  set (H := d / D) in *. set (N := d mod D) in *.
  set (u := 2 ^ 53 - 2 ^ (53 - P) - 1).
  assert (Hu : u < 2 ^ 53) by (unfold u; lia).
  assert (Hf : inRange 0 u (-53) (fdiv (float64_of_int N) (float64_of_int D))).
  { destruct (Z.eq_dec N 0) as [-> | HNpos].
    - destruct (float64_of_int_exact D ltac:(lia)) as (my & -> & _).
      change (float64_of_int 0) with (S754_zero false). cbn. lia.
    - apply fdiv_fraction; lia. }
  set (f := fdiv (float64_of_int N) (float64_of_int D)) in *.
  destruct (Z.eq_dec H 0) as [-> | HHpos].
  - change (float64_of_int 0) with (S754_zero false).
    rewrite (fadd_zero_l _ _ _ f Hf). exact (truncate_fraction u f Hu Hf).
  - apply (truncate_inRange H P); [lia | lia |].
    apply fadd_unit; [lia | lia | lia | exact Hf].
Qed.

(** ** The duration string of a duration below [2 ^ 52] nanoseconds *)

Lemma int_of_float64_truncate (x : float64) (z : Z) :
  truncate x = Some z -> MinInt64 <= z <= MaxInt64 -> int_of_float64 x = z.
Proof.
  intros Hx Hz. unfold int_of_float64. rewrite Hx.
  destruct (MinInt64 <=? z) eqn:E1; [| apply Z.leb_gt in E1; lia].
  destruct (z <=? MaxInt64) eqn:E2; [reflexivity | apply Z.leb_gt in E2; lia].
Qed.

(** For a duration that is not negative and below [2 ^ 52] nanoseconds
    (some 52 days), the conversions through [float64] of [formatDuration]
    lose nothing: the hours are the whole hours of the duration, the
    minutes its whole minutes modulo sixty, the seconds its whole seconds
    modulo sixty; and the string shows the hours if there are any, the
    minutes if there are any, and the seconds if there are any or if
    nothing else is shown. *)
Theorem formatDuration_exact (d : Duration) :
  0 <= d < 2 ^ 52 ->
  let h := d / Hour in
  let m := (d / Minute) mod 60 in
  let s := (d / Second) mod 60 in
  durationHours d = h
  /\ durationMinutes d = m
  /\ durationSeconds d = s
  /\ formatDuration d
     = Join ((if 0 <? h then [itoa h +:+ " hours"] else [])
             ++ (if 0 <? m then [itoa m +:+ " minutes"] else [])
             ++ (if (0 <? s) || (negb (0 <? h) && negb (0 <? m))
                 then [itoa s +:+ " seconds"] else [])) " ".
Proof.
  intros [Hd0 Hd52] h m s.
  change (2 ^ 52) with 4503599627370496 in Hd52.
  assert (Hunit : forall D P,
            0 < D -> 0 <= P <= 52 -> (2 ^ (53 - P) + 1) * D < 2 ^ 53 ->
            d / D + 1 <= 2 ^ (53 - P) -> d / D <= MaxInt64 ->
            int_of_float64 (fadd (float64_of_int (int_quo d D))
                                 (fdiv (float64_of_int (int_rem d D)) (float64_of_int D)))
            = d / D).
  { intros D P HD HP Hroom Hquot Hmax.
    pose proof (Z.div_pos d D Hd0 HD) as Hq0.
    unfold int_quo, int_rem.
    rewrite Z.quot_div_nonneg, Z.rem_mod_nonneg by lia.
    rewrite wrap64_small by (unfold MinInt64; lia).
    apply int_of_float64_truncate; [| unfold MinInt64; lia].
    apply (unit_exact d D P); assumption. }
  assert (Hh : int_of_float64 (Hours d) = d / Hour).
  { apply (Hunit Hour 42); change Hour with 3600000000000; unfold MaxInt64;
      [lia | lia | vm_compute; reflexivity | | ].
    - change (2 ^ (53 - 42)) with 2048. clear - Hd0 Hd52.
      assert (d / 3600000000000 < 2047) by (apply Z.div_lt_upper_bound; lia). lia.
    - change (2 ^ 63) with 9223372036854775808. clear - Hd0 Hd52.
      match goal with |- ?q <= _ => assert (q <= d) by (apply Z.div_le_upper_bound; lia) end.
      lia. }
  assert (Hm : int_of_float64 (Minutes d) = d / Minute).
  { apply (Hunit Minute 36); change Minute with 60000000000; unfold MaxInt64;
      [lia | lia | vm_compute; reflexivity | | ].
    - change (2 ^ (53 - 36)) with 131072. clear - Hd0 Hd52.
      assert (d / 60000000000 < 131071) by (apply Z.div_lt_upper_bound; lia). lia.
    - change (2 ^ 63) with 9223372036854775808. clear - Hd0 Hd52.
      match goal with |- ?q <= _ => assert (q <= d) by (apply Z.div_le_upper_bound; lia) end.
      lia. }
  assert (Hs : int_of_float64 (Seconds d) = d / Second).
  { apply (Hunit Second 30); change Second with 1000000000; unfold MaxInt64;
      [lia | lia | vm_compute; reflexivity | | ].
    - change (2 ^ (53 - 30)) with 8388608. clear - Hd0 Hd52.
      assert (d / 1000000000 < 8388607) by (apply Z.div_lt_upper_bound; lia). lia.
    - change (2 ^ 63) with 9223372036854775808. clear - Hd0 Hd52.
      match goal with |- ?q <= _ => assert (q <= d) by (apply Z.div_le_upper_bound; lia) end.
      lia. }
  assert (Hrem : forall q, 0 <= q -> int_rem q 60 = q mod 60).
  { intros q Hq. unfold int_rem. apply Z.rem_mod_nonneg; lia. }
  assert (H1 : durationHours d = h) by exact Hh.
  assert (H2 : durationMinutes d = m).
  { unfold durationMinutes. rewrite Hm. apply Hrem. apply Z.div_pos; [lia |].
    change Minute with 60000000000. lia. }
  assert (H3 : durationSeconds d = s).
  { unfold durationSeconds. rewrite Hs. apply Hrem. apply Z.div_pos; [lia |].
    change Second with 1000000000. lia. }
  split; [exact H1 |]. split; [exact H2 |]. split; [exact H3 |].
  unfold formatDuration.
  change (int_of_float64 (Hours d)) with (durationHours d).
  change (int_rem (int_of_float64 (Minutes d)) 60) with (durationMinutes d).
  change (int_rem (int_of_float64 (Seconds d)) 60) with (durationSeconds d).
  rewrite H1, H2, H3.
  destruct (0 <? h); destruct (0 <? m); destruct (0 <? s); reflexivity.
Qed.

(** * Instances

    The properties above at concrete runs: a deployment under [/work] with
    tasks that succeed or fail, a clock that ticks once a second, and a file
    system that starts empty. *)

Definition sampleDir (path : string) : string := "/work".

Definition sampleJoin (dir file : string) : string := dir +:+ "/" +:+ file.

Definition sampleFile : string := "/work/deployment_progress.json".

Definition sampleClock (n : nat) : Time :=
  mkTime 2025 3 9 14 (Z.of_nat n / 60 mod 60) (Z.of_nat n mod 60) 0 480
         (Some (Z.of_nat n * 1000000000)).

Definition emptyWorld : World := mkWorld (mkFileSystem ∅ ∅) sampleClock 0 [].

Definition background : Context := mkContext false.

Definition succeeds (name : string) : Task :=
  mkTask name (fun _ store w => (store, w, None)).

Definition fails (name cause : string) : Task :=
  mkTask name (fun _ store w => (store, w, Some (errNew cause))).

Definition resumeConfig : Config :=
  mkConfig "/work" EmptyString true "green" true "bar".

Definition runnerWith (c : Config) (ts : list Task) (dp : DeploymentProgress) : Runner :=
  mkRunner (Some (mkRuntime ∅ c (WorkDir c) (Some dp))) ts c true sampleFile.

Definition freshProgress (n : Z) : DeploymentProgress :=
  setTotalTasks (NewDeploymentProgress (sampleClock 0)) n.

(** A progress model restored from an earlier run in which [A] completed. *)
Definition doneA : ProgressInfo :=
  mkProgressInfo "A" "A" true 0 0 (stripMono (sampleClock 1)) (stripMono (sampleClock 2)).

Definition resumedProgress : DeploymentProgress :=
  mkDeploymentProgress (stripMono (sampleClock 0)) zeroTime 2 1 "A" (Some {["A" := doneA]}).

Lemma typed_load_witness :
  LoadString (mkRuntime {[AnyString "user_token" := AnyInt 7]} resumeConfig "/work" None)
             (AnyString "user_token")
  = Panics (TypeAssertionError "int" "string")
  /\ LoadInt (mkRuntime ∅ resumeConfig "/work" None) (AnyString "user_token")
     = Returns (0, false).
Proof.
  split.
  - apply (proj1 (typed_load_fails_on_mismatch
                    (mkRuntime {[AnyString "user_token" := AnyInt 7]} resumeConfig "/work" None)
                    (AnyString "user_token")) (AnyInt 7)).
    + reflexivity.
    + discriminate.
  - apply (proj2 (typed_load_fails_on_mismatch (mkRuntime ∅ resumeConfig "/work" None)
                    (AnyString "user_token"))).
    reflexivity.
Defined.

(** C8, as the claim states it, fails: for one hour and thirty seconds the
    claim shows the zero minutes, and [formatDuration] leaves them out. *)
Lemma formatDuration_omits_inner_zero :
  formatDuration_spec (Hour + 30 * Second) = "1 hours 0 minutes 30 seconds"
  /\ formatDuration (Hour + 30 * Second) = "1 hours 30 seconds"
  /\ formatDuration (Hour + 30 * Second) <> formatDuration_spec (Hour + 30 * Second).
Proof.
  assert (H1 : formatDuration_spec (Hour + 30 * Second) = "1 hours 0 minutes 30 seconds")
    by (vm_compute; reflexivity).
  assert (H2 : formatDuration (Hour + 30 * Second) = "1 hours 30 seconds")
    by (vm_compute; reflexivity).
  split; [exact H1 |]. split; [exact H2 |]. rewrite H1, H2. discriminate.
Qed.

Lemma restore_of_missing_path_witness :
  notExist (fs emptyWorld) sampleFile = true
  /\ LoadProgressFromFile sampleFile emptyWorld
     = (snd (Now emptyWorld), inr (NewDeploymentProgress (sampleClock 0))).
Proof.
  split; [reflexivity |].
  destruct (restore_of_missing_path_is_fresh sampleFile emptyWorld eq_refl)
    as (dp & Hload & -> & _).
  exact Hload.
Defined.

(** A world whose progress file is not JSON. *)
Definition brokenWorld : World :=
  mkWorld (mkFileSystem {[sampleFile := File (Malformed "{")]} ∅) sampleClock 0 [].

Lemma initProgressTracking_witness :
  exists w',
    initProgressTracking sampleJoin (runnerWith resumeConfig [succeeds "A"; succeeds "B"]
                                                (freshProgress 0)) brokenWorld
    = (sampleFile, freshProgress 2, w')
    /\ log w' = [mkLogEntry WarnLevel []
        "Failed to load progress file: invalid character looking for beginning of value, starting fresh deployment"].
Proof.
  pose proof (initProgressTracking_never_fails sampleJoin
                (runnerWith resumeConfig [succeeds "A"; succeeds "B"] (freshProgress 0))
                brokenWorld) as H.
  simpl in H. destruct H as (dp & w' & Heq & _ & _ & Hfail).
  destruct (Hfail eq_refl brokenWorld
              (errTrace (errNew "invalid character looking for beginning of value"))
              eq_refl) as (Hdp & _ & Hlog).
  exists w'. subst dp. split; [exact Heq | exact Hlog].
Defined.

(** Resuming with [A] completed: [A] is skipped, [B] runs. *)
Definition resumedRunner : Runner :=
  runnerWith resumeConfig [succeeds "A"; succeeds "B"] resumedProgress.

Lemma completed_task_is_skipped_witness :
  ResumeEnabled (cfg resumedRunner) = true
  /\ mapLookup (TaskProgress resumedProgress) "A" = Some doneA
  /\ Completed doneA = true
  /\ Forall (fun e => touches "A" e = false)
            (out_trace (Run sampleDir resumedRunner background emptyWorld))
  /\ runs (out_trace (Run sampleDir resumedRunner background emptyWorld)) = [1%nat].
Proof.
  split; [reflexivity |]. split; [reflexivity |]. split; [reflexivity |].
  split.
  - apply (completed_task_is_skipped sampleDir resumedRunner background emptyWorld
             (mkRuntime ∅ resumeConfig "/work" (Some resumedProgress))
             resumedProgress "A" doneA);
      [split; reflexivity | reflexivity | reflexivity | reflexivity].
  - vm_compute. reflexivity.
Defined.

(** Two tasks share the name [A]: the first runs, the second is skipped. *)
Definition twinsRunner : Runner :=
  runnerWith resumeConfig [succeeds "A"; succeeds "A"; succeeds "B"] (freshProgress 3).

Definition twinsStart : RunState :=
  mkRunState (freshProgress 3) ∅ emptyWorld [].

Definition twinsBegun : RunState :=
  stateOf (beginTask sampleDir resumeConfig sampleFile (useColorOf resumeConfig)
                     (highlightColorOf resumeConfig) 0 (succeeds "A") twinsStart).

Lemma same_name_shares_record_witness :
  exists info ev dp',
    TaskID info = "A" /\ Name info = "A" /\ Completed info = true
    /\ out_trace (Run sampleDir twinsRunner background emptyWorld) = ev
    /\ runsOf "A" ev = [0%nat]
    /\ progressOf (out_runner (Run sampleDir twinsRunner background emptyWorld)) = Some dp'
    /\ mapLookup (TaskProgress dp') "A" = Some info
    /\ runs ev = [0%nat; 2%nat].
Proof.
  destruct (same_name_shares_record sampleDir twinsRunner background emptyWorld
              (mkRuntime ∅ resumeConfig "/work" (Some (freshProgress 3))) (freshProgress 3)
              [] [succeeds "A"; succeeds "B"] (succeeds "A") twinsStart twinsBegun)
    as (info & ev & dp' & Hid & Hname & Hdone & Htrace & Hruns & Hprog & Hlook & _).
  - split; reflexivity.
  - reflexivity.
  - reflexivity.
  - reflexivity.
  - reflexivity.
  - vm_compute. reflexivity.
  - reflexivity.
  - exists info, ev, dp'. simpl in Htrace.
    repeat (split; [assumption |]). rewrite <- Htrace. vm_compute. reflexivity.
Defined.

(** [A] and [B] succeed, [C] fails with "disk full", [D] is never started. *)
Definition failingRunner : Runner :=
  runnerWith resumeConfig
             [succeeds "A"; succeeds "B"; fails "C" "disk full"; succeeds "D"]
             (freshProgress 4).

Definition afterAB : RunState :=
  stateOf (runLoop sampleDir resumeConfig sampleFile background (useColorOf resumeConfig)
                   (highlightColorOf resumeConfig) 0 [succeeds "A"; succeeds "B"]
                   (mkRunState (freshProgress 4) ∅ emptyWorld [])).

Definition begunC : RunState :=
  stateOf (beginTask sampleDir resumeConfig sampleFile (useColorOf resumeConfig)
                     (highlightColorOf resumeConfig) 2 (fails "C" "disk full") afterAB).

Lemma failing_task_stops_run_witness :
  out_result (Run sampleDir failingRunner background emptyWorld)
  = Returns (Some (errAnnotate (errNew "disk full") "run task C"))
  /\ errorText (errAnnotate (errNew "disk full") "run task C") = "run task C: disk full"
  /\ runs (out_trace (Run sampleDir failingRunner background emptyWorld))
     = [0%nat; 1%nat; 2%nat]
  /\ exists dp' info,
       progressOf (out_runner (Run sampleDir failingRunner background emptyWorld)) = Some dp'
       /\ CurrentTask dp' = "C" /\ CompletedTasks dp' = 2
       /\ mapLookup (TaskProgress dp') "C" = Some info /\ Completed info = false.
Proof.
  destruct (failing_task_stops_run sampleDir failingRunner background emptyWorld
              (mkRuntime ∅ resumeConfig "/work" (Some (freshProgress 4))) (freshProgress 4)
              [succeeds "A"; succeeds "B"] [succeeds "D"] (fails "C" "disk full")
              afterAB begunC (errNew "disk full"))
    as (Hres & Htext & _ & Htrace & _ & dp' & info & Hprog & Hcur & Hlook & Hopen & Hcount & _).
  - split; reflexivity.
  - reflexivity.
  - vm_compute. reflexivity.
  - vm_compute. reflexivity.
  - vm_compute. reflexivity.
  - vm_compute. reflexivity.
  - split; [exact Hres |]. split; [exact Htext |].
    split; [vm_compute; reflexivity |].
    exists dp', info. split; [exact Hprog |]. split; [exact Hcur |].
    split; [rewrite Hcount; vm_compute; reflexivity |]. split; assumption.
Defined.

Lemma saved_progress_counts_completed_witness :
  counts (freshProgress 3)
  /\ Forall counts (saved (out_trace (Run sampleDir twinsRunner background emptyWorld)))
  /\ length (saved (out_trace (Run sampleDir twinsRunner background emptyWorld))) = 5%nat.
Proof.
  split; [apply fresh_progress_counts |]. split.
  - apply (saved_progress_counts_completed sampleDir twinsRunner background emptyWorld
             (mkRuntime ∅ resumeConfig "/work" (Some (freshProgress 3))) (freshProgress 3)).
    + split; reflexivity.
    + apply fresh_progress_counts.
    + vm_compute. discriminate.
  - vm_compute. reflexivity.
Defined.

(** A progress model the file can hold: one task, completed. *)
Definition storedProgress : DeploymentProgress :=
  mkDeploymentProgress (sampleClock 0) (sampleClock 3) 1 1 "A"
                       (Some {["A" := mkProgressInfo "A" "A" true 0 0
                                                     (sampleClock 1) (sampleClock 2)]}).

Lemma sampleClock_encodable (n : nat) : encodableTime (sampleClock n).
Proof.
  unfold encodableTime, wellFormed, sampleClock. simpl.
  change (daysIn 3 2025) with 31.
  pose proof (Z.mod_pos_bound (Z.of_nat n / 60) 60).
  pose proof (Z.mod_pos_bound (Z.of_nat n) 60).
  repeat split; lia.
Qed.

Lemma storedProgress_encodable : encodable storedProgress.
Proof.
  unfold encodable, storedProgress. simpl.
  split; [apply sampleClock_encodable |]. split; [apply sampleClock_encodable |].
  split; [unfold isInt, MinInt64, MaxInt64; lia |].
  split; [unfold isInt, MinInt64, MaxInt64; lia |].
  split; [reflexivity |].
  intros m k info [= <-] Hk. apply lookup_singleton_Some in Hk. destruct Hk as [<- <-].
  split; [reflexivity |]. unfold encodableInfo. simpl.
  split; [reflexivity |]. split; [reflexivity |].
  split; [unfold isInt, MinInt64, MaxInt64; lia |].
  split; [unfold isInt, MinInt64, MaxInt64; lia |].
  split; apply sampleClock_encodable.
Qed.

Definition storedWorld : World :=
  mkWorld (fst (SaveProgressToFile sampleDir storedProgress sampleFile (fs emptyWorld)))
          sampleClock 0 [].

Lemma persist_then_restore_witness :
  snd (SaveProgressToFile sampleDir storedProgress sampleFile (fs emptyWorld)) = None
  /\ LoadProgressFromFile sampleFile storedWorld
     = (storedWorld, inr (stripProgress storedProgress))
  /\ StartTime (stripProgress storedProgress) = stripMono (sampleClock 0).
Proof.
  split; [vm_compute; reflexivity |]. split; [| reflexivity].
  apply (persist_then_restore sampleDir storedProgress sampleFile (fs emptyWorld)
           (fs storedWorld) storedWorld).
  - exact storedProgress_encodable.
  - vm_compute. reflexivity.
  - reflexivity.
Defined.

(** C3, as the claim states it, fails: a progress model whose current task
    is the one byte [0xFF] is saved without error, and what is restored from
    the file has the three bytes of the replacement character in its place.
    No timestamp of this model carries a monotonic clock reading. *)
Definition invalidProgress : DeploymentProgress :=
  mkDeploymentProgress zeroTime zeroTime 0 0 (String (ascii_of_N 255) EmptyString) (Some ∅).

Lemma persist_then_restore_changes_invalid_utf8 :
  exists f' restored,
    SaveProgressToFile sampleDir invalidProgress sampleFile (fs emptyWorld) = (f', None)
    /\ LoadProgressFromFile sampleFile (withFs emptyWorld f') = (withFs emptyWorld f', inr restored)
    /\ CurrentTask restored = Utf8.replacement
    /\ restored <> invalidProgress.
Proof.
  eexists _, _. split; [vm_compute; reflexivity |].
  split; [vm_compute; reflexivity |]. split; [reflexivity |]. discriminate.
Qed.

(** The bar of the second of three tasks: nine cells of thirty, since
    [float64] rounds the percentage below a third of a hundred. *)
Lemma bar_of_task_in_range_witness :
  0 < TotalTasks (freshProgress 3) <= MaxInt64
  /\ 0 <= 1 < TotalTasks (freshProgress 3)
  /\ progressMessage (freshProgress 3) 1 "B" "bar"
     = "[=========>                    ] 33.3% (2/3) Current: B".
Proof.
  assert (Hn : 0 < TotalTasks (freshProgress 3) <= MaxInt64)
    by (vm_compute; split; [reflexivity | discriminate]).
  assert (Hk : 0 <= 1 < TotalTasks (freshProgress 3))
    by (vm_compute; split; [discriminate | reflexivity]).
  split; [exact Hn |]. split; [exact Hk |].
  destruct (bar_of_task_in_range (freshProgress 3) 1 "B" Hn Hk) as (_ & _ & _ & Hmsg).
  rewrite Hmsg. vm_compute. reflexivity.
Defined.

(** A world whose progress file holds the empty object. *)
Definition emptyObjectWorld : World :=
  mkWorld (mkFileSystem {[sampleFile := File (Document (Json.JObject []))]} ∅)
          sampleClock 0 [].

Lemma resume_without_task_map_panics_witness :
  out_result (Run sampleDir
                  (fst (Init sampleJoin (newRunner resumeConfig [succeeds "A"])
                             emptyObjectWorld))
                  background
                  (snd (Init sampleJoin (newRunner resumeConfig [succeeds "A"])
                             emptyObjectWorld)))
  = Panics NilMapAssignment.
Proof.
  apply (resume_without_task_map_panics sampleDir sampleJoin
           (newRunner resumeConfig [succeeds "A"]) background emptyObjectWorld
           (Json.JObject []) Json.zeroDeploymentProgress (succeeds "A") []).
  - reflexivity.
  - reflexivity.
  - constructor.
  - reflexivity.
  - reflexivity.
Defined.

Lemma Register_only_before_Init_witness :
  init (newRunner resumeConfig []) = false
  /\ snd (Register (fst (Init sampleJoin
                              (fst (Register (newRunner resumeConfig [])
                                             [succeeds "A"; succeeds "B"]))
                              emptyWorld))
                   [succeeds "C"])
     = Some (errNew "runner has been initialized").
Proof.
  split; [reflexivity |].
  destruct (Register_only_before_Init sampleJoin (newRunner resumeConfig []) emptyWorld
              [succeeds "A"; succeeds "B"] [succeeds "C"] eq_refl)
    as (_ & _ & _ & _ & Hrefused).
  rewrite Hrefused. reflexivity.
Defined.

Lemma getColorAttribute_names_witness :
  isASCII "Green" = true /\ getColorAttribute "Green" = FgHiGreen.
Proof.
  split; [reflexivity |].
  apply (proj1 (getColorAttribute_names "Green" eq_refl) "green" FgHiGreen).
  - left. reflexivity.
  - reflexivity.
Defined.

Definition quietConfig : Config :=
  mkConfig "/work" EmptyString false EmptyString false EmptyString.

Lemma run_without_resume_writes_nothing_witness :
  fs (out_world (Run sampleDir
                     (runnerWith quietConfig [succeeds "A"; fails "B" "boom"]
                                 (freshProgress 2))
                     background emptyWorld))
  = fs emptyWorld.
Proof.
  apply (run_without_resume_writes_nothing sampleDir
           (runnerWith quietConfig [succeeds "A"; fails "B" "boom"] (freshProgress 2))
           background emptyWorld
           (mkRuntime ∅ quietConfig "/work" (Some (freshProgress 2))) (freshProgress 2)).
  - split; reflexivity.
  - reflexivity.
  - repeat constructor.
Defined.

Lemma run_of_succeeding_tasks_witness :
  out_result (Run sampleDir
                  (runnerWith resumeConfig [succeeds "A"; succeeds "B"] (freshProgress 2))
                  background emptyWorld)
  = Returns None.
Proof.
  apply (run_of_succeeding_tasks sampleDir
           (runnerWith resumeConfig [succeeds "A"; succeeds "B"] (freshProgress 2))
           background emptyWorld
           (mkRuntime ∅ resumeConfig "/work" (Some (freshProgress 2))) (freshProgress 2) ∅).
  - split; reflexivity.
  - reflexivity.
  - repeat constructor.
  - vm_compute. discriminate.
  - vm_compute. discriminate.
Defined.



Lemma freshProgress_encodable (n : Z) : isInt n -> encodable (freshProgress n).
Proof.
  intros Hn. unfold encodable, freshProgress. simpl.
  split; [apply sampleClock_encodable |]. split; [apply encodableTime_zero |].
  split; [exact Hn |].
  split; [unfold isInt, MinInt64, MaxInt64; lia |].
  split; [reflexivity |].
  intros m k info [= <-] Hk. rewrite lookup_empty in Hk. discriminate.
Qed.

Lemma emptyWorld_writable : writable sampleDir (fs emptyWorld) sampleFile.
Proof.
  unfold writable, sampleDir, emptyWorld. simpl.
  split; [set_solver |]. split; [set_solver |]. split; [discriminate |].
  split; [intros c |]; rewrite lookup_empty; discriminate.
Qed.

(** The run that fails at [C] leaves its progress in the file, and a new
    runner is initialised with it. *)
Lemma resumed_run_skips_completed_witness :
  exists dp1,
    progressOf (out_runner (Run sampleDir failingRunner background emptyWorld)) = Some dp1
    /\ progressOf (fst (Init sampleJoin
                             (newRunner (cfg failingRunner) (tasks failingRunner))
                             (out_world (Run sampleDir failingRunner background emptyWorld))))
       = Some (setTotalTasks (stripProgress dp1) 4).
Proof.
  destruct (resumed_run_skips_completed sampleDir sampleJoin failingRunner
              background background emptyWorld
              (mkRuntime ∅ resumeConfig "/work" (Some (freshProgress 4))) (freshProgress 4))
    as (dp1 & Hleft & _ & _ & Hagain & _).
  - split; reflexivity.
  - reflexivity.
  - reflexivity.
  - split; [exists ∅; reflexivity |].
    split; [apply freshProgress_encodable; unfold isInt, MinInt64, MaxInt64; lia |].
    split; [exact sampleClock_encodable | exact emptyWorld_writable].
  - repeat constructor.
  - exists dp1. split; [exact Hleft | exact Hagain].
Defined.

(** Two tasks that succeed: the second run skips both. *)
Definition completingRunner : Runner :=
  runnerWith resumeConfig [succeeds "A"; succeeds "B"] (freshProgress 2).

Lemma rerun_after_completion_runs_nothing_witness :
  runs (out_trace
          (Run sampleDir
               (fst (Init sampleJoin
                          (newRunner (cfg completingRunner) (tasks completingRunner))
                          (out_world (Run sampleDir completingRunner background emptyWorld))))
               background
               (snd (Init sampleJoin
                          (newRunner (cfg completingRunner) (tasks completingRunner))
                          (out_world (Run sampleDir completingRunner background
                                          emptyWorld))))))
  = [].
Proof.
  apply (rerun_after_completion_runs_nothing sampleDir sampleJoin completingRunner
           background background emptyWorld
           (mkRuntime ∅ resumeConfig "/work" (Some (freshProgress 2))) (freshProgress 2)).
  - split; reflexivity.
  - reflexivity.
  - reflexivity.
  - split; [exists ∅; reflexivity |].
    split; [apply freshProgress_encodable; unfold isInt, MinInt64, MaxInt64; lia |].
    split; [exact sampleClock_encodable | exact emptyWorld_writable].
  - repeat constructor.
  - repeat constructor.
  - vm_compute. discriminate.
  - vm_compute. discriminate.
Defined.

Lemma formatDuration_exact_witness :
  0 <= 2 * Hour + 5 * Second < 2 ^ 52
  /\ formatDuration (2 * Hour + 5 * Second) = "2 hours 5 seconds".
Proof.
  assert (Hd : 0 <= 2 * Hour + 5 * Second < 2 ^ 52)
    by (vm_compute; split; [discriminate | reflexivity]).
  split; [exact Hd |].
  destruct (formatDuration_exact (2 * Hour + 5 * Second) Hd) as (_ & _ & _ & Hstr).
  rewrite Hstr. vm_compute. reflexivity.
Defined.
